(** * LiveMate text-formatting engine

    A shallow embedding of [lib/formatting-actions], [lib/advanced-formatting]
    and the [applyFormatting] callback of [hooks/use-text-formatting], with the
    properties of the style detectors/appliers, the selection-context resolver
    and the toggle orchestrator.

    JavaScript strings are sequences of UTF-16 code units; a code unit is an
    [N] and a string a [list] of them.  Offsets into strings and documents are
    natural numbers; the signed indices of [String.prototype.slice] are [Z]. *)

From Stdlib Require Import Ascii String.
From Stdlib Require Import List Bool Arith NArith ZArith Lia.
Import ListNotations.

(* ================================================================== *)
(** * JavaScript strings *)
(* ================================================================== *)

Definition char := N.
Definition jsstring := list char.

(** A string literal of the source, as code units. *)
Definition lit (s : string) : jsstring :=
  map N_of_ascii (list_ascii_of_string s).
Arguments lit s%_string.

Definition char_eqb (a b : char) : bool := N.eqb a b.

Fixpoint jsstring_eqb (a b : jsstring) : bool :=
  match a, b with
  | [], [] => true
  | x :: a', y :: b' => char_eqb x y && jsstring_eqb a' b'
  | _, _ => false
  end.

(** ECMAScript [WhiteSpace] and [LineTerminator] code units: what
    [String.prototype.trim] strips and what the regular-expression class
    [\s] matches. *)
Definition is_ws (c : char) : bool :=
  ((9 <=? c) && (c <=? 13) || (c =? 32) || (c =? 160) || (c =? 5760)
   || (8192 <=? c) && (c <=? 8202) || (c =? 8232) || (c =? 8233)
   || (c =? 8239) || (c =? 8287) || (c =? 12288) || (c =? 65279))%N.

Fixpoint dropWhile (f : char -> bool) (s : jsstring) : jsstring :=
  match s with
  | [] => []
  | c :: r => if f c then dropWhile f r else s
  end.

Fixpoint takeWhile (f : char -> bool) (s : jsstring) : jsstring :=
  match s with
  | [] => []
  | c :: r => if f c then c :: takeWhile f r else []
  end.

Definition trimStart (s : jsstring) : jsstring := dropWhile is_ws s.
Definition trimEnd (s : jsstring) : jsstring := rev (dropWhile is_ws (rev s)).

(** [s.trim()] *)
Definition trim (s : jsstring) : jsstring := trimEnd (trimStart s).

(** [s.startsWith(p)] *)
Definition startsWith (s p : jsstring) : bool :=
  jsstring_eqb (firstn (length p) s) p.

(** [s.endsWith(p)] *)
Definition endsWith (s p : jsstring) : bool :=
  (length p <=? length s) && jsstring_eqb (skipn (length s - length p) s) p.

(** [s.slice(b, e)]: a negative index counts from the end, both indices are
    clamped to the string, and an empty span yields the empty string. *)
Definition slice (s : jsstring) (b e : Z) : jsstring :=
  let len := Z.of_nat (length s) in
  let from := if (b <? 0)%Z then Z.max (len + b) 0 else Z.min b len in
  let to := if (e <? 0)%Z then Z.max (len + e) 0 else Z.min e len in
  firstn (Z.to_nat (to - from)) (skipn (Z.to_nat from) s).

(** [s[i] === c]; an index past the end reads [undefined], equal to no
    character. *)
Definition charAtIs (s : jsstring) (i : nat) (c : char) : bool :=
  match nth_error s i with
  | Some x => char_eqb x c
  | None => false
  end.

(* ================================================================== *)
(** * Anchored regular expressions of the source

    The three patterns of the source, [/^#+\s+/], [/^[-*]\s/] and
    [/^[-*]\s+/], are sequences of character classes, each taken once or
    under a greedy [+], anchored at the start.  [matchSeq] is the
    backtracking matcher for such sequences: it returns what follows the
    first match in the engine's priority order. *)
(* ================================================================== *)

Inductive atom : Type :=
| One (cls : char -> bool)
| Plus (cls : char -> bool).

Fixpoint matchSeq (p : list atom) : jsstring -> option jsstring :=
  match p with
  | [] => fun s => Some s
  | One cls :: p' =>
      fun s =>
        match s with
        | c :: r => if cls c then matchSeq p' r else None
        | [] => None
        end
  | Plus cls :: p' =>
      fix plus (s : jsstring) : option jsstring :=
        match s with
        | c :: r =>
            if cls c then
              match plus r with
              | Some rest => Some rest
              | None => matchSeq p' r
              end
            else None
        | [] => None
        end
  end.

(** [re.test(s)] for an anchored pattern. *)
Definition regexTest (p : list atom) (s : jsstring) : bool :=
  match matchSeq p s with
  | Some _ => true
  | None => false
  end.

(** [s.replace(re, '')] for an anchored pattern without the [g] flag. *)
Definition regexStrip (p : list atom) (s : jsstring) : jsstring :=
  match matchSeq p s with
  | Some rest => rest
  | None => s
  end.

Definition ch (a : ascii) : char := N_of_ascii a.
Arguments ch a%_char.

Definition is_hash (c : char) : bool := char_eqb c (ch "#").
Definition is_bullet_mark (c : char) : bool :=
  char_eqb c (ch "-") || char_eqb c (ch "*").

(** [/^#+\s+/] *)
Definition reHeaderPrefix : list atom := [Plus is_hash; Plus is_ws].
(** [/^[-*]\s/] *)
Definition reBulletTest : list atom := [One is_bullet_mark; One is_ws].
(** [/^[-*]\s+/] *)
Definition reBulletPrefix : list atom := [One is_bullet_mark; Plus is_ws].

(* ================================================================== *)
(** * lib/formatting-actions *)
(* ================================================================== *)

Inductive FormatType : Type :=
| bold | italic | underline | strikethrough | h1 | h2 | h3 | bullet.

Record FormatState : Type := mkFormatState {
  fs_bold : bool;
  fs_italic : bool;
  fs_underline : bool;
  fs_strikethrough : bool;
  fs_h1 : bool;
  fs_h2 : bool;
  fs_h3 : bool;
  fs_bullet : bool
}.

(** ** Bold *)

(** The condition shared by [isBold] and the loop of [removeBold]. *)
Definition boldWrapped (t : jsstring) : bool :=
  startsWith t (lit "<b>") && endsWith t (lit "</b>") && (7 <? length t).

Definition isBold (text : jsstring) : bool :=
  let trimmed := trim text in
  boldWrapped trimmed.

Definition applyBold (text : jsstring) : jsstring :=
  lit "<b>" ++ text ++ lit "</b>".

(** The [while] loop of [removeBold]; every iteration shortens [result], so
    [length result] iterations are enough (see [removeBoldLoop_exit]). *)
Fixpoint removeBoldLoop (fuel : nat) (result : jsstring) : jsstring :=
  match fuel with
  | O => result
  | S fuel' =>
      if boldWrapped result
      then removeBoldLoop fuel' (slice result 3 (-4))
      else result
  end.

Definition removeBold (text : jsstring) : jsstring :=
  let result := trim text in
  removeBoldLoop (length result) result.

Definition toggleBold (text : jsstring) : jsstring :=
  if isBold text then removeBold text else applyBold text.

(** ** Italic *)

Definition italicWrapped (t : jsstring) : bool :=
  startsWith t (lit "<i>") && endsWith t (lit "</i>") && (7 <? length t).

Definition isItalic (text : jsstring) : bool :=
  let trimmed := trim text in
  if startsWith trimmed (lit "<b>") || endsWith trimmed (lit "</b>")
  then false
  else italicWrapped trimmed.

Definition applyItalic (text : jsstring) : jsstring :=
  lit "<i>" ++ text ++ lit "</i>".

Fixpoint removeItalicLoop (fuel : nat) (result : jsstring) : jsstring :=
  match fuel with
  | O => result
  | S fuel' =>
      if italicWrapped result then
        if startsWith result (lit "<b>") || endsWith result (lit "</b>")
        then result (* break *)
        else removeItalicLoop fuel' (slice result 3 (-4))
      else result
  end.

Definition removeItalic (text : jsstring) : jsstring :=
  let result := trim text in
  removeItalicLoop (length result) result.

Definition toggleItalic (text : jsstring) : jsstring :=
  if isItalic text then removeItalic text else applyItalic text.

(** ** Strikethrough *)

Definition isStrikethrough (text : jsstring) : bool :=
  let trimmed := trim text in
  startsWith trimmed (lit "~~") && endsWith trimmed (lit "~~")
  && (4 <? length trimmed).

Definition applyStrikethrough (text : jsstring) : jsstring :=
  lit "~~" ++ text ++ lit "~~".

Definition removeStrikethrough (text : jsstring) : jsstring :=
  let trimmed := trim text in
  if isStrikethrough trimmed then slice trimmed 2 (-2) else text.

Definition toggleStrikethrough (text : jsstring) : jsstring :=
  if isStrikethrough text then removeStrikethrough text
  else applyStrikethrough text.

(** ** Underline *)

Definition isUnderline (text : jsstring) : bool :=
  let trimmed := trim text in
  startsWith trimmed (lit "<u>") && endsWith trimmed (lit "</u>")
  && (7 <? length trimmed).

Definition applyUnderline (text : jsstring) : jsstring :=
  lit "<u>" ++ text ++ lit "</u>".

Definition removeUnderline (text : jsstring) : jsstring :=
  let trimmed := trim text in
  if isUnderline trimmed then slice trimmed 3 (-4) else text.

Definition toggleUnderline (text : jsstring) : jsstring :=
  if isUnderline text then removeUnderline text else applyUnderline text.

(** ** Headers *)

(** The [while] loop of [getHeaderLevel]: [level] only grows while it is
    below [trimmed.length], so [length trimmed] iterations are enough. *)
Fixpoint headerLevelLoop (fuel : nat) (trimmed : jsstring) (level : nat) : nat :=
  match fuel with
  | O => level
  | S fuel' =>
      if (level <? length trimmed) && charAtIs trimmed level (ch "#")
      then headerLevelLoop fuel' trimmed (S level)
      else level
  end.

Definition getHeaderLevel (text : jsstring) : nat :=
  let trimmed := trim text in
  let level := headerLevelLoop (length trimmed) trimmed 0 in
  if (0 <? level) && (level <=? 3) && charAtIs trimmed level (ch " ")
  then level
  else 0.

Definition isH1 (text : jsstring) : bool := getHeaderLevel text =? 1.
Definition isH2 (text : jsstring) : bool := getHeaderLevel text =? 2.
Definition isH3 (text : jsstring) : bool := getHeaderLevel text =? 3.

Definition applyH1 (text : jsstring) : jsstring :=
  let trimmed := trim text in
  let cleanedText := regexStrip reHeaderPrefix trimmed in
  lit "# " ++ cleanedText.

Definition applyH2 (text : jsstring) : jsstring :=
  let trimmed := trim text in
  let cleanedText := regexStrip reHeaderPrefix trimmed in
  lit "## " ++ cleanedText.

Definition applyH3 (text : jsstring) : jsstring :=
  let trimmed := trim text in
  let cleanedText := regexStrip reHeaderPrefix trimmed in
  lit "### " ++ cleanedText.

Definition removeHeader (text : jsstring) : jsstring :=
  let trimmed := trim text in
  regexStrip reHeaderPrefix trimmed.

Definition toggleH1 (text : jsstring) : jsstring :=
  if isH1 text then removeHeader text else applyH1 text.
Definition toggleH2 (text : jsstring) : jsstring :=
  if isH2 text then removeHeader text else applyH2 text.
Definition toggleH3 (text : jsstring) : jsstring :=
  if isH3 text then removeHeader text else applyH3 text.

(** ** Bullet lists *)

Definition isBulletList (text : jsstring) : bool :=
  let trimmed := trim text in
  regexTest reBulletTest trimmed.

Definition applyBulletList (text : jsstring) : jsstring :=
  let trimmed := trim text in
  let content := regexStrip reBulletPrefix trimmed in
  lit "- " ++ content.

Definition removeBulletList (text : jsstring) : jsstring :=
  let trimmed := trim text in
  regexStrip reBulletPrefix trimmed.

Definition toggleBulletList (text : jsstring) : jsstring :=
  if isBulletList text then removeBulletList text else applyBulletList text.

(** ** Composite operations *)

Definition detectFormatState (text : jsstring) : FormatState :=
  {| fs_bold := isBold text;
     fs_italic := isItalic text;
     fs_underline := isUnderline text;
     fs_strikethrough := isStrikethrough text;
     fs_h1 := isH1 text;
     fs_h2 := isH2 text;
     fs_h3 := isH3 text;
     fs_bullet := isBulletList text |}.

Definition toggleFormat (text : jsstring) (formatType : FormatType) : jsstring :=
  match formatType with
  | bold => toggleBold text
  | italic => toggleItalic text
  | underline => toggleUnderline text
  | strikethrough => toggleStrikethrough text
  | h1 => toggleH1 text
  | h2 => toggleH2 text
  | h3 => toggleH3 text
  | bullet => toggleBulletList text
  end.

Definition isFormatApplied (text : jsstring) (formatType : FormatType) : bool :=
  let state := detectFormatState text in
  match formatType with
  | bold => fs_bold state
  | italic => fs_italic state
  | underline => fs_underline state
  | strikethrough => fs_strikethrough state
  | h1 => fs_h1 state
  | h2 => fs_h2 state
  | h3 => fs_h3 state
  | bullet => fs_bullet state
  end.

(* ================================================================== *)
(** * The editor collaborator

    The CodeMirror objects the source reads: a document is its text, with
    lines separated by the line feed; a [Line] carries its offsets, its
    1-based number and its text.  [lineAt] and [line] throw a [RangeError]
    outside the document, which the embedding keeps as a [Throw]
    completion. *)
(* ================================================================== *)

Inductive JsError : Type := RangeError.

Inductive Completion (A : Type) : Type :=
| Normal (a : A)
| Throw (e : JsError).
Arguments Normal {A} a.
Arguments Throw {A} e.

Definition bind {A B : Type} (c : Completion A) (k : A -> Completion B)
  : Completion B :=
  match c with
  | Normal a => k a
  | Throw e => Throw e
  end.

Notation "x <- c ;; k" := (bind c (fun x => k))
  (at level 61, c at next level, right associativity).

Record Line : Type := mkLine {
  line_from : nat;
  line_to : nat;
  line_number : nat;
  line_text : jsstring
}.

Definition Text := jsstring.

Definition is_newline (c : char) : bool := (c =? 10)%N.

Fixpoint splitLines (s : jsstring) : list jsstring :=
  match s with
  | [] => [[]]
  | c :: r =>
      if is_newline c then [] :: splitLines r
      else match splitLines r with
           | l :: ls => (c :: l) :: ls
           | [] => [[c]]
           end
  end.

Fixpoint linesFrom (start number : nat) (ls : list jsstring) : list Line :=
  match ls with
  | [] => []
  | t :: r =>
      mkLine start (start + length t) number t
        :: linesFrom (start + length t + 1) (S number) r
  end.

Definition docLines (doc : Text) : list Line :=
  linesFrom 0 1 (splitLines doc).

(** [doc.lineAt(pos)]: the line around [pos]. *)
Definition lineAt (doc : Text) (pos : nat) : Completion Line :=
  if length doc <? pos then Throw RangeError
  else match find (fun l => pos <=? line_to l) (docLines doc) with
       | Some l => Normal l
       | None => Throw RangeError
       end.

(** [doc.line(n)]: the line with number [n]. *)
Definition line (doc : Text) (n : nat) : Completion Line :=
  match n with
  | O => Throw RangeError
  | S k =>
      match nth_error (docLines doc) k with
      | Some l => Normal l
      | None => Throw RangeError
      end
  end.

Record SelectionRange : Type := mkSelection {
  sel_anchor : nat;
  sel_head : nat
}.

Definition sel_from (r : SelectionRange) : nat := Nat.min (sel_anchor r) (sel_head r).
Definition sel_to (r : SelectionRange) : nat := Nat.max (sel_anchor r) (sel_head r).

Record EditorState : Type := mkEditorState {
  doc : Text;
  selection_main : SelectionRange
}.

(** [state.sliceDoc(from, to)] *)
Definition sliceDoc (state : EditorState) (from to : nat) : jsstring :=
  firstn (to - from) (skipn from (doc state)).

(* ================================================================== *)
(** * lib/advanced-formatting *)
(* ================================================================== *)

(** The [for] loop of [getSelectedLines]; it runs
    [endNumber + 1 - lineNum] times. *)
Fixpoint selectedLinesLoop (fuel : nat) (state : EditorState)
    (lineNum endNumber : nat) (lines : list Line) : Completion (list Line) :=
  match fuel with
  | O => Normal lines
  | S fuel' =>
      if lineNum <=? endNumber then
        l <- line (doc state) lineNum ;;
        selectedLinesLoop fuel' state (S lineNum) endNumber (lines ++ [l])
      else Normal lines
  end.

Definition getSelectedLines (state : EditorState) (from to : nat)
  : Completion (list Line) :=
  startLine <- lineAt (doc state) from ;;
  endLine <- lineAt (doc state) to ;;
  selectedLinesLoop (S (line_number endLine) - line_number startLine) state
    (line_number startLine) (line_number endLine) [].

Definition hasInlineFormatInSelection (state : EditorState) (lines : list Line)
    (formatChecker : jsstring -> bool) : bool :=
  existsb (fun l =>
             let lineContent := sliceDoc state (line_from l) (line_to l) in
             formatChecker lineContent) lines.

Definition allLinesHaveHeaderLevel (state : EditorState) (lines : list Line)
    (headerChecker : jsstring -> bool) : bool :=
  if length lines =? 0 then false
  else forallb (fun l =>
                  let lineContent := sliceDoc state (line_from l) (line_to l) in
                  headerChecker lineContent) lines.

Definition detectAdvancedFormatState (state : EditorState) (from to : nat)
  : Completion FormatState :=
  selectedLines <- getSelectedLines state from to ;;
  if length selectedLines =? 0 then
    Normal (mkFormatState false false false false false false false false)
  else
    let isSingleLine := length selectedLines =? 1 in
    Normal
      {| fs_bold := hasInlineFormatInSelection state selectedLines isBold;
         fs_italic := hasInlineFormatInSelection state selectedLines isItalic;
         fs_underline :=
           hasInlineFormatInSelection state selectedLines isUnderline;
         fs_strikethrough :=
           hasInlineFormatInSelection state selectedLines isStrikethrough;
         fs_h1 := isSingleLine
                  && allLinesHaveHeaderLevel state selectedLines isH1;
         fs_h2 := isSingleLine
                  && allLinesHaveHeaderLevel state selectedLines isH2;
         fs_h3 := isSingleLine
                  && allLinesHaveHeaderLevel state selectedLines isH3;
         fs_bullet :=
           (0 <? length selectedLines)
           && forallb (fun l =>
                         let lineContent :=
                           sliceDoc state (line_from l) (line_to l) in
                         isBulletList lineContent) selectedLines |}.

Definition getLineContent (state : EditorState) (l : Line) : jsstring :=
  sliceDoc state (line_from l) (line_to l).

(* ================================================================== *)
(** * hooks/use-text-formatting: [applyFormatting]

    The callback returns nothing; what it does is the sequence of calls it
    makes on the console and on the view, kept here as a list of
    [Effect]s. *)
(* ================================================================== *)

Record ChangeSpec : Type := mkChange {
  change_from : nat;
  change_to : nat;
  change_insert : jsstring
}.

Record TransactionSpec : Type := mkTransaction {
  tr_changes : list ChangeSpec;
  tr_selection : option SelectionRange
}.

Inductive Effect : Type :=
| ConsoleWarn (msg : jsstring)
| Dispatch (tr : TransactionSpec)
| Focus.

Record EditorView : Type := mkEditorView {
  state : EditorState
}.

Definition isHeaderType (formatType : FormatType) : bool :=
  match formatType with
  | h1 | h2 | h3 => true
  | _ => false
  end.

Definition isBulletType (formatType : FormatType) : bool :=
  match formatType with
  | bullet => true
  | _ => false
  end.

Definition bulletChanges (st : EditorState) (selectedLines : list Line)
  : list ChangeSpec :=
  map (fun l =>
         let lineContent := getLineContent st l in
         let formattedLine := toggleBulletList lineContent in
         mkChange (line_from l) (line_to l) formattedLine) selectedLines.

Definition applyFormatting (view : option EditorView) (formatType : FormatType)
  : Completion (list Effect) :=
  match view with
  | None => Normal []
  | Some view =>
      let selection := selection_main (state view) in
      if sel_from selection =? sel_to selection then
        l <- lineAt (doc (state view)) (sel_from selection) ;;
        let lineContent := sliceDoc (state view) (line_from l) (line_to l) in
        if negb (isHeaderType formatType) && negb (isBulletType formatType)
        then
          Normal
            [ConsoleWarn (lit "Inline formatting not allowed without selection")]
        else
          let formattedLine :=
            match formatType with
            | h1 => toggleH1 lineContent
            | h2 => toggleH2 lineContent
            | h3 => toggleH3 lineContent
            | bullet => toggleBulletList lineContent
            | _ => lineContent
            end in
          Normal
            [Dispatch
               (mkTransaction
                  [mkChange (line_from l) (line_to l) formattedLine] None);
             Focus]
      else
        selectedLines <-
          getSelectedLines (state view) (sel_from selection) (sel_to selection) ;;
        let isSingleLine := length selectedLines =? 1 in
        if isHeaderType formatType && negb isSingleLine then
          Normal
            [ConsoleWarn
               (lit "Header formatting not allowed on multi-line selections")]
        else if isBulletType formatType && negb isSingleLine then
          Normal
            [Dispatch
               (mkTransaction (bulletChanges (state view) selectedLines) None);
             Focus]
        else
          let selectedText :=
            sliceDoc (state view) (sel_from selection) (sel_to selection) in
          let formattedText := toggleFormat selectedText formatType in
          Normal
            [Dispatch
               (mkTransaction
                  [mkChange (sel_from selection) (sel_to selection)
                     formattedText]
                  (Some (mkSelection (sel_from selection)
                           (sel_from selection + length formattedText))));
             Focus]
  end.

(** The document after the view has performed the effects.  The changes of
    one transaction all refer to the document before it; the source lists
    them in ascending order and apart from each other, so replacing from the
    last one to the first keeps every offset valid. *)
Definition replaceRange (d : Text) (c : ChangeSpec) : Text :=
  firstn (change_from c) d ++ change_insert c ++ skipn (change_to c) d.

Definition applyChanges (d : Text) (changes : list ChangeSpec) : Text :=
  fold_right (fun c acc => replaceRange acc c) d changes.

Definition performEffect (d : Text) (e : Effect) : Text :=
  match e with
  | Dispatch tr => applyChanges d (tr_changes tr)
  | ConsoleWarn _ => d
  | Focus => d
  end.

Definition docAfter (d : Text) (effects : list Effect) : Text :=
  fold_left performEffect effects d.

Definition issuesNoEdit (effects : list Effect) : bool :=
  forallb (fun e => match e with Dispatch _ => false | _ => true end) effects.

(* ================================================================== *)
(** * lib/advanced-formatting: selection context and header levels *)
(* ================================================================== *)

Record SelectionContext : Type := mkSelectionContext {
  ctx_lines : list Line;
  ctx_startLineFrom : nat;
  ctx_endLineTo : nat;
  ctx_selectedText : jsstring
}.

Definition getSelectionContext (st : EditorState) (from to : nat)
  : Completion SelectionContext :=
  selectedLines <- getSelectedLines st from to ;;
  match selectedLines with
  | [] => Normal (mkSelectionContext [] from to [])
  | first :: _ =>
      let startLineFrom := line_from first in
      let endLineTo := line_to (last selectedLines first) in
      let selectedText := sliceDoc st from to in
      Normal
        (mkSelectionContext selectedLines startLineFrom endLineTo selectedText)
  end.

Definition isMultiLineSelection (st : EditorState) (from to : nat)
  : Completion bool :=
  startLine <- lineAt (doc st) from ;;
  endLine <- lineAt (doc st) to ;;
  Normal (negb (line_number startLine =? line_number endLine)).

(** [lib/advanced-formatting] has a [getHeaderLevel] of its own, on a line
    of the editor state, with its own copy of the counting loop. *)
Module AdvancedFormatting.

Fixpoint headerLevelLoop (fuel : nat) (trimmed : jsstring) (level : nat) : nat :=
  match fuel with
  | O => level
  | S fuel' =>
      if (level <? length trimmed) && charAtIs trimmed level (ch "#")
      then headerLevelLoop fuel' trimmed (S level)
      else level
  end.

Definition getHeaderLevel (st : EditorState) (l : Line) : nat :=
  let content := getLineContent st l in
  let trimmed := trim content in
  let level := headerLevelLoop (length trimmed) trimmed 0 in
  if (0 <? level) && (level <=? 3) && charAtIs trimmed level (ch " ")
  then level
  else 0.

Definition allLinesHaveSameHeaderLevel (st : EditorState) (lines : list Line)
  : bool :=
  match lines with
  | [] => false
  | first :: _ =>
      let firstLevel := getHeaderLevel st first in
      if firstLevel =? 0
      then forallb (fun l => getHeaderLevel st l =? 0) lines
      else forallb (fun l => getHeaderLevel st l =? firstLevel) lines
  end.

Definition getCommonHeaderLevel (st : EditorState) (lines : list Line) : nat :=
  match lines with
  | [] => 0
  | first :: _ =>
      let firstLevel := getHeaderLevel st first in
      if allLinesHaveSameHeaderLevel st lines then firstLevel else 0
  end.

End AdvancedFormatting.

(* ================================================================== *)
(** * hooks/use-text-formatting: the state the hook reports *)
(* ================================================================== *)

Record FormattingInfo : Type := mkFormattingInfo {
  info_formatState : FormatState;
  info_selectedText : jsstring;
  info_hasSelection : bool
}.

(** The function [useTextFormatting] hands to [useMemo]: the format
    state, the selected text and whether there is a selection, read from
    the state the view has when React calls the function. *)
Definition formattingInfoFactory (view : option EditorView)
  : Completion FormattingInfo :=
  match view with
  | None =>
      Normal
        (mkFormattingInfo
           (mkFormatState false false false false false false false false)
           [] false)
  | Some view =>
      let selection := selection_main (state view) in
      let hasSelection := negb (sel_from selection =? sel_to selection) in
      if negb hasSelection then
        l <- lineAt (doc (state view)) (sel_from selection) ;;
        formatState <-
          detectAdvancedFormatState (state view) (line_from l) (line_to l) ;;
        (* formatState.bold = false; ... .strikethrough = false *)
        let formatState :=
          mkFormatState false false false false
            (fs_h1 formatState) (fs_h2 formatState) (fs_h3 formatState)
            (fs_bullet formatState) in
        Normal (mkFormattingInfo formatState [] false)
      else
        let selectedText :=
          sliceDoc (state view) (sel_from selection) (sel_to selection) in
        formatState <-
          detectAdvancedFormatState (state view)
            (sel_from selection) (sel_to selection) ;;
        Normal (mkFormattingInfo formatState selectedText true)
  end.

(** The [EditorView] the component passes to the hook is one object for
    the life of the editor, and every transaction replaces the state inside
    it.  [view_id] is the identity of the object, [view_now] what it holds
    at the time of a render or of a call. *)
Record ViewObject : Type := mkViewObject {
  view_id : nat;
  view_now : EditorView
}.

(** What React keeps for [useMemo(factory, [view])] from one render to the
    next: the dependency of the last computation, the view object or
    [null], and its value. *)
Record MemoCell : Type := mkMemoCell {
  memo_dep : option nat;
  memo_value : FormattingInfo
}.

(** [Object.is] on the dependency. *)
Definition sameDep (a b : option nat) : bool :=
  match a, b with
  | Some x, Some y => x =? y
  | None, None => true
  | _, _ => false
  end.

Definition memoHit (cell : option MemoCell) (dep : option nat) : bool :=
  match cell with
  | Some c => sameDep (memo_dep c) dep
  | None => false
  end.

(** One render of [useTextFormatting]: [cell] is what the previous render
    left, [None] at the first one.  The factory runs at the first render
    and when the view is another object than at the last computation;
    otherwise the value kept is returned, whatever the state of the view
    has become.  The result is what the hook reports, with the cell for the
    next render.  The [toggleFormat] it returns besides is
    [applyFormatting], which reads the state of the view when it is
    called. *)
Definition useTextFormatting (cell : option MemoCell) (view : option ViewObject)
  : Completion (FormattingInfo * MemoCell) :=
  let dep := option_map view_id view in
  let compute :=
    info <- formattingInfoFactory (option_map view_now view) ;;
    Normal (info, mkMemoCell dep info) in
  match cell with
  | Some c =>
      if sameDep (memo_dep c) dep then Normal (memo_value c, c) else compute
  | None => compute
  end.

(* ================================================================== *)
(** * The callers: when the toolbar disables a button

    The effect of [useCursorStability] computes, for the selection the view
    has when the effect runs, whether there is one and how many lines it
    spans, and stores both in React state; [cursorSelection] is that
    computation.  [CodeMirrorEditor] derives [isSingleLineSelection] from
    the stored line count and from the [hasSelection] the hook
    [useTextFormatting] reports; [TextFormattingIsland] disables a button
    by its group.  [isSingleLineSelection] and [isDisabled] take the values
    the component has at a render as arguments, whichever state of the view
    they were computed from. *)
(* ================================================================== *)

Record CursorSelection : Type := mkCursorSelection {
  cs_hasSelection : bool;
  cs_selectionLineCount : Z
}.

Definition cursorSelection (view : EditorView) : Completion CursorSelection :=
  let selection := selection_main (state view) in
  let currentHasSelection :=
    negb (sel_from selection =? sel_to selection) in
  if currentHasSelection then
    startLine <- lineAt (doc (state view)) (sel_from selection) ;;
    endLine <- lineAt (doc (state view)) (sel_to selection) ;;
    let lineCount :=
      (Z.of_nat (line_number endLine) - Z.of_nat (line_number startLine) + 1)%Z
    in
    Normal (mkCursorSelection currentHasSelection lineCount)
  else Normal (mkCursorSelection currentHasSelection 1%Z).

Definition isSingleLineSelection (hasSelection : bool)
    (selectionLineCount : Z) : bool :=
  negb hasSelection || (selectionLineCount =? 1)%Z.

Inductive ButtonGroup : Type := GroupInline | GroupBlock.

(** The [group] column of [FORMATTING_BUTTONS]. *)
Definition buttonGroup (type : FormatType) : ButtonGroup :=
  match type with
  | bold | italic | underline | strikethrough => GroupInline
  | h1 | h2 | h3 | bullet => GroupBlock
  end.

Definition isDisabled (type : FormatType)
    (hasSelection isSingleLine : bool) : bool :=
  match buttonGroup type with
  | GroupInline => negb hasSelection
  | GroupBlock =>
      let isHeaderButton := isHeaderType type in
      isHeaderButton && negb isSingleLine
  end.

(* ================================================================== *)
(** * Reference definitions for the statements *)
(* ================================================================== *)

(** Whether the first character of [s] belongs to the class [f]. *)
Definition startsIn (f : char -> bool) (s : jsstring) : bool :=
  match s with
  | c :: _ => f c
  | [] => false
  end.

(** Whether the last character of [s] belongs to the class [f]. *)
Definition endsIn (f : char -> bool) (s : jsstring) : bool :=
  startsIn f (rev s).

(** What the specification says of the header prefix: a leading run of
    ['#'] followed by a run of whitespace is dropped, and a text without
    such a prefix is left alone. *)
Definition specStripHeaderPrefix (t : jsstring) : jsstring :=
  let afterHashes := dropWhile is_hash t in
  if startsIn is_hash t && startsIn is_ws afterHashes
  then dropWhile is_ws afterHashes
  else t.

(** The same for the bullet marker: one of ['-'] and ['*'] followed by a
    run of whitespace. *)
Definition specStripBulletPrefix (t : jsstring) : jsstring :=
  match t with
  | c :: r =>
      if is_bullet_mark c && startsIn is_ws r then dropWhile is_ws r else t
  | [] => t
  end.

(** [lines.join("\n")] *)
Fixpoint joinLines (ls : list jsstring) : jsstring :=
  match ls with
  | [] => []
  | t :: r =>
      match r with
      | [] => t
      | _ :: _ => t ++ 10%N :: joinLines r
      end
  end.

(** The list [l] with its element at place [i] replaced by [x]. *)
Fixpoint replaceNth {A : Type} (i : nat) (x : A) (l : list A) : list A :=
  match l, i with
  | [], _ => []
  | _ :: r, O => x :: r
  | y :: r, S i' => y :: replaceNth i' x r
  end.

(** The number of characters [ls] takes as lines of a document, each with
    the line break after it. *)
Fixpoint linesSpan (ls : list jsstring) : nat :=
  match ls with
  | [] => 0
  | t :: r => length t + 1 + linesSpan r
  end.

(** The change [applyFormatting] makes for a line it rewrites as a whole. *)
Definition lineChange (g : jsstring -> jsstring) (l : Line) : ChangeSpec :=
  mkChange (line_from l) (line_to l) (g (line_text l)).

(** A text without a line break. *)
Definition noNewline (t : jsstring) : bool :=
  forallb (fun c => negb (is_newline c)) t.

(** The number of style flags a [FormatState] has set. *)
Definition activeStyles (fs : FormatState) : nat :=
  Nat.b2n (fs_bold fs) + Nat.b2n (fs_italic fs) + Nat.b2n (fs_underline fs)
  + Nat.b2n (fs_strikethrough fs) + Nat.b2n (fs_h1 fs) + Nat.b2n (fs_h2 fs)
  + Nat.b2n (fs_h3 fs) + Nat.b2n (fs_bullet fs).

(** What the specification calls the touched lines: every line that
    overlaps the selection [[from, to)], the positions from [from] up to
    and without [to]; a caret touches the line it sits in.  A line is taken
    with the line break that ends it, the position [line_to], which is the
    widest extent it can be given. *)
Definition specTouches (from to : nat) (l : Line) : bool :=
  if from =? to
  then (line_from l <=? from) && (from <=? line_to l)
  else (line_from l <? to) && (from <=? line_to l).

Definition specTouchedLines (st : EditorState) (from to : nat) : list Line :=
  filter (specTouches from to) (docLines (doc st)).

Definition nl : string := String (ascii_of_nat 10) EmptyString.

Definition stateOf (d : string) (anchor head : nat) : EditorState :=
  mkEditorState (lit d) (mkSelection anchor head).

Definition viewOf (d : string) (anchor head : nat) : option EditorView :=
  Some (mkEditorView (stateOf d anchor head)).


(* ================================================================== *)
(** * Sanity checks on the documented examples *)
(* ================================================================== *)

Example removeBold_doc_example :
  removeBold (lit "<b><b>text</b></b>") = lit "text".
Proof. reflexivity. Qed.

Example isItalic_bold_tiebreak : isItalic (lit "<b>x</b>") = false.
Proof. reflexivity. Qed.

Example toggleH1_scenarioA :
  toggleH1 (lit "Hello world") = lit "# Hello world"
  /\ toggleH1 (lit "# Hello world") = lit "Hello world".
Proof. split; reflexivity. Qed.

Example scenarioB_bold_selection :
  applyFormatting (viewOf "Hello world" 6 11) bold
  = Normal [Dispatch (mkTransaction [mkChange 6 11 (lit "<b>world</b>")]
                        (Some (mkSelection 6 18)));
            Focus]
  /\ docAfter (lit "Hello world")
       [Dispatch (mkTransaction [mkChange 6 11 (lit "<b>world</b>")]
                    (Some (mkSelection 6 18)));
        Focus]
     = lit "Hello <b>world</b>".
Proof. split; reflexivity. Qed.

Example scenarioC_bullets :
  exists effects,
    applyFormatting (viewOf ("item one" ++ nl ++ "item two") 2 12) bullet
    = Normal effects
    /\ docAfter (lit ("item one" ++ nl ++ "item two")) effects
       = lit ("- item one" ++ nl ++ "- item two")
    /\ exists effects',
        applyFormatting
          (viewOf ("- item one" ++ nl ++ "- item two") 0 21) bullet
        = Normal effects'
        /\ docAfter (lit ("- item one" ++ nl ++ "- item two")) effects'
           = lit ("item one" ++ nl ++ "item two").
Proof.
  eexists; split; [reflexivity|]; split; [reflexivity|].
  eexists; split; reflexivity.
Qed.

(* ================================================================== *)
(** * Strings: equality, prefixes, suffixes and slices *)
(* ================================================================== *)

Lemma jsstring_eqb_eq (a b : jsstring) : jsstring_eqb a b = true <-> a = b.
Proof.
  revert b; induction a as [|x a IH]; intros [|y b]; simpl;
    try (split; [discriminate | discriminate]); try tauto.
  unfold char_eqb. rewrite andb_true_iff, N.eqb_eq, IH.
  split; [intros [-> ->]; reflexivity | intros [= -> ->]; auto].
Qed.

Lemma jsstring_eqb_refl (a : jsstring) : jsstring_eqb a a = true.
Proof. apply jsstring_eqb_eq; reflexivity. Qed.

Lemma startsWith_iff (s p : jsstring) :
  startsWith s p = true <-> exists r, s = p ++ r.
Proof.
  unfold startsWith. rewrite jsstring_eqb_eq. split.
  - intros H. exists (skipn (length p) s).
    rewrite <- (firstn_skipn (length p) s) at 1.
    rewrite H. reflexivity.
  - intros [r ->]. rewrite firstn_app, Nat.sub_diag, firstn_all. simpl.
    apply app_nil_r.
Qed.

Lemma endsWith_iff (s p : jsstring) :
  endsWith s p = true <-> exists r, s = r ++ p.
Proof.
  unfold endsWith. rewrite andb_true_iff, Nat.leb_le, jsstring_eqb_eq. split.
  - intros [_ H]. exists (firstn (length s - length p) s).
    rewrite <- (firstn_skipn (length s - length p) s) at 1.
    rewrite H. reflexivity.
  - intros [r ->]. rewrite length_app. split; [lia|].
    replace (length r + length p - length p) with (length r + 0) by lia.
    rewrite skipn_app, Nat.add_0_r, skipn_all, Nat.sub_diag. reflexivity.
Qed.

Lemma startsWith_app (p r : jsstring) : startsWith (p ++ r) p = true.
Proof. apply startsWith_iff; eauto. Qed.

Lemma endsWith_app (r p : jsstring) : endsWith (r ++ p) p = true.
Proof. apply endsWith_iff; eauto. Qed.

(** A string that starts with [p], ends with [q] and is long enough for
    both is [p], a middle part and [q]. *)
Lemma wrapped_decompose (t p q : jsstring) :
  startsWith t p = true -> endsWith t q = true ->
  length p + length q <= length t ->
  exists mid, t = p ++ mid ++ q.
Proof.
  intros Hp Hq Hlen.
  unfold startsWith in Hp. apply jsstring_eqb_eq in Hp.
  unfold endsWith in Hq. apply andb_true_iff in Hq as [_ Hq].
  apply jsstring_eqb_eq in Hq.
  set (k := length t - length q - length p).
  assert (E3 : skipn k (skipn (length p) t) = q).
  { rewrite skipn_skipn. replace (k + length p) with (length t - length q)
      by (unfold k; lia). exact Hq. }
  exists (firstn k (skipn (length p) t)).
  etransitivity; [symmetry; apply (firstn_skipn (length p))|].
  rewrite Hp. f_equal.
  etransitivity; [symmetry; apply (firstn_skipn k)|].
  rewrite E3. reflexivity.
Qed.

Lemma slice_wrapped (p mid q : jsstring) :
  0 < length q ->
  slice (p ++ mid ++ q) (Z.of_nat (length p)) (- Z.of_nat (length q)) = mid.
Proof.
  intros Hq. unfold slice. rewrite !length_app.
  destruct (Z.ltb_spec (Z.of_nat (length p)) 0) as [H|_]; [lia|].
  destruct (Z.ltb_spec (- Z.of_nat (length q)) 0) as [_|H]; [|lia].
  rewrite Z.min_l by lia. rewrite Z.max_l by lia.
  rewrite Nat2Z.id.
  replace (Z.to_nat _) with (length mid) by lia.
  rewrite skipn_app, skipn_all, Nat.sub_diag. simpl.
  rewrite firstn_app, Nat.sub_diag, firstn_all. simpl. apply app_nil_r.
Qed.

Lemma slice_length_le (t : jsstring) (b e : Z) : length (slice t b e) <= length t.
Proof.
  unfold slice. rewrite length_firstn, length_skipn. lia.
Qed.

(* ================================================================== *)
(** * [trim] *)
(* ================================================================== *)

Lemma takeWhile_dropWhile (f : char -> bool) (s : jsstring) :
  s = takeWhile f s ++ dropWhile f s.
Proof.
  induction s as [|c r IH]; simpl; [reflexivity|].
  destruct (f c); simpl; [f_equal; exact IH | reflexivity].
Qed.

Lemma takeWhile_all (f : char -> bool) (s : jsstring) :
  forallb f (takeWhile f s) = true.
Proof.
  induction s as [|c r IH]; simpl; [reflexivity|].
  destruct (f c) eqn:E; simpl; [rewrite E; exact IH | reflexivity].
Qed.

Lemma dropWhile_startsIn (f : char -> bool) (s : jsstring) :
  startsIn f (dropWhile f s) = false.
Proof.
  induction s as [|c r IH]; simpl; [reflexivity|].
  destruct (f c) eqn:E; simpl; [exact IH | exact E].
Qed.

Lemma dropWhile_fixed (f : char -> bool) (s : jsstring) :
  startsIn f s = false -> dropWhile f s = s.
Proof. destruct s as [|c r]; simpl; [reflexivity | intros ->; reflexivity]. Qed.

Lemma dropWhile_app_all (f : char -> bool) (a b : jsstring) :
  forallb f a = true -> dropWhile f (a ++ b) = dropWhile f b.
Proof.
  induction a as [|c a IH]; simpl; [reflexivity|].
  rewrite andb_true_iff. intros [-> H]. auto.
Qed.

Lemma dropWhile_length (f : char -> bool) (s : jsstring) :
  length (dropWhile f s) <= length s.
Proof.
  induction s as [|c r IH]; simpl; [lia|]. destruct (f c); simpl; lia.
Qed.

Lemma dropWhile_length_eq (f : char -> bool) (s : jsstring) :
  length (dropWhile f s) = length s -> dropWhile f s = s.
Proof.
  destruct s as [|c r]; simpl; [reflexivity|].
  destruct (f c); [|reflexivity].
  intros H. pose proof (dropWhile_length f r). lia.
Qed.

(** Dropping from the front leaves the last character in place. *)
Lemma dropWhile_keeps_end (f g : char -> bool) (s : jsstring) :
  endsIn g s = false -> endsIn g (dropWhile f s) = false.
Proof.
  unfold endsIn. induction s as [|c r IH]; simpl; [auto|].
  destruct (f c); [|auto].
  intros H. apply IH.
  destruct (rev r) as [|x y] eqn:E; [reflexivity|]. simpl in H. exact H.
Qed.

Lemma startsIn_rev_dropWhile_rev (f g : char -> bool) (s : jsstring) :
  startsIn g s = false -> startsIn g (rev (dropWhile f (rev s))) = false.
Proof.
  intros H.
  pose proof (dropWhile_keeps_end f g (rev s)) as K. unfold endsIn in K.
  rewrite rev_involutive in K. auto.
Qed.

Lemma trim_startsIn (s : jsstring) : startsIn is_ws (trim s) = false.
Proof.
  unfold trim, trimEnd, trimStart.
  apply startsIn_rev_dropWhile_rev, dropWhile_startsIn.
Qed.

Lemma trim_endsIn (s : jsstring) : endsIn is_ws (trim s) = false.
Proof.
  unfold endsIn, trim, trimEnd. rewrite rev_involutive.
  apply dropWhile_startsIn.
Qed.

Lemma trim_fixed (s : jsstring) :
  startsIn is_ws s = false -> endsIn is_ws s = false -> trim s = s.
Proof.
  intros Hs He. unfold trim, trimStart, trimEnd.
  rewrite (dropWhile_fixed _ s Hs).
  rewrite (dropWhile_fixed _ (rev s) He). apply rev_involutive.
Qed.

Lemma trim_fixed_iff (s : jsstring) :
  trim s = s <-> startsIn is_ws s = false /\ endsIn is_ws s = false.
Proof.
  split.
  - intros H. rewrite <- H. split; [apply trim_startsIn | apply trim_endsIn].
  - intros [Hs He]. apply trim_fixed; assumption.
Qed.

Lemma trim_idem (s : jsstring) : trim (trim s) = trim s.
Proof. apply trim_fixed; [apply trim_startsIn | apply trim_endsIn]. Qed.

Lemma trim_length (s : jsstring) : length (trim s) <= length s.
Proof.
  unfold trim, trimEnd, trimStart. rewrite length_rev.
  pose proof (dropWhile_length is_ws (rev (dropWhile is_ws s))) as H.
  rewrite length_rev in H. pose proof (dropWhile_length is_ws s). lia.
Qed.

Lemma trim_length_eq (s : jsstring) : length (trim s) = length s -> trim s = s.
Proof.
  intros H. unfold trim, trimEnd, trimStart in *. rewrite length_rev in H.
  pose proof (dropWhile_length is_ws (rev (dropWhile is_ws s))) as H1.
  rewrite length_rev in H1. pose proof (dropWhile_length is_ws s) as H2.
  assert (E : dropWhile is_ws s = s) by (apply dropWhile_length_eq; lia).
  rewrite E in *.
  rewrite dropWhile_length_eq by (rewrite length_rev; lia).
  apply rev_involutive.
Qed.

Lemma endsIn_app (f : char -> bool) (a b : jsstring) :
  b <> [] -> endsIn f (a ++ b) = endsIn f b.
Proof.
  unfold endsIn. intros Hb. rewrite rev_app_distr.
  destruct (rev b) as [|x y] eqn:E; [|reflexivity].
  apply (f_equal (@rev char)) in E. rewrite rev_involutive in E. contradiction.
Qed.

Lemma endsIn_all (f : char -> bool) (a : jsstring) :
  a <> [] -> forallb f a = true -> endsIn f a = true.
Proof.
  unfold endsIn. intros Ha Hall.
  destruct (rev a) as [|x y] eqn:E.
  - apply (f_equal (@rev char)) in E. rewrite rev_involutive in E. contradiction.
  - simpl. rewrite forallb_forall in Hall. apply Hall.
    apply in_rev. rewrite E. left; reflexivity.
Qed.

(* ================================================================== *)
(** * Wrapping markers: the shape shared by the four inline styles *)
(* ================================================================== *)

Section Wrapping.
Variables p q : jsstring.
Hypothesis p_nonempty : p <> [].
Hypothesis q_nonempty : q <> [].

Lemma wrapped_iff (t : jsstring) :
  startsWith t p && endsWith t q && (length p + length q <? length t) = true
  <-> exists mid, mid <> [] /\ t = p ++ mid ++ q.
Proof.
  rewrite !andb_true_iff, Nat.ltb_lt. split.
  - intros [[Hp Hq] Hlen].
    destruct (wrapped_decompose t p q Hp Hq) as [mid ->]; [lia|].
    exists mid. split; [|reflexivity].
    intros ->. rewrite !length_app in Hlen. simpl in Hlen. lia.
  - intros [mid [Hmid ->]]. repeat split.
    + apply startsWith_app.
    + rewrite app_assoc. apply endsWith_app.
    + rewrite !length_app. destruct mid; [contradiction|simpl; lia].
Qed.

Lemma slice_unwrap (mid : jsstring) :
  slice (p ++ mid ++ q) (Z.of_nat (length p)) (- Z.of_nat (length q)) = mid.
Proof.
  apply slice_wrapped. destruct q; [contradiction|simpl; lia].
Qed.

Hypothesis p_starts : startsIn is_ws p = false.
Hypothesis q_ends : endsIn is_ws q = false.

Lemma trim_wrap (s : jsstring) : trim (p ++ s ++ q) = p ++ s ++ q.
Proof.
  apply trim_fixed.
  - destruct p; [contradiction|exact p_starts].
  - rewrite app_assoc, endsIn_app by exact q_nonempty. exact q_ends.
Qed.

(** Wrapping a non-empty text gives a text the wrapped test accepts, and
    unwrapping it gives the text back. *)
Lemma wrap_accepted (s : jsstring) :
  s <> [] ->
  let t := trim (p ++ s ++ q) in
  startsWith t p && endsWith t q && (length p + length q <? length t) = true
  /\ slice t (Z.of_nat (length p)) (- Z.of_nat (length q)) = s.
Proof.
  intros Hs t. unfold t. rewrite trim_wrap. split.
  - apply wrapped_iff. exists s. auto.
  - apply slice_unwrap.
Qed.
End Wrapping.

Ltac marker_side :=
  solve [ discriminate | reflexivity ].

(** ** Bold *)

Lemma boldWrapped_iff (t : jsstring) :
  boldWrapped t = true <-> exists mid, mid <> [] /\ t = applyBold mid.
Proof.
  unfold boldWrapped, applyBold.
  apply (@wrapped_iff (lit "<b>") (lit "</b>")); marker_side.
Qed.

Lemma slice_applyBold (mid : jsstring) : slice (applyBold mid) 3 (-4) = mid.
Proof.
  apply (@slice_unwrap (lit "<b>") (lit "</b>")); marker_side.
Qed.

Lemma trim_applyBold (s : jsstring) : trim (applyBold s) = applyBold s.
Proof.
  apply (@trim_wrap (lit "<b>") (lit "</b>")); marker_side.
Qed.

Lemma removeBoldLoop_fixed (n : nat) (t : jsstring) :
  boldWrapped t = false -> removeBoldLoop n t = t.
Proof. destruct n; simpl; [reflexivity | intros ->; reflexivity]. Qed.

(** The fuel given by [removeBold] is enough: the loop stops because its
    condition fails. *)
Lemma removeBoldLoop_exit (n : nat) (t : jsstring) :
  length t <= n -> boldWrapped (removeBoldLoop n t) = false.
Proof.
  revert t; induction n as [|n IH]; intros t Hlen; simpl.
  - destruct t; [reflexivity | simpl in Hlen; lia].
  - destruct (boldWrapped t) eqn:E; [|exact E].
    apply IH. apply boldWrapped_iff in E as [mid [Hmid ->]].
    rewrite slice_applyBold. unfold applyBold in Hlen.
    rewrite !length_app in Hlen. simpl in Hlen. lia.
Qed.

(** What the loop takes off are layers around a non-empty content: every
    iteration passed the test, length included. *)
Lemma removeBoldLoop_layers (n : nat) (t : jsstring) :
  exists k, t = Nat.iter k applyBold (removeBoldLoop n t)
            /\ (0 < k -> removeBoldLoop n t <> []).
Proof.
  revert t; induction n as [|n IH]; intros t; simpl.
  - exists 0; split; [reflexivity | lia].
  - destruct (boldWrapped t) eqn:E; [|exists 0; split; [reflexivity | lia]].
    apply boldWrapped_iff in E as [mid [Hmid ->]].
    rewrite slice_applyBold. destruct (IH mid) as [k [Hk Hne]].
    exists (S k). split; [simpl; rewrite <- Hk; reflexivity|].
    intros _. destruct k as [|k]; [|apply Hne; lia].
    simpl in Hk. rewrite <- Hk. exact Hmid.
Qed.

Lemma applyBold_length (t : jsstring) : length (applyBold t) = 7 + length t.
Proof. unfold applyBold. rewrite !length_app. simpl. lia. Qed.

(** Conversely the loop takes off every layer that is around a non-empty
    content, and only those. *)
Lemma removeBoldLoop_unwind (k : nat) (r : jsstring) :
  boldWrapped r = false -> (0 < k -> r <> []) ->
  forall n, length (Nat.iter k applyBold r) <= n ->
            removeBoldLoop n (Nat.iter k applyBold r) = r.
Proof.
  intros Hr Hne. induction k as [|k IH]; intros n Hn.
  - apply removeBoldLoop_fixed, Hr.
  - change (Nat.iter (S k) applyBold r)
      with (applyBold (Nat.iter k applyBold r)) in *.
    rewrite applyBold_length in Hn.
    destruct n as [|n]; [lia|]. cbn [removeBoldLoop].
    assert (W : boldWrapped (applyBold (Nat.iter k applyBold r)) = true).
    { apply boldWrapped_iff. exists (Nat.iter k applyBold r).
      split; [|reflexivity].
      destruct k as [|k]; [apply Hne; lia|].
      change (Nat.iter (S k) applyBold r)
        with (applyBold (Nat.iter k applyBold r)).
      unfold applyBold. discriminate. }
    rewrite W, slice_applyBold. apply IH; [intros _; apply Hne|]; lia.
Qed.

Lemma removeBoldLoop_length (n : nat) (t : jsstring) :
  length (removeBoldLoop n t) <= length t.
Proof.
  revert t; induction n as [|n IH]; intros t; simpl; [lia|].
  destruct (boldWrapped t); [|lia].
  pose proof (IH (slice t 3 (-4))). pose proof (slice_length_le t 3 (-4)). lia.
Qed.

Lemma removeBold_exit (s : jsstring) : boldWrapped (removeBold s) = false.
Proof. apply removeBoldLoop_exit; lia. Qed.

(** ** Italic *)

Lemma italicWrapped_iff (t : jsstring) :
  italicWrapped t = true <-> exists mid, mid <> [] /\ t = applyItalic mid.
Proof.
  unfold italicWrapped, applyItalic.
  apply (@wrapped_iff (lit "<i>") (lit "</i>")); marker_side.
Qed.

Lemma slice_applyItalic (mid : jsstring) : slice (applyItalic mid) 3 (-4) = mid.
Proof.
  apply (@slice_unwrap (lit "<i>") (lit "</i>")); marker_side.
Qed.

Lemma trim_applyItalic (s : jsstring) : trim (applyItalic s) = applyItalic s.
Proof.
  apply (@trim_wrap (lit "<i>") (lit "</i>")); marker_side.
Qed.

(** An italic wrapping carries no bold marker at either end, so the
    [break] of [removeItalic] is never taken. *)
Lemma applyItalic_not_bold (mid : jsstring) :
  startsWith (applyItalic mid) (lit "<b>")
  || endsWith (applyItalic mid) (lit "</b>") = false.
Proof.
  apply orb_false_iff. split; [reflexivity|].
  destruct (endsWith (applyItalic mid) (lit "</b>")) eqn:E; [|reflexivity].
  apply endsWith_iff in E as [r Hr]. unfold applyItalic in Hr.
  apply (f_equal (@rev char)) in Hr.
  rewrite !rev_app_distr in Hr. simpl in Hr. discriminate.
Qed.

Lemma removeItalicLoop_fixed (n : nat) (t : jsstring) :
  italicWrapped t = false -> removeItalicLoop n t = t.
Proof. destruct n; simpl; [reflexivity | intros ->; reflexivity]. Qed.

Lemma removeItalicLoop_exit (n : nat) (t : jsstring) :
  length t <= n -> italicWrapped (removeItalicLoop n t) = false.
Proof.
  revert t; induction n as [|n IH]; intros t Hlen; simpl.
  - destruct t; [reflexivity | simpl in Hlen; lia].
  - destruct (italicWrapped t) eqn:E; [|exact E].
    apply italicWrapped_iff in E as [mid [Hmid ->]].
    rewrite applyItalic_not_bold, slice_applyItalic.
    apply IH. unfold applyItalic in Hlen.
    rewrite !length_app in Hlen. simpl in Hlen. lia.
Qed.

Lemma removeItalicLoop_length (n : nat) (t : jsstring) :
  length (removeItalicLoop n t) <= length t.
Proof.
  revert t; induction n as [|n IH]; intros t; simpl; [lia|].
  destruct (italicWrapped t); [|lia].
  destruct (_ || _); [lia|].
  pose proof (IH (slice t 3 (-4))). pose proof (slice_length_le t 3 (-4)). lia.
Qed.

Lemma removeItalic_exit (s : jsstring) : italicWrapped (removeItalic s) = false.
Proof. apply removeItalicLoop_exit; lia. Qed.

(** ** Underline and strikethrough *)

Lemma isUnderline_iff (s : jsstring) :
  isUnderline s = true <-> exists mid, mid <> [] /\ trim s = applyUnderline mid.
Proof.
  unfold isUnderline, applyUnderline.
  apply (@wrapped_iff (lit "<u>") (lit "</u>")); marker_side.
Qed.

Lemma slice_applyUnderline (mid : jsstring) :
  slice (applyUnderline mid) 3 (-4) = mid.
Proof.
  apply (@slice_unwrap (lit "<u>") (lit "</u>")); marker_side.
Qed.

Lemma trim_applyUnderline (s : jsstring) :
  trim (applyUnderline s) = applyUnderline s.
Proof.
  apply (@trim_wrap (lit "<u>") (lit "</u>")); marker_side.
Qed.

Lemma isStrikethrough_iff (s : jsstring) :
  isStrikethrough s = true
  <-> exists mid, mid <> [] /\ trim s = applyStrikethrough mid.
Proof.
  unfold isStrikethrough, applyStrikethrough.
  apply (@wrapped_iff (lit "~~") (lit "~~")); marker_side.
Qed.

Lemma slice_applyStrikethrough (mid : jsstring) :
  slice (applyStrikethrough mid) 2 (-2) = mid.
Proof.
  apply (@slice_unwrap (lit "~~") (lit "~~")); marker_side.
Qed.

Lemma trim_applyStrikethrough (s : jsstring) :
  trim (applyStrikethrough s) = applyStrikethrough s.
Proof.
  apply (@trim_wrap (lit "~~") (lit "~~")); marker_side.
Qed.

(* ================================================================== *)
(** * The anchored patterns, in closed form *)
(* ================================================================== *)

Lemma matchSeq_plus (f : char -> bool) (s : jsstring) :
  matchSeq [Plus f] s
  = if startsIn f s then Some (dropWhile f s) else None.
Proof.
  induction s as [|c r IH]; [reflexivity|].
  change (matchSeq [Plus f] (c :: r))
    with (if f c
          then match matchSeq [Plus f] r with
               | Some rest => Some rest
               | None => Some r
               end
          else None).
  cbn [startsIn dropWhile]. destruct (f c); [|reflexivity].
  rewrite IH. destruct (startsIn f r) eqn:E; [reflexivity|].
  rewrite dropWhile_fixed by exact E. reflexivity.
Qed.

Lemma is_hash_not_ws (c : char) : is_hash c = true -> is_ws c = false.
Proof.
  unfold is_hash, char_eqb. intros H. apply N.eqb_eq in H. subst c. reflexivity.
Qed.

Lemma matchSeq_header (t : jsstring) :
  matchSeq reHeaderPrefix t
  = if startsIn is_hash t && startsIn is_ws (dropWhile is_hash t)
    then Some (dropWhile is_ws (dropWhile is_hash t))
    else None.
Proof.
  unfold reHeaderPrefix.
  induction t as [|c r IH]; [reflexivity|].
  change (matchSeq [Plus is_hash; Plus is_ws] (c :: r))
    with (if is_hash c
          then match matchSeq [Plus is_hash; Plus is_ws] r with
               | Some rest => Some rest
               | None => matchSeq [Plus is_ws] r
               end
          else None).
  cbn [startsIn dropWhile]. destruct (is_hash c) eqn:Hc; [|reflexivity].
  rewrite IH, matchSeq_plus. cbn [andb].
  destruct r as [|d r']; [reflexivity|].
  cbn [startsIn]. destruct (is_hash d) eqn:Hd.
  - cbn [andb].
    destruct (startsIn is_ws (dropWhile is_hash (d :: r'))) eqn:E;
      [reflexivity|].
    rewrite (is_hash_not_ws d Hd). reflexivity.
  - cbn [andb dropWhile]. rewrite Hd. reflexivity.
Qed.

(** [t.replace(/^#+\s+/, '')] does what the specification says. *)
Lemma regexStrip_header (t : jsstring) :
  regexStrip reHeaderPrefix t = specStripHeaderPrefix t.
Proof.
  unfold regexStrip, specStripHeaderPrefix. rewrite matchSeq_header.
  destruct (_ && _); reflexivity.
Qed.

Lemma regexTest_header (t : jsstring) :
  regexTest reHeaderPrefix t
  = startsIn is_hash t && startsIn is_ws (dropWhile is_hash t).
Proof.
  unfold regexTest. rewrite matchSeq_header. destruct (_ && _); reflexivity.
Qed.

Lemma matchSeq_bullet (t : jsstring) :
  matchSeq reBulletPrefix t
  = match t with
    | c :: r =>
        if is_bullet_mark c && startsIn is_ws r
        then Some (dropWhile is_ws r) else None
    | [] => None
    end.
Proof.
  destruct t as [|c r]; [reflexivity|].
  change (matchSeq reBulletPrefix (c :: r))
    with (if is_bullet_mark c then matchSeq [Plus is_ws] r else None).
  rewrite matchSeq_plus. destruct (is_bullet_mark c); reflexivity.
Qed.

Lemma regexStrip_bullet (t : jsstring) :
  regexStrip reBulletPrefix t = specStripBulletPrefix t.
Proof.
  unfold regexStrip, specStripBulletPrefix. rewrite matchSeq_bullet.
  destruct t as [|c r]; [reflexivity|]. destruct (_ && _); reflexivity.
Qed.

Lemma regexTest_bulletPrefix (t : jsstring) :
  regexTest reBulletPrefix t
  = match t with
    | c :: r => is_bullet_mark c && startsIn is_ws r
    | [] => false
    end.
Proof.
  unfold regexTest. rewrite matchSeq_bullet.
  destruct t as [|c r]; [reflexivity|]. destruct (_ && _); reflexivity.
Qed.

Lemma regexTest_bullet (t : jsstring) :
  regexTest reBulletTest t
  = match t with
    | c :: r => is_bullet_mark c && startsIn is_ws r
    | [] => false
    end.
Proof.
  destruct t as [|c [|d r]]; unfold regexTest; simpl;
    try reflexivity; destruct (is_bullet_mark c); try reflexivity.
  simpl. destruct (is_ws d); reflexivity.
Qed.

(** What is left of a trimmed text after a whitespace run is dropped from
    its front is not empty. *)
Lemma dropWhile_ws_nonempty (u : jsstring) :
  startsIn is_ws u = true -> endsIn is_ws u = false -> dropWhile is_ws u <> [].
Proof.
  intros Hs He Hnil.
  pose proof (takeWhile_dropWhile is_ws u) as E. rewrite Hnil, app_nil_r in E.
  assert (Hu : u <> []) by (destruct u; [discriminate Hs | discriminate]).
  rewrite (endsIn_all is_ws u Hu) in He; [discriminate|].
  rewrite E. apply takeWhile_all.
Qed.

Lemma endsIn_tail (f : char -> bool) (c : char) (r : jsstring) :
  r <> [] -> endsIn f (c :: r) = endsIn f r.
Proof. intros Hr. apply (endsIn_app f [c] r Hr). Qed.

Lemma stripHeader_trimmed (t : jsstring) :
  trim t = t -> trim (specStripHeaderPrefix t) = specStripHeaderPrefix t.
Proof.
  intros Ht. apply trim_fixed_iff in Ht as [Hs He].
  unfold specStripHeaderPrefix. destruct (_ && _).
  - apply trim_fixed; [apply dropWhile_startsIn|].
    do 2 apply dropWhile_keeps_end. exact He.
  - apply trim_fixed; assumption.
Qed.

Lemma stripHeader_nonempty (t : jsstring) :
  trim t = t -> t <> [] -> specStripHeaderPrefix t <> [].
Proof.
  intros Ht Hne. apply trim_fixed_iff in Ht as [Hs He].
  unfold specStripHeaderPrefix. destruct (_ && _) eqn:E; [|exact Hne].
  apply andb_true_iff in E as [_ E].
  apply dropWhile_ws_nonempty; [exact E|].
  apply dropWhile_keeps_end. exact He.
Qed.

Lemma stripBullet_trimmed (t : jsstring) :
  trim t = t -> trim (specStripBulletPrefix t) = specStripBulletPrefix t.
Proof.
  intros Ht. pose proof Ht as Ht'. apply trim_fixed_iff in Ht as [Hs He].
  unfold specStripBulletPrefix. destruct t as [|c r]; [exact Ht'|].
  destruct (_ && _) eqn:E; [|exact Ht'].
  apply andb_true_iff in E as [_ E].
  apply trim_fixed; [apply dropWhile_startsIn|].
  apply dropWhile_keeps_end. rewrite <- (endsIn_tail is_ws c); [exact He|].
  destruct r; [discriminate E | discriminate].
Qed.

Lemma stripBullet_nonempty (t : jsstring) :
  trim t = t -> t <> [] -> specStripBulletPrefix t <> [].
Proof.
  intros Ht Hne. apply trim_fixed_iff in Ht as [Hs He].
  unfold specStripBulletPrefix. destruct t as [|c r]; [exact Hne|].
  destruct (_ && _) eqn:E; [|exact Hne].
  apply andb_true_iff in E as [_ E].
  apply dropWhile_ws_nonempty; [exact E|].
  rewrite <- (endsIn_tail is_ws c); [exact He|].
  destruct r; [discriminate E | discriminate].
Qed.

Lemma removeHeader_spec (s : jsstring) :
  removeHeader s = specStripHeaderPrefix (trim s).
Proof. apply regexStrip_header. Qed.

Lemma removeBulletList_spec (s : jsstring) :
  removeBulletList s = specStripBulletPrefix (trim s).
Proof. apply regexStrip_bullet. Qed.

Lemma removeHeader_trimmed (s : jsstring) :
  trim (removeHeader s) = removeHeader s.
Proof. rewrite removeHeader_spec. apply stripHeader_trimmed, trim_idem. Qed.

Lemma removeBulletList_trimmed (s : jsstring) :
  trim (removeBulletList s) = removeBulletList s.
Proof. rewrite removeBulletList_spec. apply stripBullet_trimmed, trim_idem. Qed.

Lemma removeHeader_nonempty (s : jsstring) :
  trim s <> [] -> removeHeader s <> [].
Proof. rewrite removeHeader_spec. apply stripHeader_nonempty, trim_idem. Qed.

Lemma removeBulletList_nonempty (s : jsstring) :
  trim s <> [] -> removeBulletList s <> [].
Proof. rewrite removeBulletList_spec. apply stripBullet_nonempty, trim_idem. Qed.

(* ================================================================== *)
(** * Header levels *)
(* ================================================================== *)

Lemma skipn_nth_error (t : jsstring) (i : nat) (x : char) :
  nth_error t i = Some x -> skipn i t = x :: skipn (S i) t.
Proof.
  revert i; induction t as [|c r IH]; intros [|i] H; try discriminate.
  - injection H as ->. reflexivity.
  - simpl in H. apply IH in H. exact H.
Qed.

(** The loop of [getHeaderLevel] counts the leading ['#'] characters; the
    fuel it is given never runs out before the loop condition fails. *)
Lemma headerLevelLoop_spec (fuel : nat) (t : jsstring) (level : nat) :
  length t <= level + fuel ->
  headerLevelLoop fuel t level
  = level + length (takeWhile is_hash (skipn level t)).
Proof.
  revert level; induction fuel as [|fuel IH]; intros level Hlen.
  - simpl. rewrite skipn_all2 by lia. simpl. lia.
  - cbn [headerLevelLoop].
    destruct (Nat.ltb_spec level (length t)) as [Hlt|Hge].
    + destruct (nth_error t level) as [x|] eqn:Hx.
      * unfold charAtIs. rewrite Hx.
        rewrite (skipn_nth_error t level x Hx).
        cbn [andb takeWhile].
        change (char_eqb x (ch "#")) with (is_hash x).
        destruct (is_hash x); cbn [length]; [|lia].
        rewrite IH by lia. lia.
      * apply nth_error_None in Hx. lia.
    + simpl. rewrite skipn_all2 by lia. simpl. lia.
Qed.

Lemma getHeaderLevel_spec (s : jsstring) :
  getHeaderLevel s
  = let t := trim s in
    let k := length (takeWhile is_hash t) in
    if (0 <? k) && (k <=? 3) && charAtIs t k (ch " ") then k else 0.
Proof.
  unfold getHeaderLevel. rewrite headerLevelLoop_spec by lia. reflexivity.
Qed.

Lemma getHeaderLevel_le_3 (s : jsstring) : getHeaderLevel s <= 3.
Proof.
  rewrite getHeaderLevel_spec. cbv zeta.
  destruct (Nat.leb_spec (length (takeWhile is_hash (trim s))) 3);
    rewrite ?andb_false_r; simpl; [|lia].
  destruct (_ && _); lia.
Qed.

(** C7: heading levels are mutually exclusive: for every string at most
    one of [isH1], [isH2] and [isH3] holds, and so at most one of the
    [h1], [h2], [h3] flags of a detected [FormatState] is set. *)
Theorem C7_heading_levels_exclusive (s : jsstring) :
  Nat.b2n (isH1 s) + Nat.b2n (isH2 s) + Nat.b2n (isH3 s) <= 1
  /\ isH1 s && isH2 s = false
  /\ isH1 s && isH3 s = false
  /\ isH2 s && isH3 s = false
  /\ Nat.b2n (fs_h1 (detectFormatState s))
     + Nat.b2n (fs_h2 (detectFormatState s))
     + Nat.b2n (fs_h3 (detectFormatState s)) <= 1.
Proof.
  unfold detectFormatState, isH1, isH2, isH3. simpl.
  destruct (getHeaderLevel s) as [|[|[|[|n]]]]; simpl; repeat split; lia.
Qed.

(* ================================================================== *)
(** * Applying a style *)
(* ================================================================== *)

Lemma trim_nonempty_arg (s : jsstring) : trim s <> [] -> s <> [].
Proof. intros H ->. apply H. reflexivity. Qed.

Lemma isBold_applyBold (s : jsstring) : s <> [] -> isBold (applyBold s) = true.
Proof.
  intros Hs. unfold isBold. rewrite trim_applyBold.
  apply boldWrapped_iff. exists s. auto.
Qed.

Lemma isItalic_applyItalic (s : jsstring) :
  s <> [] -> isItalic (applyItalic s) = true.
Proof.
  intros Hs. unfold isItalic. rewrite trim_applyItalic, applyItalic_not_bold.
  apply italicWrapped_iff. exists s. auto.
Qed.

Lemma isUnderline_applyUnderline (s : jsstring) :
  s <> [] -> isUnderline (applyUnderline s) = true.
Proof.
  intros Hs. apply isUnderline_iff. exists s.
  rewrite trim_applyUnderline. auto.
Qed.

Lemma isStrikethrough_applyStrikethrough (s : jsstring) :
  s <> [] -> isStrikethrough (applyStrikethrough s) = true.
Proof.
  intros Hs. apply isStrikethrough_iff. exists s.
  rewrite trim_applyStrikethrough. auto.
Qed.

(** A marker put before a trimmed, non-empty text gives a trimmed text. *)
Lemma trim_marker_prefix (m c : jsstring) :
  startsIn is_ws m = false -> m <> [] -> c <> [] -> trim c = c ->
  trim (m ++ c) = m ++ c.
Proof.
  intros Hm Hne Hc Ht. apply trim_fixed_iff in Ht as [_ He].
  apply trim_fixed.
  - destruct m; [contradiction|exact Hm].
  - rewrite endsIn_app by exact Hc. exact He.
Qed.

Lemma applyH1_removeHeader (s : jsstring) :
  applyH1 s = lit "# " ++ removeHeader s.
Proof. reflexivity. Qed.

Lemma applyH2_removeHeader (s : jsstring) :
  applyH2 s = lit "## " ++ removeHeader s.
Proof. reflexivity. Qed.

Lemma applyH3_removeHeader (s : jsstring) :
  applyH3 s = lit "### " ++ removeHeader s.
Proof. reflexivity. Qed.

Lemma applyBulletList_removeBulletList (s : jsstring) :
  applyBulletList s = lit "- " ++ removeBulletList s.
Proof. reflexivity. Qed.

Lemma getHeaderLevel_marked (m c : jsstring) (k : nat) :
  c <> [] -> trim c = c ->
  (m = lit "# " /\ k = 1) \/ (m = lit "## " /\ k = 2)
  \/ (m = lit "### " /\ k = 3) ->
  getHeaderLevel (m ++ c) = k.
Proof.
  intros Hc Ht Hm. unfold getHeaderLevel.
  rewrite trim_marker_prefix; try assumption;
    [| destruct Hm as [[-> _]|[[-> _]|[-> _]]]; reflexivity
     | destruct Hm as [[-> _]|[[-> _]|[-> _]]]; discriminate ].
  destruct Hm as [[-> ->]|[[-> ->]|[-> ->]]]; reflexivity.
Qed.

Lemma isBulletList_marked (c : jsstring) :
  c <> [] -> trim c = c -> isBulletList (lit "- " ++ c) = true.
Proof.
  intros Hc Ht. unfold isBulletList.
  rewrite trim_marker_prefix; try assumption; [|reflexivity|discriminate].
  reflexivity.
Qed.

(** C10: for every string whose trim is non-empty, what [apply] yields is
    recognised by the detector of the same style, for each of the eight
    styles, so the next toggle of the result takes the remove branch. *)
Theorem C10_apply_is_detected (s : jsstring) (Hs : trim s <> []) :
  (isBold (applyBold s) = true
   /\ isItalic (applyItalic s) = true
   /\ isUnderline (applyUnderline s) = true
   /\ isStrikethrough (applyStrikethrough s) = true
   /\ isH1 (applyH1 s) = true
   /\ isH2 (applyH2 s) = true
   /\ isH3 (applyH3 s) = true
   /\ isBulletList (applyBulletList s) = true)
  /\ (toggleBold (applyBold s) = removeBold (applyBold s)
      /\ toggleItalic (applyItalic s) = removeItalic (applyItalic s)
      /\ toggleUnderline (applyUnderline s) = removeUnderline (applyUnderline s)
      /\ toggleStrikethrough (applyStrikethrough s)
         = removeStrikethrough (applyStrikethrough s)
      /\ toggleH1 (applyH1 s) = removeHeader (applyH1 s)
      /\ toggleH2 (applyH2 s) = removeHeader (applyH2 s)
      /\ toggleH3 (applyH3 s) = removeHeader (applyH3 s)
      /\ toggleBulletList (applyBulletList s)
         = removeBulletList (applyBulletList s)).
Proof.
  pose proof (trim_nonempty_arg s Hs) as Hne.
  pose proof (removeHeader_nonempty s Hs) as Hh.
  pose proof (removeHeader_trimmed s) as Hht.
  assert (D : isBold (applyBold s) = true
   /\ isItalic (applyItalic s) = true
   /\ isUnderline (applyUnderline s) = true
   /\ isStrikethrough (applyStrikethrough s) = true
   /\ isH1 (applyH1 s) = true
   /\ isH2 (applyH2 s) = true
   /\ isH3 (applyH3 s) = true
   /\ isBulletList (applyBulletList s) = true).
  { repeat split.
    - apply isBold_applyBold, Hne.
    - apply isItalic_applyItalic, Hne.
    - apply isUnderline_applyUnderline, Hne.
    - apply isStrikethrough_applyStrikethrough, Hne.
    - unfold isH1. rewrite applyH1_removeHeader.
      rewrite (getHeaderLevel_marked _ _ 1); auto.
    - unfold isH2. rewrite applyH2_removeHeader.
      rewrite (getHeaderLevel_marked _ _ 2); auto.
    - unfold isH3. rewrite applyH3_removeHeader.
      rewrite (getHeaderLevel_marked _ _ 3); auto.
    - rewrite applyBulletList_removeBulletList. apply isBulletList_marked.
      + apply removeBulletList_nonempty, Hs.
      + apply removeBulletList_trimmed. }
  split; [exact D|].
  destruct D as (D1 & D2 & D3 & D4 & D5 & D6 & D7 & D8).
  unfold toggleBold, toggleItalic, toggleUnderline, toggleStrikethrough,
    toggleH1, toggleH2, toggleH3, toggleBulletList.
  rewrite D1, D2, D3, D4, D5, D6, D7, D8. repeat split.
Qed.

Lemma C10_apply_is_detected_witness :
  trim (lit " Hello world ") <> []
  /\ isH2 (applyH2 (lit " Hello world ")) = true
  /\ toggleBulletList (applyBulletList (lit " Hello world "))
     = removeBulletList (applyBulletList (lit " Hello world ")).
Proof.
  assert (H : trim (lit " Hello world ") <> []) by (vm_compute; discriminate).
  split; [exact H|].
  pose proof (C10_apply_is_detected (lit " Hello world ") H) as [D T].
  split; [apply D | apply T].
Defined.

Lemma wrap_trim_iff (p q s : jsstring) :
  p ++ s ++ q = p ++ trim s ++ q <-> trim s = s.
Proof.
  split.
  - intros H. apply app_inv_head, app_inv_tail in H. symmetry; exact H.
  - intros ->. reflexivity.
Qed.

(** C9, as the code has it: the heading and bullet appliers work on the
    trimmed input: the marker is prefixed to [trim s] with an existing
    marker run dropped, what follows the marker carries no surrounding
    whitespace, and whitespace around the input has no effect.  The four
    inline appliers wrap their input as it is: the markers surround the
    trimmed content exactly when the input is already trimmed. *)
Theorem C9_apply_trims_block_styles_only (s : jsstring) :
  (applyH1 s = lit "# " ++ specStripHeaderPrefix (trim s)
   /\ applyH2 s = lit "## " ++ specStripHeaderPrefix (trim s)
   /\ applyH3 s = lit "### " ++ specStripHeaderPrefix (trim s)
   /\ applyBulletList s = lit "- " ++ specStripBulletPrefix (trim s))
  /\ (trim (specStripHeaderPrefix (trim s)) = specStripHeaderPrefix (trim s)
      /\ trim (specStripBulletPrefix (trim s)) = specStripBulletPrefix (trim s))
  /\ (applyH1 (trim s) = applyH1 s
      /\ applyH2 (trim s) = applyH2 s
      /\ applyH3 (trim s) = applyH3 s
      /\ applyBulletList (trim s) = applyBulletList s)
  /\ (applyBold s = lit "<b>" ++ s ++ lit "</b>"
      /\ applyItalic s = lit "<i>" ++ s ++ lit "</i>"
      /\ applyUnderline s = lit "<u>" ++ s ++ lit "</u>"
      /\ applyStrikethrough s = lit "~~" ++ s ++ lit "~~")
  /\ ((applyBold s = lit "<b>" ++ trim s ++ lit "</b>" <-> trim s = s)
      /\ (applyItalic s = lit "<i>" ++ trim s ++ lit "</i>" <-> trim s = s)
      /\ (applyUnderline s = lit "<u>" ++ trim s ++ lit "</u>" <-> trim s = s)
      /\ (applyStrikethrough s = lit "~~" ++ trim s ++ lit "~~"
          <-> trim s = s)).
Proof.
  split; [|split; [|split; [|split]]].
  - unfold applyH1, applyH2, applyH3, applyBulletList.
    rewrite regexStrip_header, regexStrip_bullet. repeat split.
  - split; [apply stripHeader_trimmed | apply stripBullet_trimmed];
      apply trim_idem.
  - unfold applyH1, applyH2, applyH3, applyBulletList.
    rewrite trim_idem. repeat split.
  - repeat split.
  - repeat split; try (intros H; apply wrap_trim_iff in H; exact H);
      intros H; apply wrap_trim_iff; exact H.
Qed.

(** C9 as stated fails: the bold applier keeps the whitespace around its
    input inside the markers. *)
Lemma C9_applyBold_keeps_whitespace :
  applyBold (lit " x ") = lit "<b> x </b>"
  /\ applyBold (lit " x ") <> lit "<b>" ++ trim (lit " x ") ++ lit "</b>".
Proof. split; [reflexivity | vm_compute; discriminate]. Qed.

(** C8: applying a heading level drops an existing leading run of ['#']
    with the whitespace after it and then prepends the markers of the level
    and a space; so [applyH2 (applyH1 "text")] is ["## text"], and toggling
    h1 on the line ["## Already H2"], which is not an H1, gives
    ["# Already H2"], also through the orchestrator with a caret in the
    line. *)
Theorem C8_heading_apply_normalizes :
  (forall s : jsstring,
      applyH1 s = lit "# " ++ specStripHeaderPrefix (trim s)
      /\ applyH2 s = lit "## " ++ specStripHeaderPrefix (trim s)
      /\ applyH3 s = lit "### " ++ specStripHeaderPrefix (trim s))
  /\ applyH2 (applyH1 (lit "text")) = lit "## text"
  /\ isH1 (lit "## Already H2") = false
  /\ toggleH1 (lit "## Already H2") = lit "# Already H2"
  /\ applyFormatting (viewOf "## Already H2" 5 5) h1
     = Normal [Dispatch (mkTransaction
                           [mkChange 0 13 (lit "# Already H2")] None);
               Focus].
Proof.
  split; [|repeat split].
  intros s. unfold applyH1, applyH2, applyH3.
  rewrite regexStrip_header. repeat split.
Qed.

(** C6, as the code has it: [removeBold] strips the nested [<b>...</b>]
    layers of the trimmed text one after the other for as long as what is
    left passes the test of [isBold]: it starts with [<b>], ends with
    [</b>] and is longer than the two tags, 7 characters.  So the result is
    the one text [r] that fails this test, with the trimmed input being [r]
    in [k] layers, and [r] non-empty if a layer was taken off: the pair
    around nothing, [<b></b>], is never opened.  [removeBold
    "<b><b>x</b></b>"] is ["x"], and toggling ["<b>x</b>"] twice gives it
    back. *)
Theorem C6_removeBold_strips_all_layers :
  (forall s r : jsstring,
      removeBold s = r
      <-> exists k : nat,
            trim s = Nat.iter k applyBold r
            /\ boldWrapped r = false
            /\ (0 < k -> r <> []))
  /\ (forall t : jsstring,
         boldWrapped t
         = startsWith t (lit "<b>") && endsWith t (lit "</b>")
           && (7 <? length t))
  /\ removeBold (lit "<b></b>") = lit "<b></b>"
  /\ removeBold (lit "<b><b><b></b></b></b>") = lit "<b></b>"
  /\ removeBold (lit "<b><b>x</b></b>") = lit "x"
  /\ toggleBold (toggleBold (lit "<b>x</b>")) = lit "<b>x</b>".
Proof.
  split; [|repeat split].
  intros s r. unfold removeBold. split.
  - intros <-.
    destruct (removeBoldLoop_layers (length (trim s)) (trim s))
      as [k [Hk Hne]].
    exists k. split; [exact Hk|]. split; [|exact Hne].
    apply removeBoldLoop_exit. lia.
  - intros (k & Hk & Hr & Hne). rewrite Hk.
    apply removeBoldLoop_unwind; [assumption | assumption | lia].
Qed.

(** C6 as stated fails: [removeBold] does not go on until what is left no
    longer starts and ends with the pair.  From ["<b><b></b></b>"] it takes
    one layer off and returns ["<b></b>"], which starts with [<b>] and ends
    with [</b>]; the loop stops there because the text is not longer than 7
    characters. *)
Theorem C6_bare_pair_is_left :
  removeBold (lit "<b><b></b></b>") = lit "<b></b>"
  /\ startsWith (removeBold (lit "<b><b></b></b>")) (lit "<b>") = true
  /\ endsWith (removeBold (lit "<b><b></b></b>")) (lit "</b>") = true
  /\ ~ (forall s : jsstring,
          startsWith (removeBold s) (lit "<b>")
          && endsWith (removeBold s) (lit "</b>") = false).
Proof.
  repeat split. intros H. specialize (H (lit "<b><b></b></b>")).
  vm_compute in H. discriminate.
Qed.

(* ================================================================== *)
(** * Single-layer styles

    Underline and strikethrough have the same shape: a detector, a wrapper
    and a remover that takes off one layer.  The facts the two share are
    proved once, over that shape. *)
(* ================================================================== *)

Section SingleLayer.
Variable detect : jsstring -> bool.
Variables apply remove toggle : jsstring -> jsstring.

Hypothesis toggle_eq :
  forall s, toggle s = if detect s then remove s else apply s.
Hypothesis detect_inv :
  forall s, detect s = true ->
            exists mid, mid <> [] /\ trim s = apply mid /\ remove s = mid.
Hypothesis remove_undetected :
  forall s, detect s = false -> remove s = s.
Hypothesis detect_apply :
  forall s, s <> [] -> detect (apply s) = true /\ remove (apply s) = s.
Hypothesis detect_apply_empty : detect (apply []) = false.
Hypothesis apply_longer : forall s, length s < length (apply s).

Lemma single_remove_shorter (s : jsstring) :
  detect s = true -> length (remove s) < length s.
Proof.
  intros H. destruct (detect_inv s H) as [mid [_ [Ht ->]]].
  pose proof (trim_length s) as Hl. rewrite Ht in Hl.
  pose proof (apply_longer mid). lia.
Qed.

Lemma single_remove_idem_iff (s : jsstring) :
  remove (remove s) = remove s <-> detect (remove s) = false.
Proof.
  split.
  - intros H. destruct (detect (remove s)) eqn:E; [|reflexivity].
    pose proof (single_remove_shorter _ E) as Hlt. rewrite H in Hlt. lia.
  - apply remove_undetected.
Qed.

Lemma single_toggle_involution_iff (s : jsstring) :
  toggle (toggle s) = s
  <-> (detect s = false /\ s <> [])
      \/ (detect s = true /\ trim s = s /\ detect (remove s) = false).
Proof.
  rewrite (toggle_eq s). destruct (detect s) eqn:D.
  - destruct (detect_inv s D) as [mid [Hmid [Ht Hr]]].
    rewrite toggle_eq. destruct (detect (remove s)) eqn:D'.
    + split.
      * intros H. pose proof (single_remove_shorter _ D') as H1.
        pose proof (single_remove_shorter _ D) as H2. rewrite H in H1. lia.
      * intros [[H _]|[_ [_ H]]]; discriminate.
    + rewrite Hr, <- Ht. split.
      * intros H. right. auto.
      * intros [[H _]|[_ [H _]]]; [discriminate | exact H].
  - destruct s as [|c r].
    + rewrite toggle_eq, detect_apply_empty. split.
      * intros H. pose proof (apply_longer (apply [])) as H1.
        rewrite H in H1. simpl in H1. lia.
      * intros [[_ H]|[H _]]; [contradiction | discriminate].
    + assert (Hne : c :: r <> []) by discriminate.
      destruct (detect_apply _ Hne) as [Hd Hr].
      rewrite toggle_eq, Hd, Hr. split; [left|]; auto.
Qed.
End SingleLayer.

Lemma isUnderline_trim (s : jsstring) : isUnderline (trim s) = isUnderline s.
Proof. unfold isUnderline. rewrite trim_idem. reflexivity. Qed.

Lemma isStrikethrough_trim (s : jsstring) :
  isStrikethrough (trim s) = isStrikethrough s.
Proof. unfold isStrikethrough. rewrite trim_idem. reflexivity. Qed.

Lemma removeUnderline_detected (s : jsstring) :
  isUnderline s = true ->
  exists mid, mid <> [] /\ trim s = applyUnderline mid /\ removeUnderline s = mid.
Proof.
  intros H. unfold removeUnderline. rewrite isUnderline_trim, H.
  apply isUnderline_iff in H as [mid [Hmid Ht]].
  exists mid. rewrite Ht, slice_applyUnderline. auto.
Qed.

Lemma removeUnderline_undetected (s : jsstring) :
  isUnderline s = false -> removeUnderline s = s.
Proof.
  intros H. unfold removeUnderline. rewrite isUnderline_trim, H. reflexivity.
Qed.

Lemma removeUnderline_applyUnderline (s : jsstring) :
  s <> [] ->
  isUnderline (applyUnderline s) = true
  /\ removeUnderline (applyUnderline s) = s.
Proof.
  intros Hs. pose proof (isUnderline_applyUnderline s Hs) as H.
  split; [exact H|].
  unfold removeUnderline. rewrite isUnderline_trim, H, trim_applyUnderline.
  apply slice_applyUnderline.
Qed.

Lemma applyUnderline_longer (s : jsstring) :
  length s < length (applyUnderline s).
Proof. unfold applyUnderline. rewrite !length_app. simpl. lia. Qed.

Lemma removeStrikethrough_detected (s : jsstring) :
  isStrikethrough s = true ->
  exists mid,
    mid <> [] /\ trim s = applyStrikethrough mid /\ removeStrikethrough s = mid.
Proof.
  intros H. unfold removeStrikethrough. rewrite isStrikethrough_trim, H.
  apply isStrikethrough_iff in H as [mid [Hmid Ht]].
  exists mid. rewrite Ht, slice_applyStrikethrough. auto.
Qed.

Lemma removeStrikethrough_undetected (s : jsstring) :
  isStrikethrough s = false -> removeStrikethrough s = s.
Proof.
  intros H. unfold removeStrikethrough. rewrite isStrikethrough_trim, H.
  reflexivity.
Qed.

Lemma removeStrikethrough_applyStrikethrough (s : jsstring) :
  s <> [] ->
  isStrikethrough (applyStrikethrough s) = true
  /\ removeStrikethrough (applyStrikethrough s) = s.
Proof.
  intros Hs. pose proof (isStrikethrough_applyStrikethrough s Hs) as H.
  split; [exact H|].
  unfold removeStrikethrough.
  rewrite isStrikethrough_trim, H, trim_applyStrikethrough.
  apply slice_applyStrikethrough.
Qed.

Lemma applyStrikethrough_longer (s : jsstring) :
  length s < length (applyStrikethrough s).
Proof. unfold applyStrikethrough. rewrite !length_app. simpl. lia. Qed.

(** C5, as the code has it: toggling underline (or strikethrough) twice
    gives the input back exactly in two cases: the input is non-empty and
    not detected as the style, or it is detected, carries no surrounding
    whitespace and its content is not itself detected (a single layer). *)
Theorem C5_single_layer_toggle_involution (s : jsstring) :
  (toggleUnderline (toggleUnderline s) = s
   <-> (isUnderline s = false /\ s <> [])
       \/ (isUnderline s = true /\ trim s = s
           /\ isUnderline (removeUnderline s) = false))
  /\ (toggleStrikethrough (toggleStrikethrough s) = s
      <-> (isStrikethrough s = false /\ s <> [])
          \/ (isStrikethrough s = true /\ trim s = s
              /\ isStrikethrough (removeStrikethrough s) = false)).
Proof.
  split.
  - apply (single_toggle_involution_iff isUnderline applyUnderline).
    + reflexivity.
    + apply removeUnderline_detected.
    + apply removeUnderline_applyUnderline.
    + reflexivity.
    + apply applyUnderline_longer.
  - apply (single_toggle_involution_iff isStrikethrough applyStrikethrough).
    + reflexivity.
    + apply removeStrikethrough_detected.
    + apply removeStrikethrough_applyStrikethrough.
    + reflexivity.
    + apply applyStrikethrough_longer.
Qed.

(** C5 as stated fails: on the empty string, on an underlined text with
    whitespace around it, and on a doubly wrapped text. *)
Lemma C5_toggle_twice_differs :
  toggleUnderline (toggleUnderline (lit "")) = lit "<u><u></u></u>"
  /\ toggleUnderline (toggleUnderline (lit " <u>x</u> ")) = lit "<u>x</u>"
  /\ toggleUnderline (toggleUnderline (lit "<u><u>x</u></u>")) = lit "x"
  /\ toggleStrikethrough (toggleStrikethrough (lit "~~~~x~~~~")) = lit "x"
  /\ toggleUnderline (toggleUnderline (lit " <u>x</u> ")) <> lit " <u>x</u> "
  /\ toggleStrikethrough (toggleStrikethrough (lit "~~~~x~~~~"))
     <> lit "~~~~x~~~~".
Proof.
  repeat split; try reflexivity; vm_compute; discriminate.
Qed.

(* ================================================================== *)
(** * Removing twice *)
(* ================================================================== *)

Lemma removeBold_idem_iff (s : jsstring) :
  removeBold (removeBold s) = removeBold s
  <-> trim (removeBold s) = removeBold s.
Proof.
  set (r := removeBold s). split.
  - intros H. apply trim_length_eq.
    pose proof (removeBoldLoop_length (length (trim r)) (trim r)) as H1.
    fold (removeBold r) in H1. rewrite H in H1.
    pose proof (trim_length r). lia.
  - intros Ht. unfold removeBold at 1. rewrite Ht.
    apply removeBoldLoop_fixed. apply removeBold_exit.
Qed.

Lemma removeItalic_idem_iff (s : jsstring) :
  removeItalic (removeItalic s) = removeItalic s
  <-> trim (removeItalic s) = removeItalic s.
Proof.
  set (r := removeItalic s). split.
  - intros H. apply trim_length_eq.
    pose proof (removeItalicLoop_length (length (trim r)) (trim r)) as H1.
    fold (removeItalic r) in H1. rewrite H in H1.
    pose proof (trim_length r). lia.
  - intros Ht. unfold removeItalic at 1. rewrite Ht.
    apply removeItalicLoop_fixed. apply removeItalic_exit.
Qed.

Lemma dropWhile_length_lt (f : char -> bool) (s : jsstring) :
  startsIn f s = true -> length (dropWhile f s) < length s.
Proof.
  destruct s as [|c r]; simpl; [discriminate|].
  intros ->. pose proof (dropWhile_length f r). lia.
Qed.

Lemma regexStrip_header_fixed_iff (t : jsstring) :
  regexStrip reHeaderPrefix t = t <-> regexTest reHeaderPrefix t = false.
Proof.
  rewrite regexStrip_header, regexTest_header. unfold specStripHeaderPrefix.
  destruct (_ && _) eqn:E; [|tauto].
  apply andb_true_iff in E as [E1 E2]. split; [|discriminate].
  intros H. pose proof (dropWhile_length_lt is_hash t E1) as H1.
  pose proof (dropWhile_length is_ws (dropWhile is_hash t)) as H2.
  rewrite H in H2. lia.
Qed.

Lemma regexStrip_bullet_fixed_iff (t : jsstring) :
  regexStrip reBulletPrefix t = t <-> regexTest reBulletPrefix t = false.
Proof.
  rewrite regexStrip_bullet, regexTest_bulletPrefix.
  unfold specStripBulletPrefix. destruct t as [|c r]; [tauto|].
  destruct (_ && _) eqn:E; [|tauto].
  split; [|discriminate].
  intros H. pose proof (dropWhile_length is_ws r) as H1.
  rewrite H in H1. simpl in H1. lia.
Qed.

Lemma removeHeader_idem_iff (s : jsstring) :
  removeHeader (removeHeader s) = removeHeader s
  <-> regexTest reHeaderPrefix (removeHeader s) = false.
Proof.
  unfold removeHeader at 1. rewrite removeHeader_trimmed.
  apply regexStrip_header_fixed_iff.
Qed.

Lemma removeBulletList_idem_iff (s : jsstring) :
  removeBulletList (removeBulletList s) = removeBulletList s
  <-> regexTest reBulletPrefix (removeBulletList s) = false.
Proof.
  unfold removeBulletList at 1. rewrite removeBulletList_trimmed.
  apply regexStrip_bullet_fixed_iff.
Qed.

(** C4, as the code has it: removing twice gives what removing once gives
    exactly when the first result carries no further marker: for bold and
    italic when it has no surrounding whitespace, for underline and
    strikethrough when it is not itself detected as the style, for headings
    and bullets when it does not begin with a marker run followed by
    whitespace.  Heading remove is idempotent on every input whose trimmed
    text has no ['#'] run followed by whitespace at its start, where it
    returns the trimmed text. *)
Theorem C4_remove_twice (s : jsstring) :
  (removeBold (removeBold s) = removeBold s
   <-> trim (removeBold s) = removeBold s)
  /\ (removeItalic (removeItalic s) = removeItalic s
      <-> trim (removeItalic s) = removeItalic s)
  /\ (removeUnderline (removeUnderline s) = removeUnderline s
      <-> isUnderline (removeUnderline s) = false)
  /\ (removeStrikethrough (removeStrikethrough s) = removeStrikethrough s
      <-> isStrikethrough (removeStrikethrough s) = false)
  /\ (removeHeader (removeHeader s) = removeHeader s
      <-> regexTest reHeaderPrefix (removeHeader s) = false)
  /\ (removeBulletList (removeBulletList s) = removeBulletList s
      <-> regexTest reBulletPrefix (removeBulletList s) = false)
  /\ (regexTest reHeaderPrefix (trim s) = false ->
      removeHeader s = trim s
      /\ removeHeader (removeHeader s) = removeHeader s).
Proof.
  repeat match goal with |- _ /\ _ => split end.
  - apply removeBold_idem_iff.
  - apply removeItalic_idem_iff.
  - apply (single_remove_idem_iff isUnderline applyUnderline).
    + apply removeUnderline_detected.
    + apply removeUnderline_undetected.
    + apply applyUnderline_longer.
  - apply (single_remove_idem_iff isStrikethrough applyStrikethrough).
    + apply removeStrikethrough_detected.
    + apply removeStrikethrough_undetected.
    + apply applyStrikethrough_longer.
  - apply removeHeader_idem_iff.
  - apply removeBulletList_idem_iff.
  - intros H.
    assert (E : removeHeader s = trim s)
      by (apply regexStrip_header_fixed_iff; exact H).
    split; [exact E|].
    apply removeHeader_idem_iff. rewrite E. exact H.
Qed.

Lemma C4_remove_twice_witness :
  regexTest reHeaderPrefix (trim (lit " plain text ")) = false
  /\ removeHeader (lit " plain text ") = trim (lit " plain text ")
  /\ removeHeader (removeHeader (lit " plain text "))
     = removeHeader (lit " plain text ").
Proof.
  split; [reflexivity|].
  apply (C4_remove_twice (lit " plain text ")). reflexivity.
Defined.

(** C4 as stated fails for every style: whitespace inside a bold or italic
    pair exposes an inner layer, underline and strikethrough take off one
    layer per call, and a heading or bullet marker can follow another. *)
Lemma C4_remove_not_idempotent :
  removeBold (removeBold (lit "<b> <b>x</b> </b>"))
    <> removeBold (lit "<b> <b>x</b> </b>")
  /\ removeItalic (removeItalic (lit "<i> x </i>"))
     <> removeItalic (lit "<i> x </i>")
  /\ removeUnderline (removeUnderline (lit "<u><u>x</u></u>"))
     <> removeUnderline (lit "<u><u>x</u></u>")
  /\ removeStrikethrough (removeStrikethrough (lit "~~~~x~~~~"))
     <> removeStrikethrough (lit "~~~~x~~~~")
  /\ removeHeader (removeHeader (lit "# ## x")) <> removeHeader (lit "# ## x")
  /\ removeBulletList (removeBulletList (lit "- * x"))
     <> removeBulletList (lit "- * x").
Proof.
  repeat split; vm_compute; discriminate.
Qed.

(* ================================================================== *)
(** * Documents and their lines *)
(* ================================================================== *)

Lemma splitLines_nonempty (d : jsstring) : splitLines d <> [].
Proof.
  destruct d as [|c r]; simpl; [discriminate|].
  destruct (is_newline c); [discriminate|].
  destruct (splitLines r); discriminate.
Qed.

Lemma joinLines_cons (t l : jsstring) (ls : list jsstring) :
  joinLines (t :: l :: ls) = t ++ 10%N :: joinLines (l :: ls).
Proof. reflexivity. Qed.

Lemma joinLines_length_cons (t : jsstring) (r : list jsstring) :
  r <> [] -> length (joinLines (t :: r)) = length t + 1 + length (joinLines r).
Proof.
  destruct r as [|l ls]; [contradiction|]. intros _.
  rewrite joinLines_cons, length_app. simpl length. lia.
Qed.

Lemma joinLines_length_head (t : jsstring) (r : list jsstring) :
  length t <= length (joinLines (t :: r)).
Proof.
  destruct r as [|l ls]; [simpl; lia|].
  rewrite joinLines_length_cons by discriminate. lia.
Qed.

(** The lines of a document, joined by line feeds, are the document. *)
Lemma joinLines_splitLines (d : jsstring) : joinLines (splitLines d) = d.
Proof.
  induction d as [|c r IH]; [reflexivity|].
  pose proof (splitLines_nonempty r) as Hne.
  cbn [splitLines]. destruct (is_newline c) eqn:E.
  - unfold is_newline in E. apply N.eqb_eq in E. subst c.
    destruct (splitLines r) as [|l ls]; [contradiction|].
    rewrite joinLines_cons, IH. reflexivity.
  - destruct (splitLines r) as [|l ls]; [contradiction|].
    rewrite <- IH. destruct ls; reflexivity.
Qed.

Lemma linesFrom_bounds (ls : list jsstring) :
  forall start num i l,
    nth_error (linesFrom start num ls) i = Some l ->
    line_number l = num + i
    /\ start <= line_from l
    /\ line_from l <= line_to l
    /\ line_to l <= start + length (joinLines ls).
Proof.
  induction ls as [|t r IH]; intros start num i l H.
  - destruct i; discriminate.
  - destruct i as [|i]; cbn [linesFrom nth_error] in H.
    + injection H as <-. cbn [line_number line_from line_to].
      pose proof (joinLines_length_head t r). repeat split; lia.
    + assert (Hr : r <> []) by (intros ->; destruct i; discriminate).
      apply IH in H as (Hn & Hs & Hft & Hto).
      rewrite joinLines_length_cons by exact Hr. repeat split; lia.
Qed.

(** Lines follow each other: an earlier line ends before a later one
    starts. *)
Lemma linesFrom_order (ls : list jsstring) :
  forall start num i j l l',
    i < j ->
    nth_error (linesFrom start num ls) i = Some l ->
    nth_error (linesFrom start num ls) j = Some l' ->
    line_to l < line_from l'.
Proof.
  induction ls as [|t r IH]; intros start num i j l l' Hij Hi Hj.
  - destruct i; discriminate.
  - destruct j as [|j]; [lia|]. cbn [linesFrom nth_error] in Hj.
    destruct i as [|i]; cbn [linesFrom nth_error] in Hi.
    + injection Hi as <-. cbn [line_to].
      apply linesFrom_bounds in Hj as (_ & Hs & _). lia.
    + eapply (IH _ _ i j); [lia | exact Hi | exact Hj].
Qed.

Lemma linesFrom_slice (ls : list jsstring) :
  forall (pre : jsstring) num l,
    In l (linesFrom (length pre) num ls) ->
    firstn (line_to l - line_from l)
           (skipn (line_from l) (pre ++ joinLines ls))
    = line_text l.
Proof.
  induction ls as [|t r IH]; intros pre num l H; [contradiction|].
  cbn [linesFrom In] in H. destruct H as [<-|H].
  - cbn [line_to line_from line_text].
    replace (length pre + length t - length pre) with (length t) by lia.
    rewrite skipn_app, skipn_all, Nat.sub_diag. cbn [app skipn].
    destruct r as [|l ls].
    + cbn [joinLines]. apply firstn_all.
    + rewrite joinLines_cons, firstn_app, Nat.sub_diag, firstn_all.
      cbn [firstn]. apply app_nil_r.
  - destruct r as [|l0 ls]; [contradiction|].
    rewrite joinLines_cons.
    replace (pre ++ t ++ 10%N :: joinLines (l0 :: ls))
      with ((pre ++ t ++ [10%N]) ++ joinLines (l0 :: ls))
      by (rewrite <- !app_assoc; reflexivity).
    apply (IH _ (S num)).
    replace (length (pre ++ t ++ [10%N])) with (length pre + length t + 1)
      by (rewrite !length_app; simpl; lia).
    exact H.
Qed.

Lemma linesFrom_find (ls : list jsstring) :
  forall start num pos,
    ls <> [] -> start <= pos -> pos <= start + length (joinLines ls) ->
    exists i l,
      find (fun l => pos <=? line_to l) (linesFrom start num ls) = Some l
      /\ nth_error (linesFrom start num ls) i = Some l
      /\ line_from l <= pos /\ pos <= line_to l.
Proof.
  induction ls as [|t r IH]; intros start num pos Hne Hs Hp; [contradiction|].
  cbn [linesFrom find line_to].
  destruct (Nat.leb_spec pos (start + length t)) as [Hle|Hgt].
  - exists 0, (mkLine start (start + length t) num t).
    cbn [nth_error line_from line_to]. auto.
  - assert (Hr : r <> []) by (intros ->; simpl in Hp; lia).
    rewrite joinLines_length_cons in Hp by exact Hr.
    destruct (IH (start + length t + 1) (S num) pos Hr) as (i & l & H1 & H2 & H3);
      [lia | lia |].
    exists (S i), l. auto.
Qed.

Lemma docLines_slice (st : EditorState) (l : Line) :
  In l (docLines (doc st)) ->
  sliceDoc st (line_from l) (line_to l) = line_text l.
Proof.
  intros H. unfold sliceDoc.
  rewrite <- (joinLines_splitLines (doc st)) at 1.
  apply (linesFrom_slice (splitLines (doc st)) [] 1). exact H.
Qed.

(** [lineAt] inside the document returns the line around the position,
    whose number is its place among the lines. *)
Lemma lineAt_spec (d : Text) (pos : nat) :
  pos <= length d ->
  exists i l,
    lineAt d pos = Normal l
    /\ nth_error (docLines d) i = Some l
    /\ line_number l = S i
    /\ line_from l <= pos /\ pos <= line_to l.
Proof.
  intros Hpos. unfold lineAt.
  destruct (Nat.ltb_spec (length d) pos) as [H|_]; [lia|].
  destruct (linesFrom_find (splitLines d) 0 1 pos) as (i & l & H1 & H2 & H3 & H4).
  - apply splitLines_nonempty.
  - lia.
  - rewrite joinLines_splitLines. lia.
  - exists i, l. unfold docLines. rewrite H1.
    pose proof (linesFrom_bounds _ _ _ _ _ H2) as (Hn & _). auto.
Qed.

Lemma skipn_cons_nth_error {A : Type} (L : list A) (i : nat) (x : A) :
  nth_error L i = Some x -> skipn i L = x :: skipn (S i) L.
Proof.
  revert i; induction L as [|c r IH]; intros [|i] H; try discriminate.
  - injection H as ->. reflexivity.
  - simpl in H. apply IH in H. exact H.
Qed.

(** The loop of [getSelectedLines] collects the lines numbered from
    [lineNum] to [endNumber]. *)
Lemma selectedLinesLoop_spec (st : EditorState) (endNumber : nat) :
  endNumber <= length (docLines (doc st)) ->
  forall fuel lineNum acc,
    fuel = S endNumber - lineNum -> 1 <= lineNum ->
    selectedLinesLoop fuel st lineNum endNumber acc
    = Normal (acc ++ firstn fuel (skipn (lineNum - 1) (docLines (doc st)))).
Proof.
  intros He. induction fuel as [|fuel IH]; intros lineNum acc Hf Hn.
  - simpl. rewrite app_nil_r. reflexivity.
  - cbn [selectedLinesLoop].
    destruct (Nat.leb_spec lineNum endNumber) as [Hle|Hgt]; [|lia].
    destruct lineNum as [|k]; [lia|]. cbn [line].
    destruct (nth_error (docLines (doc st)) k) as [l|] eqn:Hk.
    + cbn [bind]. rewrite IH by lia.
      replace (S k - 1) with k by lia. replace (S (S k) - 1) with (S k) by lia.
      rewrite (skipn_cons_nth_error _ _ _ Hk). cbn [firstn].
      rewrite <- app_assoc. reflexivity.
    + apply nth_error_None in Hk. lia.
Qed.

Lemma in_range_iff {A : Type} (L : list A) (a b : nat) (x : A) :
  In x (firstn (S b - a) (skipn a L))
  <-> exists i, a <= i /\ i <= b /\ nth_error L i = Some x.
Proof.
  split.
  - intros H. apply In_nth_error in H as [k Hk].
    rewrite nth_error_firstn in Hk.
    destruct (Nat.ltb_spec k (S b - a)) as [Hlt|]; [|discriminate].
    rewrite nth_error_skipn in Hk. exists (a + k). repeat split; [lia|lia|exact Hk].
  - intros (i & Ha & Hb & Hi). apply (nth_error_In _ (i - a)).
    rewrite nth_error_firstn.
    destruct (Nat.ltb_spec (i - a) (S b - a)) as [_|Hge]; [|lia].
    rewrite nth_error_skipn. replace (a + (i - a)) with i by lia. exact Hi.
Qed.

(** For a selection inside the document, [getSelectedLines] returns: the
    lines from the one around [from] to the one around [to], which are the
    lines of the document that meet the range. *)
Lemma getSelectedLines_spec (st : EditorState) (from to : nat) :
  from <= to -> to <= length (doc st) ->
  exists lines,
    getSelectedLines st from to = Normal lines
    /\ lines <> []
    /\ (forall l, In l lines
                  <-> In l (docLines (doc st))
                      /\ from <= line_to l /\ line_from l <= to).
Proof.
  intros Hft Hto. set (L := docLines (doc st)).
  destruct (lineAt_spec (doc st) from) as (a & la & HA & Ha & Hna & Ha1 & Ha2);
    [lia|].
  destruct (lineAt_spec (doc st) to) as (b & lb & HB & Hb & Hnb & Hb1 & Hb2);
    [lia|].
  fold L in Ha, Hb.
  assert (Hord : forall i j l l', i < j -> nth_error L i = Some l ->
                                  nth_error L j = Some l' ->
                                  line_to l < line_from l')
    by (intros i j l l'; apply linesFrom_order).
  assert (Hbnd : forall i l, nth_error L i = Some l -> line_from l <= line_to l)
    by (intros i l H; apply linesFrom_bounds in H; tauto).
  assert (Hab : a <= b).
  { destruct (Nat.le_gt_cases a b) as [|Hlt]; [assumption|].
    pose proof (Hord b a lb la Hlt Hb Ha). lia. }
  exists (firstn (S b - a) (skipn a L)). split; [|split].
  - unfold getSelectedLines. rewrite HA, HB. cbn [bind]. rewrite Hna, Hnb.
    rewrite selectedLinesLoop_spec.
    + replace (S a - 1) with a by lia. reflexivity.
    + assert (b < length L) by (apply nth_error_Some; rewrite Hb; discriminate).
      fold L. lia.
    + reflexivity.
    + lia.
  - intros E. assert (Hin : In la (firstn (S b - a) (skipn a L))).
    { apply in_range_iff. exists a. auto. }
    rewrite E in Hin. exact Hin.
  - intros l. rewrite in_range_iff. split.
    + intros (i & Hai & Hib & Hi). split; [apply (nth_error_In _ _ Hi)|].
      pose proof (Hbnd _ _ Hi). split.
      * destruct (Nat.eq_dec a i) as [<-|Hne].
        -- rewrite Ha in Hi. injection Hi as <-. exact Ha2.
        -- assert (Hlt : a < i) by lia.
           pose proof (Hord _ _ _ _ Hlt Ha Hi). lia.
      * destruct (Nat.eq_dec i b) as [->|Hne].
        -- rewrite Hb in Hi. injection Hi as <-. exact Hb1.
        -- assert (Hlt : i < b) by lia.
           pose proof (Hord _ _ _ _ Hlt Hi Hb). lia.
    + intros (Hin & H1 & H2). apply In_nth_error in Hin as [i Hi].
      exists i. repeat split; [| |exact Hi].
      * destruct (Nat.le_gt_cases a i) as [|Hlt]; [assumption|].
        pose proof (Hord _ _ _ _ Hlt Hi Ha). lia.
      * destruct (Nat.le_gt_cases i b) as [|Hlt]; [assumption|].
        pose proof (Hord _ _ _ _ Hlt Hb Hi). lia.
Qed.

(* ================================================================== *)
(** * The selection-context resolver *)
(* ================================================================== *)

Lemma hasInlineFormat_iff (st : EditorState) (lines : list Line)
    (checker : jsstring -> bool) :
  (forall l, In l lines -> sliceDoc st (line_from l) (line_to l) = line_text l) ->
  hasInlineFormatInSelection st lines checker = true
  <-> exists l, In l lines /\ checker (line_text l) = true.
Proof.
  intros Hs. unfold hasInlineFormatInSelection. rewrite existsb_exists.
  split; intros (l & Hin & H); exists l; split; try assumption.
  - rewrite <- (Hs l Hin). exact H.
  - cbv zeta. rewrite (Hs l Hin). exact H.
Qed.

Lemma allLines_iff (st : EditorState) (lines : list Line)
    (checker : jsstring -> bool) :
  (forall l, In l lines -> sliceDoc st (line_from l) (line_to l) = line_text l) ->
  forallb (fun l => checker (sliceDoc st (line_from l) (line_to l))) lines = true
  <-> forall l, In l lines -> checker (line_text l) = true.
Proof.
  intros Hs. rewrite forallb_forall.
  split; intros H l Hin; specialize (H l Hin).
  - rewrite <- (Hs l Hin). exact H.
  - rewrite (Hs l Hin). exact H.
Qed.

(** For a real selection, the lines the specification calls touched are
    the lines that hold a selected position. *)
Lemma specTouches_iff (from to : nat) (l : Line) :
  from < to -> line_from l <= line_to l ->
  specTouches from to l = true
  <-> exists pos, from <= pos /\ pos < to
                  /\ line_from l <= pos /\ pos <= line_to l.
Proof.
  intros Hft Hl. unfold specTouches.
  destruct (Nat.eqb_spec from to) as [E|_]; [lia|].
  rewrite andb_true_iff, Nat.ltb_lt, Nat.leb_le. split.
  - intros [H1 H2]. exists (Nat.max from (line_from l)). lia.
  - intros (pos & H1 & H2 & H3 & H4). lia.
Qed.

(** C1, as the code has it: for every document and every selection range
    inside it, the resolver returns a [FormatState], computed from the lines
    [getSelectedLines] returns: the lines from the one around [from] to the
    one around [to], each read in full.  These are the lines that overlap
    the selection, a line being taken with the line break that ends it,
    and, when a real selection ends exactly where a line starts, that line
    as well, although none of its characters is selected.
    Every inline flag (bold, italic, underline, strikethrough) is set iff at
    least one of these lines satisfies the detector of the style, and the
    bullet flag is set iff every one of them satisfies the bullet
    detector. *)
Theorem C1_resolver_any_inline_all_bullet (st : EditorState) (from to : nat)
    (Hft : from <= to) (Hto : to <= length (doc st)) :
  exists lines fs,
    getSelectedLines st from to = Normal lines
    /\ lines <> []
    /\ (forall l, In l lines
                  <-> In l (docLines (doc st))
                      /\ from <= line_to l /\ line_from l <= to)
    /\ (forall l, In l lines
                  <-> In l (specTouchedLines st from to)
                      \/ (from < to /\ In l (docLines (doc st))
                          /\ line_from l = to))
    /\ (forall l, In l lines ->
                  sliceDoc st (line_from l) (line_to l) = line_text l)
    /\ detectAdvancedFormatState st from to = Normal fs
    /\ (fs_bold fs = true
        <-> exists l, In l lines /\ isBold (line_text l) = true)
    /\ (fs_italic fs = true
        <-> exists l, In l lines /\ isItalic (line_text l) = true)
    /\ (fs_underline fs = true
        <-> exists l, In l lines /\ isUnderline (line_text l) = true)
    /\ (fs_strikethrough fs = true
        <-> exists l, In l lines /\ isStrikethrough (line_text l) = true)
    /\ (fs_bullet fs = true
        <-> forall l, In l lines -> isBulletList (line_text l) = true).
Proof.
  destruct (getSelectedLines_spec st from to Hft Hto) as (lines & HL & Hne & Hin).
  assert (Hs : forall l, In l lines ->
                         sliceDoc st (line_from l) (line_to l) = line_text l).
  { intros l Hl. apply docLines_slice. apply Hin in Hl. tauto. }
  assert (Hsp : forall l, In l lines
                          <-> In l (specTouchedLines st from to)
                              \/ (from < to /\ In l (docLines (doc st))
                                  /\ line_from l = to)).
  { intros l. rewrite Hin. unfold specTouchedLines, specTouches.
    rewrite filter_In.
    assert (B : In l (docLines (doc st)) -> line_from l <= line_to l).
    { intros H. apply In_nth_error in H as [i Hi].
      apply linesFrom_bounds in Hi. tauto. }
    destruct (Nat.eqb_spec from to) as [E|E];
      rewrite andb_true_iff, ?Nat.leb_le, ?Nat.ltb_lt; split.
    - intros (H & H1 & H2). left. split; [exact H | lia].
    - intros [(H & H1 & H2)|(H & _)]; [|lia]. split; [exact H | lia].
    - intros (H & H1 & H2).
      destruct (Nat.eq_dec (line_from l) to) as [Eq|Ne].
      + right. split; [lia|]. split; assumption.
      + left. split; [exact H | lia].
    - intros [(H & H1 & H2)|(H & H1 & H2)].
      + split; [exact H | lia].
      + split; [exact H1|]. specialize (B H1). lia. }
  assert (Hlen : 0 < length lines)
    by (destruct lines; [contradiction | simpl; lia]).
  unfold detectAdvancedFormatState. rewrite HL. cbn [bind].
  destruct (Nat.eqb_spec (length lines) 0) as [H0|_]; [lia|].
  destruct (Nat.ltb_spec 0 (length lines)) as [_|H0]; [|lia].
  eexists lines, _. repeat match goal with |- _ /\ _ => split end;
    try reflexivity; try assumption; cbn [fs_bold fs_italic fs_underline
                                          fs_strikethrough fs_bullet].
  - apply hasInlineFormat_iff, Hs.
  - apply hasInlineFormat_iff, Hs.
  - apply hasInlineFormat_iff, Hs.
  - apply hasInlineFormat_iff, Hs.
  - cbn [andb]. apply (allLines_iff st lines isBulletList Hs).
Qed.

Lemma C1_resolver_any_inline_all_bullet_witness :
  let st := stateOf ("<b>one</b>" ++ nl ++ "- two" ++ nl ++ "three") 0 0 in
  2 <= 13 /\ 13 <= length (doc st)
  /\ exists lines fs,
      getSelectedLines st 2 13 = Normal lines
      /\ lines <> []
      /\ (forall l, In l lines
                    <-> In l (docLines (doc st))
                        /\ 2 <= line_to l /\ line_from l <= 13)
      /\ (forall l, In l lines
                    <-> In l (specTouchedLines st 2 13)
                        \/ (2 < 13 /\ In l (docLines (doc st))
                            /\ line_from l = 13))
      /\ (forall l, In l lines ->
                    sliceDoc st (line_from l) (line_to l) = line_text l)
      /\ detectAdvancedFormatState st 2 13 = Normal fs
      /\ (fs_bold fs = true
          <-> exists l, In l lines /\ isBold (line_text l) = true)
      /\ (fs_italic fs = true
          <-> exists l, In l lines /\ isItalic (line_text l) = true)
      /\ (fs_underline fs = true
          <-> exists l, In l lines /\ isUnderline (line_text l) = true)
      /\ (fs_strikethrough fs = true
          <-> exists l, In l lines /\ isStrikethrough (line_text l) = true)
      /\ (fs_bullet fs = true
          <-> forall l, In l lines -> isBulletList (line_text l) = true).
Proof.
  intros st.
  assert (H1 : 2 <= 13) by lia.
  assert (H2 : 13 <= length (doc st)) by (vm_compute; lia).
  split; [exact H1|]. split; [exact H2|].
  exact (C1_resolver_any_inline_all_bullet st 2 13 H1 H2).
Defined.

(** C1 as stated fails when a selection ends exactly where a line starts.
    In ["abc\n<b>x</b>"] the range from 0 to 4 selects ["abc"] and the line
    break; no position of the selection lies in the second line, so the
    first line is the only touched one and it is not bold, yet the resolver
    sets the bold flag, from the second line.  In ["- a\nb"] with the same
    range every touched line is a bullet item, yet the bullet flag is
    off. *)
Theorem C1_line_after_selection_counts :
  let st := stateOf ("abc" ++ nl ++ "<b>x</b>") 0 4 in
  let st' := stateOf ("- a" ++ nl ++ "b") 0 4 in
  sliceDoc st 0 4 = lit ("abc" ++ nl)
  /\ docLines (doc st)
     = [mkLine 0 3 1 (lit "abc"); mkLine 4 12 2 (lit "<b>x</b>")]
  /\ (forall pos, 0 <= pos -> pos < 4 -> ~ (4 <= pos /\ pos <= 12))
  /\ specTouchedLines st 0 4 = [mkLine 0 3 1 (lit "abc")]
  /\ detectAdvancedFormatState st 0 4
     = Normal (mkFormatState true false false false false false false false)
  /\ ~ (exists l, In l (specTouchedLines st 0 4)
                  /\ isBold (line_text l) = true)
  /\ specTouchedLines st' 0 4 = [mkLine 0 3 1 (lit "- a")]
  /\ detectAdvancedFormatState st' 0 4
     = Normal (mkFormatState false false false false false false false false)
  /\ (forall l, In l (specTouchedLines st' 0 4)
                -> isBulletList (line_text l) = true)
  /\ ~ (forall (s : EditorState) (from to : nat),
          from <= to -> to <= length (doc s) ->
          exists fs,
            detectAdvancedFormatState s from to = Normal fs
            /\ (fs_bold fs = true
                <-> exists l, In l (specTouchedLines s from to)
                              /\ isBold (line_text l) = true)
            /\ (fs_bullet fs = true
                <-> forall l, In l (specTouchedLines s from to)
                              -> isBulletList (line_text l) = true)).
Proof.
  intros st st'.
  assert (NB : ~ (exists l, In l (specTouchedLines st 0 4)
                            /\ isBold (line_text l) = true)).
  { intros (l & Hl & Hb). vm_compute in Hl.
    destruct Hl as [<-|[]]. vm_compute in Hb. discriminate. }
  repeat match goal with |- _ /\ _ => split end;
    try reflexivity; try exact NB.
  - intros pos _ H [H1 _]. lia.
  - intros l Hl. vm_compute in Hl. destruct Hl as [<-|[]]. reflexivity.
  - intros H. destruct (H st 0 4) as (fs & Hfs & Hbold & _).
    + lia.
    + vm_compute. lia.
    + apply NB. apply Hbold.
      assert (E : detectAdvancedFormatState st 0 4
                  = Normal (mkFormatState true false false false false false
                              false false)) by reflexivity.
      rewrite E in Hfs. injection Hfs as <-. reflexivity.
Qed.

Example resolver_any_vs_all :
  detectAdvancedFormatState
    (stateOf ("<b>one</b>" ++ nl ++ "two") 0 14) 0 14
  = Normal (mkFormatState true false false false false false false false)
  /\ detectAdvancedFormatState
       (stateOf ("- one" ++ nl ++ "two") 0 9) 0 9
     = Normal (mkFormatState false false false false false false false false)
  /\ detectAdvancedFormatState
       (stateOf ("- one" ++ nl ++ "* two") 0 11) 0 11
     = Normal (mkFormatState false false false false false false false true).
Proof. repeat split. Qed.

(** C2: when the selection touches more than one line, the resolved
    [FormatState] has h1, h2 and h3 all false, whatever the lines are. *)
Theorem C2_multiline_selection_no_heading (st : EditorState) (from to : nat)
    (lines : list Line)
    (Hlines : getSelectedLines st from to = Normal lines)
    (Hmulti : 1 < length lines) :
  exists fs,
    detectAdvancedFormatState st from to = Normal fs
    /\ fs_h1 fs = false /\ fs_h2 fs = false /\ fs_h3 fs = false.
Proof.
  unfold detectAdvancedFormatState. rewrite Hlines. cbn [bind].
  destruct (Nat.eqb_spec (length lines) 0) as [H|_]; [lia|].
  destruct (Nat.eqb_spec (length lines) 1) as [H|_]; [lia|].
  eexists. split; [reflexivity|]. repeat split.
Qed.

Lemma C2_multiline_selection_no_heading_witness :
  let st := stateOf ("# a" ++ nl ++ "# b") 0 7 in
  exists lines,
    getSelectedLines st 0 7 = Normal lines
    /\ 1 < length lines
    /\ forallb (fun l => isH1 (line_text l)) lines = true
    /\ exists fs,
        detectAdvancedFormatState st 0 7 = Normal fs
        /\ fs_h1 fs = false /\ fs_h2 fs = false /\ fs_h3 fs = false.
Proof.
  intros st.
  exists [mkLine 0 3 1 (lit "# a"); mkLine 4 7 2 (lit "# b")].
  assert (H1 : getSelectedLines st 0 7
               = Normal [mkLine 0 3 1 (lit "# a"); mkLine 4 7 2 (lit "# b")])
    by reflexivity.
  assert (H2 : 1 < length [mkLine 0 3 1 (lit "# a"); mkLine 4 7 2 (lit "# b")])
    by (simpl; lia).
  split; [exact H1|]. split; [exact H2|]. split; [reflexivity|].
  exact (C2_multiline_selection_no_heading st 0 7 _ H1 H2).
Defined.

(* ================================================================== *)
(** * The toggle orchestrator *)
(* ================================================================== *)

(** A caret touches one line. *)
Lemma getSelectedLines_caret (st : EditorState) (pos : nat) (lines : list Line) :
  getSelectedLines st pos pos = Normal lines -> length lines = 1.
Proof.
  unfold getSelectedLines.
  destruct (lineAt (doc st) pos) as [l|e]; [|discriminate]. cbn [bind].
  replace (S (line_number l) - line_number l) with 1 by lia.
  cbn [selectedLinesLoop]. rewrite Nat.leb_refl.
  destruct (line (doc st) (line_number l)) as [l'|e]; [|discriminate].
  cbn [bind app]. intros [= <-]. reflexivity.
Qed.

Lemma docAfter_warning (d : Text) (msg : jsstring) :
  docAfter d [ConsoleWarn msg] = d.
Proof. reflexivity. Qed.

(** C3: an inline format requested with a caret-only selection, and a
    heading requested on a selection touching more than one line, are
    refused: [applyFormatting] completes normally, all it does is one
    console warning, it dispatches no edit and the document is what it
    was. *)
Theorem C3_orchestrator_refusals (view : EditorView) (formatType : FormatType)
    (Hcase :
       let sel := selection_main (state view) in
       (In formatType [bold; italic; underline; strikethrough]
        /\ sel_from sel = sel_to sel
        /\ sel_to sel <= length (doc (state view)))
       \/ (In formatType [h1; h2; h3]
           /\ exists lines,
               getSelectedLines (state view) (sel_from sel) (sel_to sel)
               = Normal lines
               /\ 1 < length lines)) :
  exists effects msg,
    applyFormatting (Some view) formatType = Normal effects
    /\ effects = [ConsoleWarn msg]
    /\ issuesNoEdit effects = true
    /\ docAfter (doc (state view)) effects = doc (state view).
Proof.
  cbv zeta in Hcase. unfold applyFormatting.
  destruct Hcase as [(Hfmt & Hsel & Hin) | (Hfmt & lines & HL & Hlen)].
  - rewrite Hsel, Nat.eqb_refl.
    destruct (lineAt_spec (doc (state view))
                (sel_to (selection_main (state view))) Hin)
      as (i & l & Hl & _).
    rewrite Hl. cbn [bind].
    assert (E : negb (isHeaderType formatType)
                && negb (isBulletType formatType) = true).
    { simpl in Hfmt.
      destruct Hfmt as [<-|[<-|[<-|[<-|[]]]]]; reflexivity. }
    rewrite E. eexists _, _. repeat split.
  - destruct (Nat.eqb_spec (sel_from (selection_main (state view)))
                (sel_to (selection_main (state view)))) as [Heq|Hneq].
    + rewrite Heq in HL. apply getSelectedLines_caret in HL. lia.
    + rewrite HL. cbn [bind].
      destruct (Nat.eqb_spec (length lines) 1) as [H|_]; [lia|].
      assert (E : isHeaderType formatType = true).
      { simpl in Hfmt. destruct Hfmt as [<-|[<-|[<-|[]]]]; reflexivity. }
      rewrite E. cbn [andb negb]. eexists _, _. repeat split.
Qed.

Lemma C3_orchestrator_refusals_witness :
  (exists effects msg,
      applyFormatting (viewOf ("Hello world" ++ nl ++ "second") 3 3) italic
      = Normal effects
      /\ effects = [ConsoleWarn msg]
      /\ issuesNoEdit effects = true
      /\ docAfter (lit ("Hello world" ++ nl ++ "second")) effects
         = lit ("Hello world" ++ nl ++ "second"))
  /\ (exists effects msg,
         applyFormatting (viewOf ("Hello world" ++ nl ++ "second") 3 14) h2
         = Normal effects
         /\ effects = [ConsoleWarn msg]
         /\ issuesNoEdit effects = true
         /\ docAfter (lit ("Hello world" ++ nl ++ "second")) effects
            = lit ("Hello world" ++ nl ++ "second")).
Proof.
  split.
  - apply (C3_orchestrator_refusals
             (mkEditorView (stateOf ("Hello world" ++ nl ++ "second") 3 3))
             italic).
    left. split; [simpl; tauto|]. split; [reflexivity|]. vm_compute. lia.
  - apply (C3_orchestrator_refusals
             (mkEditorView (stateOf ("Hello world" ++ nl ++ "second") 3 14))
             h2).
    right. split; [simpl; tauto|].
    exists [mkLine 0 11 1 (lit "Hello world"); mkLine 12 18 2 (lit "second")].
    split; [reflexivity | simpl; lia].
Defined.

(* ================================================================== *)
(** * More on the style detectors and appliers *)
(* ================================================================== *)

Lemma startsWith_firstn (t p : jsstring) :
  startsWith t p = true -> firstn (length p) t = p.
Proof. unfold startsWith. apply jsstring_eqb_eq. Qed.

Lemma firstn_1_of_2 (t : jsstring) (a b : char) :
  firstn 2 t = [a; b] -> firstn 1 t = [a].
Proof. destruct t as [|x [|y r]]; simpl; congruence. Qed.

Lemma isBold_prefix (s : jsstring) :
  isBold s = true -> firstn 2 (trim s) = [ch "<"; ch "b"].
Proof.
  intros H. apply boldWrapped_iff in H as [mid [_ H]]. rewrite H. reflexivity.
Qed.

Lemma isItalic_italicWrapped (s : jsstring) :
  isItalic s = italicWrapped (trim s).
Proof.
  unfold isItalic. destruct (italicWrapped (trim s)) eqn:E.
  - apply italicWrapped_iff in E as [mid [_ E]]. rewrite E.
    rewrite applyItalic_not_bold. reflexivity.
  - destruct (_ || _); reflexivity.
Qed.

Lemma isItalic_prefix (s : jsstring) :
  isItalic s = true -> firstn 2 (trim s) = [ch "<"; ch "i"].
Proof.
  rewrite isItalic_italicWrapped. intros H.
  apply italicWrapped_iff in H as [mid [_ H]]. rewrite H. reflexivity.
Qed.

Lemma isUnderline_prefix (s : jsstring) :
  isUnderline s = true -> firstn 2 (trim s) = [ch "<"; ch "u"].
Proof.
  intros H. apply isUnderline_iff in H as [mid [_ H]]. rewrite H. reflexivity.
Qed.

Lemma isStrikethrough_prefix (s : jsstring) :
  isStrikethrough s = true -> firstn 2 (trim s) = [ch "~"; ch "~"].
Proof.
  intros H. apply isStrikethrough_iff in H as [mid [_ H]].
  rewrite H. reflexivity.
Qed.

Lemma takeWhile_hash_repeat (t : jsstring) :
  takeWhile is_hash t = repeat (ch "#") (length (takeWhile is_hash t)).
Proof.
  induction t as [|c r IH]; [reflexivity|]. cbn [takeWhile].
  destruct (is_hash c) eqn:E; [|reflexivity].
  cbn [length repeat]. rewrite <- IH. f_equal.
  unfold is_hash, char_eqb in E. apply N.eqb_eq in E. exact E.
Qed.

Lemma charAtIs_app_length (a b : jsstring) (c : char) :
  charAtIs (a ++ b) (length a) c = true -> exists r, b = c :: r.
Proof.
  unfold charAtIs. rewrite nth_error_app2, Nat.sub_diag by lia.
  destruct b as [|x r]; [discriminate|]. simpl. unfold char_eqb.
  intros H. apply N.eqb_eq in H. subst x. eauto.
Qed.

(** A text has header level [k > 0] exactly when its trimmed form is [k]
    (at most three) ['#'] characters, a space and the rest. *)
Lemma getHeaderLevel_shape (s : jsstring) (k : nat) :
  k <> 0 ->
  getHeaderLevel s = k
  <-> k <= 3 /\ exists rest, trim s = repeat (ch "#") k ++ ch " " :: rest.
Proof.
  intros Hk. rewrite getHeaderLevel_spec. cbv zeta.
  set (t := trim s). split.
  - intros H.
    destruct ((0 <? length (takeWhile is_hash t))
              && (length (takeWhile is_hash t) <=? 3)
              && charAtIs t (length (takeWhile is_hash t)) (ch " ")) eqn:C;
      [|congruence].
    apply andb_true_iff in C as [C C3]. apply andb_true_iff in C as [C1 C2].
    apply Nat.leb_le in C2. subst k. split; [exact C2|].
    rewrite (takeWhile_dropWhile is_hash t) in C3 at 1.
    apply charAtIs_app_length in C3 as [r Hr]. exists r.
    rewrite <- Hr, <- takeWhile_hash_repeat. apply takeWhile_dropWhile.
  - intros [Hle [rest Ht]]. rewrite Ht.
    assert (E : takeWhile is_hash (repeat (ch "#") k ++ ch " " :: rest)
                = repeat (ch "#") k).
    { clear. induction k as [|k IH]; [reflexivity|].
      cbn [repeat app takeWhile]. rewrite IH. reflexivity. }
    rewrite E, repeat_length.
    replace (0 <? k) with true by (symmetry; apply Nat.ltb_lt; lia).
    replace (k <=? 3) with true by (symmetry; apply Nat.leb_le; lia).
    unfold charAtIs. rewrite nth_error_app2 by (rewrite repeat_length; lia).
    rewrite repeat_length, Nat.sub_diag. reflexivity.
Qed.

Lemma header_prefix (s : jsstring) :
  getHeaderLevel s <> 0 -> firstn 1 (trim s) = [ch "#"].
Proof.
  intros H.
  destruct (proj1 (getHeaderLevel_shape s (getHeaderLevel s) H) eq_refl)
    as [_ [rest Ht]].
  rewrite Ht. destruct (getHeaderLevel s); [contradiction|reflexivity].
Qed.

Lemma isBulletList_shape (s : jsstring) :
  isBulletList s = true
  <-> exists c w r,
      trim s = c :: w :: r /\ is_bullet_mark c = true /\ is_ws w = true.
Proof.
  unfold isBulletList. rewrite regexTest_bullet.
  destruct (trim s) as [|c [|w r]].
  - split; [discriminate | intros (c & w & r & H & _); discriminate].
  - cbn [startsIn]. rewrite andb_false_r.
    split; [discriminate | intros (c' & w & r & H & _); discriminate].
  - cbn [startsIn]. rewrite andb_true_iff. split.
    + intros [H1 H2]. exists c, w, r. auto.
    + intros (c' & w' & r' & [= -> -> ->] & H1 & H2). auto.
Qed.

Lemma isBulletList_prefix (s : jsstring) :
  isBulletList s = true ->
  firstn 1 (trim s) = [ch "-"] \/ firstn 1 (trim s) = [ch "*"].
Proof.
  intros H. apply isBulletList_shape in H as (c & w & r & Ht & Hc & _).
  rewrite Ht. unfold is_bullet_mark, char_eqb in Hc.
  apply orb_true_iff in Hc as [Hc|Hc]; apply N.eqb_eq in Hc; subst c; auto.
Qed.

Ltac norm_chars :=
  repeat match goal with
         | H : context [ch ?a] |- _ =>
             let v := eval vm_compute in (ch a) in change (ch a) with v in H
         end.

(** X1: the detectors exclude each other: for every text at most one of
    the eight flags of [detectFormatState] is set. *)
Theorem detectFormatState_at_most_one_style (s : jsstring) :
  activeStyles (detectFormatState s) <= 1.
Proof.
  unfold activeStyles, detectFormatState, isH1, isH2, isH3.
  cbn [fs_bold fs_italic fs_underline fs_strikethrough fs_h1 fs_h2 fs_h3
       fs_bullet].
  pose proof (isBold_prefix s) as Hb.
  pose proof (isItalic_prefix s) as Hi.
  pose proof (isUnderline_prefix s) as Hu.
  pose proof (isStrikethrough_prefix s) as Hs.
  pose proof (header_prefix s) as Hh.
  pose proof (isBulletList_prefix s) as Hl.
  assert (Hb1 : isBold s = true -> firstn 1 (trim s) = [ch "<"])
    by (intros H; eapply firstn_1_of_2; apply Hb, H).
  assert (Hi1 : isItalic s = true -> firstn 1 (trim s) = [ch "<"])
    by (intros H; eapply firstn_1_of_2; apply Hi, H).
  assert (Hu1 : isUnderline s = true -> firstn 1 (trim s) = [ch "<"])
    by (intros H; eapply firstn_1_of_2; apply Hu, H).
  assert (Hs1 : isStrikethrough s = true -> firstn 1 (trim s) = [ch "~"])
    by (intros H; eapply firstn_1_of_2; apply Hs, H).
  destruct (isBold s), (isItalic s), (isUnderline s), (isStrikethrough s),
    (isBulletList s);
    repeat match goal with
           | H : true = true -> _ |- _ => specialize (H eq_refl)
           | H : false = true -> _ |- _ => clear H
           | H : _ \/ _ |- _ => destruct H
           end;
    norm_chars; try congruence;
    (destruct (getHeaderLevel s) as [|[|[|[|n]]]];
     [ simpl; lia | | | | ];
     try (simpl; lia);
     assert (Hne : firstn 1 (trim s) = [ch "#"]) by (apply Hh; discriminate);
     norm_chars; congruence).
Qed.

Lemma dropWhile_app_keep (f : char -> bool) (a b : jsstring) :
  dropWhile f a <> [] -> dropWhile f (a ++ b) = dropWhile f a ++ b.
Proof.
  induction a as [|c a IH]; cbn [dropWhile app]; [contradiction|].
  destruct (f c); [exact IH | reflexivity].
Qed.

Lemma dropWhile_all_nil (f : char -> bool) (a : jsstring) :
  forallb f a = true -> dropWhile f a = [].
Proof.
  intros H. rewrite <- (app_nil_r a). rewrite dropWhile_app_all by exact H.
  reflexivity.
Qed.

Lemma forallb_rev (f : char -> bool) (a : jsstring) :
  forallb f (rev a) = forallb f a.
Proof.
  induction a as [|c a IH]; [reflexivity|].
  cbn [rev forallb]. rewrite forallb_app, IH. cbn [forallb].
  rewrite andb_true_r. apply andb_comm.
Qed.

Lemma trimEnd_app_ws (a r : jsstring) :
  forallb is_ws r = true -> trimEnd (a ++ r) = trimEnd a.
Proof.
  intros H. unfold trimEnd. rewrite rev_app_distr.
  rewrite dropWhile_app_all by (rewrite forallb_rev; exact H). reflexivity.
Qed.

(** Whitespace added around a text is trimmed away with its own. *)
Lemma trim_padding (l s r : jsstring) :
  forallb is_ws l = true -> forallb is_ws r = true ->
  trim (l ++ s ++ r) = trim s.
Proof.
  intros Hl Hr. unfold trim, trimStart.
  rewrite dropWhile_app_all by exact Hl.
  destruct (dropWhile is_ws s) as [|c d] eqn:E.
  - assert (Hs : forallb is_ws s = true).
    { rewrite (takeWhile_dropWhile is_ws s), E, app_nil_r.
      apply takeWhile_all. }
    rewrite dropWhile_app_all by exact Hs.
    rewrite dropWhile_all_nil by exact Hr. reflexivity.
  - rewrite dropWhile_app_keep by (rewrite E; discriminate).
    rewrite E. apply trimEnd_app_ws, Hr.
Qed.

Lemma detectFormatState_of_trim (a b : jsstring) :
  trim a = trim b -> detectFormatState a = detectFormatState b.
Proof.
  intros H.
  unfold detectFormatState, isBold, isItalic, isUnderline, isStrikethrough,
    isH1, isH2, isH3, getHeaderLevel, isBulletList.
  rewrite H. reflexivity.
Qed.

(** X2: whitespace around a text never changes what is detected: padding
    a text with whitespace on either side, or trimming it, leaves all eight
    flags as they are. *)
Theorem detectFormatState_ignores_padding (l s r : jsstring)
    (Hl : forallb is_ws l = true) (Hr : forallb is_ws r = true) :
  detectFormatState (l ++ s ++ r) = detectFormatState s
  /\ detectFormatState (trim s) = detectFormatState s.
Proof.
  split; apply detectFormatState_of_trim.
  - apply trim_padding; assumption.
  - apply trim_idem.
Qed.

Lemma detectFormatState_ignores_padding_witness :
  forallb is_ws (lit "  ") = true
  /\ forallb is_ws (lit " ") = true
  /\ detectFormatState (lit "  " ++ lit "<b>x</b>" ++ lit " ")
     = detectFormatState (lit "<b>x</b>")
  /\ detectFormatState (trim (lit "<b>x</b>"))
     = detectFormatState (lit "<b>x</b>").
Proof.
  split; [reflexivity|]. split; [reflexivity|].
  apply (detectFormatState_ignores_padding (lit "  ") (lit "<b>x</b>")
           (lit " ")); reflexivity.
Defined.

(** X3: a text is an H1, H2 or H3 exactly when its trimmed form is one,
    two or three ['#'] characters followed by a space; longer runs of ['#']
    are no heading, so the level is never above three. *)
Theorem heading_detectors_shape (s : jsstring) :
  (isH1 s = true <-> exists rest, trim s = lit "# " ++ rest)
  /\ (isH2 s = true <-> exists rest, trim s = lit "## " ++ rest)
  /\ (isH3 s = true <-> exists rest, trim s = lit "### " ++ rest)
  /\ getHeaderLevel s <= 3
  /\ (forall hashes rest,
         3 < length hashes -> forallb is_hash hashes = true ->
         trim s = hashes ++ rest -> getHeaderLevel s = 0).
Proof.
  unfold isH1, isH2, isH3. rewrite !Nat.eqb_eq.
  rewrite (getHeaderLevel_shape s 1), (getHeaderLevel_shape s 2),
    (getHeaderLevel_shape s 3) by discriminate.
  repeat match goal with |- _ /\ _ => split end.
  - split; [intros [_ H]; exact H | intros H; split; [lia | exact H]].
  - split; [intros [_ H]; exact H | intros H; split; [lia | exact H]].
  - split; [intros [_ H]; exact H | intros H; split; [lia | exact H]].
  - apply getHeaderLevel_le_3.
  - intros hashes rest Hlen Hall Ht.
    rewrite getHeaderLevel_spec. cbv zeta. rewrite Ht.
    assert (Hk : length hashes <= length (takeWhile is_hash (hashes ++ rest))).
    { clear -Hall. induction hashes as [|c h IH]; [simpl; lia|].
      cbn [forallb] in Hall. apply andb_true_iff in Hall as [Hc Hall].
      cbn [app takeWhile]. rewrite Hc. cbn [length]. specialize (IH Hall). lia. }
    destruct (Nat.leb_spec (length (takeWhile is_hash (hashes ++ rest))) 3);
      [lia|].
    rewrite andb_false_r. reflexivity.
Qed.

Lemma heading_detectors_shape_witness :
  3 < length (lit "####") /\ forallb is_hash (lit "####") = true
  /\ trim (lit "#### deep ") = lit "####" ++ lit " deep"
  /\ getHeaderLevel (lit "#### deep ") = 0.
Proof.
  assert (H1 : 3 < length (lit "####")) by (simpl; lia).
  assert (H2 : forallb is_hash (lit "####") = true) by reflexivity.
  assert (H3 : trim (lit "#### deep ") = lit "####" ++ lit " deep")
    by reflexivity.
  split; [exact H1|]. split; [exact H2|]. split; [exact H3|].
  exact (proj2 (proj2 (proj2 (proj2 (heading_detectors_shape (lit "#### deep ")))))
           (lit "####") (lit " deep") H1 H2 H3).
Defined.

Lemma is_ws_not_hash (c : char) : is_ws c = true -> is_hash c = false.
Proof.
  intros H. destruct (is_hash c) eqn:E; [|reflexivity].
  rewrite (is_hash_not_ws c E) in H. discriminate.
Qed.

Lemma startsIn_app_nonempty (f : char -> bool) (a b : jsstring) :
  a <> [] -> startsIn f (a ++ b) = startsIn f a.
Proof. destruct a; [contradiction | reflexivity]. Qed.

Lemma startsIn_all (f : char -> bool) (a : jsstring) :
  a <> [] -> forallb f a = true -> startsIn f a = true.
Proof.
  destruct a as [|c r]; [contradiction|]. cbn [forallb startsIn].
  intros _ H. apply andb_true_iff in H. tauto.
Qed.

Lemma takeWhile_app_all (f : char -> bool) (a b : jsstring) :
  forallb f a = true -> takeWhile f (a ++ b) = a ++ takeWhile f b.
Proof.
  induction a as [|c a IH]; [reflexivity|]. cbn [forallb app takeWhile].
  intros H. apply andb_true_iff in H as [-> H]. rewrite IH by exact H.
  reflexivity.
Qed.

Lemma takeWhile_stop (f : char -> bool) (a : jsstring) :
  startsIn f a = false -> takeWhile f a = [].
Proof. destruct a as [|c r]; [reflexivity|]. cbn. intros ->. reflexivity. Qed.

Section MarkedText.
Variables hashes ws c : jsstring.
Hypothesis hashes_nonempty : hashes <> [].
Hypothesis hashes_all : forallb is_hash hashes = true.
Hypothesis ws_nonempty : ws <> [].
Hypothesis ws_all : forallb is_ws ws = true.
Hypothesis c_nonempty : c <> [].
Hypothesis c_trimmed : trim c = c.

Lemma ws_starts_no_hash : startsIn is_hash (ws ++ c) = false.
Proof.
  pose proof ws_nonempty as Hn. pose proof ws_all as Ha.
  destruct ws as [|w r]; [contradiction|]. cbn [forallb] in Ha.
  apply andb_true_iff in Ha as [Hw _]. apply is_ws_not_hash, Hw.
Qed.

Lemma marked_trimmed : trim (hashes ++ ws ++ c) = hashes ++ ws ++ c.
Proof.
  pose proof (proj1 (trim_fixed_iff c) c_trimmed) as [_ He]. apply trim_fixed.
  - rewrite startsIn_app_nonempty by exact hashes_nonempty.
    pose proof hashes_nonempty as Hn. pose proof hashes_all as Ha.
    destruct hashes as [|h r]; [contradiction|]. cbn [forallb] in Ha.
    apply andb_true_iff in Ha as [Hh _]. apply is_hash_not_ws, Hh.
  - rewrite app_assoc, endsIn_app by exact c_nonempty. exact He.
Qed.

Lemma marked_strip : specStripHeaderPrefix (hashes ++ ws ++ c) = c.
Proof.
  pose proof (proj1 (trim_fixed_iff c) c_trimmed) as [Hs _].
  unfold specStripHeaderPrefix.
  rewrite dropWhile_app_all by exact hashes_all.
  rewrite (dropWhile_fixed is_hash (ws ++ c) ws_starts_no_hash).
  rewrite !startsIn_app_nonempty by assumption.
  rewrite (startsIn_all is_hash hashes hashes_nonempty hashes_all).
  rewrite (startsIn_all is_ws ws ws_nonempty ws_all). cbn [andb].
  rewrite dropWhile_app_all by exact ws_all. apply dropWhile_fixed, Hs.
Qed.

Lemma marked_removeHeader : removeHeader (hashes ++ ws ++ c) = c.
Proof. rewrite removeHeader_spec, marked_trimmed. apply marked_strip. Qed.

Lemma marked_getHeaderLevel :
  getHeaderLevel (hashes ++ ws ++ c)
  = (if (length hashes <=? 3) && startsIn (fun x => char_eqb x (ch " ")) ws
     then length hashes else 0).
Proof.
  rewrite getHeaderLevel_spec. cbv zeta. rewrite marked_trimmed.
  rewrite takeWhile_app_all by exact hashes_all.
  rewrite (takeWhile_stop is_hash (ws ++ c) ws_starts_no_hash), app_nil_r.
  assert (Hpos : (0 <? length hashes) = true).
  { apply Nat.ltb_lt. destruct hashes; [contradiction | simpl; lia]. }
  rewrite Hpos. cbn [andb]. unfold charAtIs.
  rewrite nth_error_app2, Nat.sub_diag by lia.
  destruct ws as [|w r]; [contradiction|]. reflexivity.
Qed.
End MarkedText.

(** X4: the heading remover accepts more than the heading detector.  For
    a text made of a run of ['#'], a run of whitespace and a trimmed
    content, [removeHeader] returns the content and the appliers put their
    marker before it, whatever the run; the detector gives the length of
    the run only when it is at most three and a space follows it, and 0
    otherwise.  Every detected heading is one the remover strips. *)
Theorem heading_remover_accepts_more_than_detector
    (hashes ws c : jsstring)
    (Hh : hashes <> []) (Hha : forallb is_hash hashes = true)
    (Hw : ws <> []) (Hwa : forallb is_ws ws = true)
    (Hc : c <> []) (Hct : trim c = c) :
  removeHeader (hashes ++ ws ++ c) = c
  /\ applyH1 (hashes ++ ws ++ c) = lit "# " ++ c
  /\ applyH2 (hashes ++ ws ++ c) = lit "## " ++ c
  /\ applyH3 (hashes ++ ws ++ c) = lit "### " ++ c
  /\ getHeaderLevel (hashes ++ ws ++ c)
     = (if (length hashes <=? 3) && startsIn (fun x => char_eqb x (ch " ")) ws
        then length hashes else 0)
  /\ (forall s, getHeaderLevel s <> 0 ->
                regexTest reHeaderPrefix (trim s) = true).
Proof.
  pose proof (marked_removeHeader hashes ws c Hh Hha Hw Hwa Hc Hct) as R.
  repeat match goal with |- _ /\ _ => split end.
  - exact R.
  - rewrite applyH1_removeHeader, R. reflexivity.
  - rewrite applyH2_removeHeader, R. reflexivity.
  - rewrite applyH3_removeHeader, R. reflexivity.
  - apply marked_getHeaderLevel; assumption.
  - intros s Hs.
    destruct (proj1 (getHeaderLevel_shape s (getHeaderLevel s) Hs) eq_refl)
      as [_ [rest Ht]].
    rewrite regexTest_header, Ht.
    destruct (getHeaderLevel s) as [|k]; [contradiction|].
    assert (Hall : forallb is_hash (repeat (ch "#") (S k)) = true).
    { clear. induction (S k) as [|n IH]; [reflexivity|]. cbn [repeat forallb].
      rewrite IH. reflexivity. }
    rewrite dropWhile_app_all by exact Hall. reflexivity.
Qed.

Lemma heading_remover_accepts_more_than_detector_witness :
  removeHeader (lit "####" ++ lit " " ++ lit "deep") = lit "deep"
  /\ getHeaderLevel (lit "####" ++ lit " " ++ lit "deep") = 0
  /\ removeHeader (lit "#" ++ [9%N] ++ lit "tabbed") = lit "tabbed"
  /\ getHeaderLevel (lit "#" ++ [9%N] ++ lit "tabbed") = 0
  /\ applyH1 (lit "#" ++ [9%N] ++ lit "tabbed") = lit "# tabbed".
Proof.
  assert (A : forall hashes ws c,
             hashes <> [] -> forallb is_hash hashes = true ->
             ws <> [] -> forallb is_ws ws = true ->
             c <> [] -> trim c = c ->
             removeHeader (hashes ++ ws ++ c) = c
             /\ applyH1 (hashes ++ ws ++ c) = lit "# " ++ c
             /\ getHeaderLevel (hashes ++ ws ++ c)
                = (if (length hashes <=? 3)
                      && startsIn (fun x => char_eqb x (ch " ")) ws
                   then length hashes else 0)).
  { intros hashes ws c H1 H2 H3 H4 H5 H6.
    destruct (heading_remover_accepts_more_than_detector
                hashes ws c H1 H2 H3 H4 H5 H6) as (R & A1 & _ & _ & L & _).
    auto. }
  destruct (A (lit "####") (lit " ") (lit "deep")) as (R1 & _ & L1);
    try reflexivity; try discriminate.
  destruct (A (lit "#") [9%N] (lit "tabbed")) as (R2 & A2 & L2);
    try reflexivity; try discriminate.
  repeat split; assumption.
Defined.

Lemma removeHeader_after_marker (m c : jsstring) :
  In m [lit "# "; lit "## "; lit "### "] -> c <> [] -> trim c = c ->
  removeHeader (m ++ c) = c.
Proof.
  intros Hm Hc Ht. cbn [In] in Hm.
  destruct Hm as [<-|[<-|[<-|[]]]].
  - apply (marked_removeHeader (lit "#") (lit " ") c);
      solve [discriminate | reflexivity | assumption].
  - apply (marked_removeHeader (lit "##") (lit " ") c);
      solve [discriminate | reflexivity | assumption].
  - apply (marked_removeHeader (lit "###") (lit " ") c);
      solve [discriminate | reflexivity | assumption].
Qed.

Lemma removeHeader_applied (s : jsstring) :
  trim s <> [] ->
  removeHeader (applyH1 s) = removeHeader s
  /\ removeHeader (applyH2 s) = removeHeader s
  /\ removeHeader (applyH3 s) = removeHeader s.
Proof.
  intros Hs. pose proof (removeHeader_nonempty s Hs) as Hc.
  pose proof (removeHeader_trimmed s) as Ht.
  rewrite applyH1_removeHeader, applyH2_removeHeader, applyH3_removeHeader.
  repeat split; apply removeHeader_after_marker; simpl; auto.
Qed.

(** X5: on a text with something other than whitespace in it, a heading
    applier replaces whatever heading marker is there: removing after
    applying gives what removing alone gives, and applying one level after
    another gives what the last one alone gives.  On a blank text the first
    marker is kept as content. *)
Theorem heading_apply_replaces_marker (s : jsstring) (Hs : trim s <> []) :
  (forall f, In f [applyH1; applyH2; applyH3] ->
             removeHeader (f s) = removeHeader s)
  /\ (forall f g, In f [applyH1; applyH2; applyH3] ->
                  In g [applyH1; applyH2; applyH3] ->
                  g (f s) = g s)
  /\ applyH2 (applyH1 (lit "  ")) = lit "## #".
Proof.
  destruct (removeHeader_applied s Hs) as (R1 & R2 & R3).
  assert (R : forall f, In f [applyH1; applyH2; applyH3] ->
                        removeHeader (f s) = removeHeader s).
  { intros f Hf. cbn [In] in Hf. destruct Hf as [<-|[<-|[<-|[]]]]; assumption. }
  split; [exact R|]. split; [|reflexivity].
  intros f g Hf Hg. specialize (R f Hf). cbn [In] in Hg.
  destruct Hg as [<-|[<-|[<-|[]]]].
  - rewrite !applyH1_removeHeader, R. reflexivity.
  - rewrite !applyH2_removeHeader, R. reflexivity.
  - rewrite !applyH3_removeHeader, R. reflexivity.
Qed.

Lemma heading_apply_replaces_marker_witness :
  trim (lit " ## Title ") <> []
  /\ removeHeader (applyH3 (lit " ## Title ")) = removeHeader (lit " ## Title ")
  /\ applyH1 (applyH3 (lit " ## Title ")) = applyH1 (lit " ## Title ").
Proof.
  assert (H : trim (lit " ## Title ") <> []) by (vm_compute; discriminate).
  destruct (heading_apply_replaces_marker (lit " ## Title ") H) as (A & B & _).
  split; [exact H|]. split.
  - apply (A applyH3). simpl. auto.
  - apply (B applyH3 applyH1); simpl; auto.
Defined.

Lemma isH_applied (s : jsstring) :
  trim s <> [] ->
  isH1 (applyH1 s) = true /\ isH2 (applyH2 s) = true /\ isH3 (applyH3 s) = true.
Proof.
  intros Hs. pose proof (removeHeader_nonempty s Hs) as Hc.
  pose proof (removeHeader_trimmed s) as Ht.
  unfold isH1, isH2, isH3.
  rewrite applyH1_removeHeader, applyH2_removeHeader, applyH3_removeHeader.
  rewrite (getHeaderLevel_marked _ _ 1), (getHeaderLevel_marked _ _ 2),
    (getHeaderLevel_marked _ _ 3); auto.
Qed.

Lemma no_prefix_no_level (s : jsstring) :
  regexTest reHeaderPrefix (trim s) = false -> getHeaderLevel s = 0.
Proof.
  intros H. destruct (Nat.eq_dec (getHeaderLevel s) 0) as [E|E]; [exact E|].
  destruct (proj1 (getHeaderLevel_shape s (getHeaderLevel s) E) eq_refl)
    as [_ [rest Ht]].
  rewrite regexTest_header, Ht in H.
  destruct (getHeaderLevel s) as [|k]; [contradiction|].
  assert (Hall : forallb is_hash (repeat (ch "#") (S k)) = true).
  { clear. induction (S k) as [|n IH]; [reflexivity|]. cbn [repeat forallb].
    rewrite IH. reflexivity. }
  rewrite dropWhile_app_all in H by exact Hall. discriminate.
Qed.

(** X6: toggling a heading level on a non-blank text that is not of that
    level and toggling it again gives the text without its heading marker;
    for a text that carries no marker at all this is the trimmed text, so
    the two toggles cancel up to the surrounding whitespace. *)
Theorem heading_toggle_twice (s : jsstring) (Hs : trim s <> []) :
  (isH1 s = false -> toggleH1 (toggleH1 s) = removeHeader s)
  /\ (isH2 s = false -> toggleH2 (toggleH2 s) = removeHeader s)
  /\ (isH3 s = false -> toggleH3 (toggleH3 s) = removeHeader s)
  /\ (regexTest reHeaderPrefix (trim s) = false ->
      toggleH1 (toggleH1 s) = trim s
      /\ toggleH2 (toggleH2 s) = trim s
      /\ toggleH3 (toggleH3 s) = trim s).
Proof.
  destruct (removeHeader_applied s Hs) as (R1 & R2 & R3).
  destruct (isH_applied s Hs) as (D1 & D2 & D3).
  assert (T1 : isH1 s = false -> toggleH1 (toggleH1 s) = removeHeader s).
  { intros H. unfold toggleH1. rewrite H. rewrite D1. exact R1. }
  assert (T2 : isH2 s = false -> toggleH2 (toggleH2 s) = removeHeader s).
  { intros H. unfold toggleH2. rewrite H. rewrite D2. exact R2. }
  assert (T3 : isH3 s = false -> toggleH3 (toggleH3 s) = removeHeader s).
  { intros H. unfold toggleH3. rewrite H. rewrite D3. exact R3. }
  repeat match goal with |- _ /\ _ => split end; try assumption.
  intros Hp. pose proof (no_prefix_no_level s Hp) as L.
  assert (E : removeHeader s = trim s)
    by (apply regexStrip_header_fixed_iff; exact Hp).
  rewrite <- E.
  repeat split; [apply T1 | apply T2 | apply T3];
    unfold isH1, isH2, isH3; rewrite L; reflexivity.
Qed.

Lemma heading_toggle_twice_witness :
  trim (lit " Hello world") <> []
  /\ regexTest reHeaderPrefix (trim (lit " Hello world")) = false
  /\ toggleH2 (toggleH2 (lit " Hello world")) = trim (lit " Hello world").
Proof.
  assert (H : trim (lit " Hello world") <> []) by (vm_compute; discriminate).
  assert (P : regexTest reHeaderPrefix (trim (lit " Hello world")) = false)
    by reflexivity.
  split; [exact H|]. split; [exact P|].
  destruct (heading_toggle_twice (lit " Hello world") H) as (_ & _ & _ & T).
  apply (T P).
Defined.

(** ** Bullets *)

Lemma removeBulletList_after_marker (b : char) (ws c : jsstring) :
  is_bullet_mark b = true -> ws <> [] -> forallb is_ws ws = true ->
  c <> [] -> trim c = c ->
  trim (b :: ws ++ c) = b :: ws ++ c
  /\ removeBulletList (b :: ws ++ c) = c
  /\ isBulletList (b :: ws ++ c) = true.
Proof.
  intros Hb Hw Hwa Hc Ht.
  pose proof (proj1 (trim_fixed_iff c) Ht) as [Hs He].
  assert (Hb' : is_ws b = false).
  { unfold is_bullet_mark, char_eqb in Hb.
    apply orb_true_iff in Hb as [Hb|Hb]; apply N.eqb_eq in Hb; subst b;
      reflexivity. }
  assert (T : trim (b :: ws ++ c) = b :: ws ++ c).
  { apply trim_fixed; [exact Hb'|].
    change (b :: ws ++ c) with (([b] ++ ws) ++ c).
    rewrite endsIn_app by exact Hc. exact He. }
  split; [exact T|]. split.
  - rewrite removeBulletList_spec, T. cbn [specStripBulletPrefix].
    rewrite Hb, startsIn_app_nonempty by exact Hw.
    rewrite (startsIn_all is_ws ws Hw Hwa). cbn [andb].
    rewrite dropWhile_app_all by exact Hwa. apply dropWhile_fixed, Hs.
  - unfold isBulletList. rewrite T, regexTest_bullet, Hb.
    rewrite startsIn_app_nonempty by exact Hw.
    rewrite (startsIn_all is_ws ws Hw Hwa). reflexivity.
Qed.

Lemma isBulletList_strip (s : jsstring) :
  isBulletList s = regexTest reBulletPrefix (trim s).
Proof.
  unfold isBulletList. rewrite regexTest_bullet, regexTest_bulletPrefix.
  reflexivity.
Qed.

(** X7: bullets on a non-blank text.  Applying the bullet marker replaces
    an existing one (['*'] becomes ['-']), so applying twice is applying
    once and removing after applying is removing; the detector accepts
    exactly the texts the remover changes; and toggling an undetected text
    twice gives the trimmed text back. *)
Theorem bullet_apply_remove_compose (s : jsstring) (Hs : trim s <> []) :
  removeBulletList (applyBulletList s) = removeBulletList s
  /\ applyBulletList (applyBulletList s) = applyBulletList s
  /\ (isBulletList s = true <-> removeBulletList s <> trim s)
  /\ (isBulletList s = false -> toggleBulletList (toggleBulletList s) = trim s).
Proof.
  pose proof (removeBulletList_nonempty s Hs) as Hc.
  pose proof (removeBulletList_trimmed s) as Ht.
  destruct (removeBulletList_after_marker (ch "-") (lit " ")
              (removeBulletList s)) as (_ & R & D);
    try solve [reflexivity | discriminate | assumption].
  change (ch "-" :: lit " " ++ removeBulletList s)
    with (applyBulletList s) in R, D.
  assert (F : isBulletList s = false -> removeBulletList s = trim s).
  { rewrite isBulletList_strip. apply regexStrip_bullet_fixed_iff. }
  repeat match goal with |- _ /\ _ => split end.
  - exact R.
  - rewrite (applyBulletList_removeBulletList (applyBulletList s)), R.
    reflexivity.
  - split.
    + intros H E. rewrite isBulletList_strip in H.
      apply regexStrip_bullet_fixed_iff in E. congruence.
    + intros H. destruct (isBulletList s) eqn:E; [reflexivity|].
      exfalso. apply H, F. reflexivity.
  - intros H. unfold toggleBulletList. rewrite H, D, R. apply F, H.
Qed.

Lemma bullet_apply_remove_compose_witness :
  trim (lit "* item ") <> []
  /\ applyBulletList (lit "* item ") = lit "- item"
  /\ applyBulletList (applyBulletList (lit "* item "))
     = applyBulletList (lit "* item ")
  /\ removeBulletList (applyBulletList (lit "* item "))
     = removeBulletList (lit "* item ").
Proof.
  assert (H : trim (lit "* item ") <> []) by (vm_compute; discriminate).
  destruct (bullet_apply_remove_compose (lit "* item ") H) as (A & B & _).
  split; [exact H|]. split; [reflexivity|]. split; assumption.
Defined.

(** ** Bold and italic *)

Lemma boldWrapped_isBold (s : jsstring) :
  boldWrapped s = true -> isBold s = true.
Proof.
  intros H. unfold isBold. pose proof H as H'.
  apply boldWrapped_iff in H' as [mid [_ ->]]. rewrite trim_applyBold. exact H.
Qed.

Lemma italicWrapped_isItalic (s : jsstring) :
  italicWrapped s = true -> isItalic s = true.
Proof.
  intros H. rewrite isItalic_italicWrapped. pose proof H as H'.
  apply italicWrapped_iff in H' as [mid [_ ->]]. rewrite trim_applyItalic.
  exact H.
Qed.

Lemma removeBold_applyBold (s : jsstring) :
  s <> [] -> isBold s = false -> removeBold (applyBold s) = s.
Proof.
  intros Hs Hb. unfold removeBold. rewrite trim_applyBold.
  assert (W : boldWrapped (applyBold s) = true)
    by (apply boldWrapped_iff; exists s; auto).
  destruct (length (applyBold s)) as [|n] eqn:L.
  - unfold applyBold in L. rewrite !length_app in L. simpl in L. lia.
  - cbn [removeBoldLoop]. rewrite W, slice_applyBold.
    apply removeBoldLoop_fixed.
    destruct (boldWrapped s) eqn:E; [|reflexivity].
    rewrite (boldWrapped_isBold s E) in Hb. discriminate.
Qed.

Lemma removeItalic_applyItalic (s : jsstring) :
  s <> [] -> isItalic s = false -> removeItalic (applyItalic s) = s.
Proof.
  intros Hs Hb. unfold removeItalic. rewrite trim_applyItalic.
  assert (W : italicWrapped (applyItalic s) = true)
    by (apply italicWrapped_iff; exists s; auto).
  destruct (length (applyItalic s)) as [|n] eqn:L.
  - unfold applyItalic in L. rewrite !length_app in L. simpl in L. lia.
  - cbn [removeItalicLoop]. rewrite W, applyItalic_not_bold, slice_applyItalic.
    apply removeItalicLoop_fixed.
    destruct (italicWrapped s) eqn:E; [|reflexivity].
    rewrite (italicWrapped_isItalic s E) in Hb. discriminate.
Qed.

(** X8: toggling bold, or italic, twice on a non-empty text that is not
    detected as the style gives the text back unchanged, surrounding
    whitespace included. *)
Theorem bold_italic_toggle_twice_undetected (s : jsstring) (Hs : s <> []) :
  (isBold s = false -> toggleBold (toggleBold s) = s)
  /\ (isItalic s = false -> toggleItalic (toggleItalic s) = s).
Proof.
  split; intros H.
  - unfold toggleBold. rewrite H, (isBold_applyBold s Hs).
    apply removeBold_applyBold; assumption.
  - unfold toggleItalic. rewrite H, (isItalic_applyItalic s Hs).
    apply removeItalic_applyItalic; assumption.
Qed.

Lemma bold_italic_toggle_twice_undetected_witness :
  lit " some text " <> []
  /\ isBold (lit " some text ") = false
  /\ toggleBold (toggleBold (lit " some text ")) = lit " some text "
  /\ isItalic (lit "<b>x</b>") = false
  /\ toggleItalic (toggleItalic (lit "<b>x</b>")) = lit "<b>x</b>".
Proof.
  assert (H1 : lit " some text " <> []) by discriminate.
  assert (H2 : lit "<b>x</b>" <> []) by discriminate.
  split; [exact H1|]. split; [reflexivity|]. split.
  - apply (proj1 (bold_italic_toggle_twice_undetected _ H1)). reflexivity.
  - split; [reflexivity|].
    apply (proj2 (bold_italic_toggle_twice_undetected _ H2)). reflexivity.
Defined.

Lemma removeItalicLoop_layers (n : nat) (t : jsstring) :
  exists k, t = Nat.iter k applyItalic (removeItalicLoop n t)
            /\ (0 < k -> removeItalicLoop n t <> []).
Proof.
  revert t; induction n as [|n IH]; intros t; cbn [removeItalicLoop].
  - exists 0; split; [reflexivity | lia].
  - destruct (italicWrapped t) eqn:E; [|exists 0; split; [reflexivity | lia]].
    apply italicWrapped_iff in E as [mid [Hmid ->]].
    rewrite applyItalic_not_bold, slice_applyItalic.
    destruct (IH mid) as [k [Hk Hne]].
    exists (S k). split; [simpl; rewrite <- Hk; reflexivity|].
    intros _. destruct k as [|k]; [|apply Hne; lia].
    simpl in Hk. rewrite <- Hk. exact Hmid.
Qed.

Lemma applyItalic_length (t : jsstring) :
  length (applyItalic t) = 7 + length t.
Proof. unfold applyItalic. rewrite !length_app. simpl. lia. Qed.

Lemma removeItalicLoop_unwind (k : nat) (r : jsstring) :
  italicWrapped r = false -> (0 < k -> r <> []) ->
  forall n, length (Nat.iter k applyItalic r) <= n ->
            removeItalicLoop n (Nat.iter k applyItalic r) = r.
Proof.
  intros Hr Hne. induction k as [|k IH]; intros n Hn.
  - apply removeItalicLoop_fixed, Hr.
  - change (Nat.iter (S k) applyItalic r)
      with (applyItalic (Nat.iter k applyItalic r)) in *.
    rewrite applyItalic_length in Hn.
    destruct n as [|n]; [lia|]. cbn [removeItalicLoop].
    assert (W : italicWrapped (applyItalic (Nat.iter k applyItalic r)) = true).
    { apply italicWrapped_iff. exists (Nat.iter k applyItalic r).
      split; [|reflexivity].
      destruct k as [|k]; [apply Hne; lia|].
      change (Nat.iter (S k) applyItalic r)
        with (applyItalic (Nat.iter k applyItalic r)).
      unfold applyItalic. discriminate. }
    rewrite W, applyItalic_not_bold, slice_applyItalic.
    apply IH; [intros _; apply Hne|]; lia.
Qed.

(** X9: [removeItalic] strips the nested [<i>...</i>] layers of the
    trimmed text for as long as what is left starts with [<i>], ends with
    [</i>] and is longer than 7 characters: its result is the one text [r]
    that fails this test, with the trimmed input being [r] in [k] layers,
    and [r] non-empty if a layer was taken off, so that the pair around
    nothing, [<i></i>], is never opened.  The checks against the bold
    markers change nothing, neither in [removeItalic] (its [break] is never
    taken) nor in [isItalic], which is the wrapped test on the trimmed
    text. *)
Theorem removeItalic_strips_all_layers (s : jsstring) :
  (forall r : jsstring,
      removeItalic s = r
      <-> exists k : nat,
            trim s = Nat.iter k applyItalic r
            /\ italicWrapped r = false
            /\ (0 < k -> r <> []))
  /\ isItalic s = italicWrapped (trim s)
  /\ (forall t, italicWrapped t = true ->
                startsWith t (lit "<b>") || endsWith t (lit "</b>") = false)
  /\ removeItalic (lit "<i><i></i></i>") = lit "<i></i>"
  /\ removeItalic (lit " <i><i>x</i></i> ") = lit "x".
Proof.
  split; [|split; [|split; [|split; reflexivity]]].
  - intros r. unfold removeItalic. split.
    + intros <-.
      destruct (removeItalicLoop_layers (length (trim s)) (trim s))
        as [k [Hk Hne]].
      exists k. split; [exact Hk|]. split; [|exact Hne].
      apply removeItalicLoop_exit. lia.
    + intros (k & Hk & Hr & Hne). rewrite Hk.
      apply removeItalicLoop_unwind; [assumption | assumption | lia].
  - apply isItalic_italicWrapped.
  - intros t H. apply italicWrapped_iff in H as [mid [_ ->]].
    apply applyItalic_not_bold.
Qed.

(** ** The dispatchers *)

(** X10: through the dispatchers, toggling a style that is not applied to
    a non-blank text applies it: [isFormatApplied] holds afterwards, for
    each of the eight format types. *)
Theorem toggleFormat_applies_missing_style
    (s : jsstring) (formatType : FormatType)
    (Hs : trim s <> []) (Hoff : isFormatApplied s formatType = false) :
  isFormatApplied (toggleFormat s formatType) formatType = true
  /\ toggleFormat (toggleFormat s formatType) formatType
     = match formatType with
       | bold => removeBold (applyBold s)
       | italic => removeItalic (applyItalic s)
       | underline => removeUnderline (applyUnderline s)
       | strikethrough => removeStrikethrough (applyStrikethrough s)
       | h1 => removeHeader (applyH1 s)
       | h2 => removeHeader (applyH2 s)
       | h3 => removeHeader (applyH3 s)
       | bullet => removeBulletList (applyBulletList s)
       end.
Proof.
  pose proof (trim_nonempty_arg s Hs) as Hne.
  destruct (isH_applied s Hs) as (D1 & D2 & D3).
  assert (DB : isBulletList (applyBulletList s) = true).
  { rewrite applyBulletList_removeBulletList. apply isBulletList_marked.
    - apply removeBulletList_nonempty, Hs.
    - apply removeBulletList_trimmed. }
  destruct formatType; cbn [isFormatApplied detectFormatState toggleFormat
      fs_bold fs_italic fs_underline fs_strikethrough fs_h1 fs_h2 fs_h3
      fs_bullet] in *.
  - unfold toggleBold. rewrite Hoff, (isBold_applyBold s Hne). auto.
  - unfold toggleItalic. rewrite Hoff, (isItalic_applyItalic s Hne). auto.
  - unfold toggleUnderline.
    rewrite Hoff, (isUnderline_applyUnderline s Hne). auto.
  - unfold toggleStrikethrough.
    rewrite Hoff, (isStrikethrough_applyStrikethrough s Hne). auto.
  - unfold toggleH1. rewrite Hoff, D1. auto.
  - unfold toggleH2. rewrite Hoff, D2. auto.
  - unfold toggleH3. rewrite Hoff, D3. auto.
  - unfold toggleBulletList. rewrite Hoff, DB. auto.
Qed.

Lemma toggleFormat_applies_missing_style_witness :
  trim (lit "plain") <> []
  /\ isFormatApplied (lit "plain") strikethrough = false
  /\ isFormatApplied (toggleFormat (lit "plain") strikethrough) strikethrough
     = true.
Proof.
  assert (H : trim (lit "plain") <> []) by (vm_compute; discriminate).
  assert (O : isFormatApplied (lit "plain") strikethrough = false)
    by reflexivity.
  split; [exact H|]. split; [exact O|].
  apply (toggleFormat_applies_missing_style (lit "plain") strikethrough H O).
Defined.

Lemma specStripHeaderPrefix_length (t : jsstring) :
  length (specStripHeaderPrefix t) <= length t.
Proof.
  unfold specStripHeaderPrefix. destruct (_ && _); [|lia].
  pose proof (dropWhile_length is_ws (dropWhile is_hash t)).
  pose proof (dropWhile_length is_hash t). lia.
Qed.

Lemma specStripBulletPrefix_length (t : jsstring) :
  length (specStripBulletPrefix t) <= length t.
Proof.
  unfold specStripBulletPrefix. destruct t as [|c r]; [lia|].
  destruct (_ && _); [|lia].
  pose proof (dropWhile_length is_ws r). simpl. lia.
Qed.

(** X11: no remover makes a text longer, and on a text detected as the
    style every remover makes it strictly shorter, so a toggle that
    removes always takes something away. *)
Theorem removers_shorten (s : jsstring) :
  (length (removeBold s) <= length s
   /\ length (removeItalic s) <= length s
   /\ length (removeUnderline s) <= length s
   /\ length (removeStrikethrough s) <= length s
   /\ length (removeHeader s) <= length s
   /\ length (removeBulletList s) <= length s)
  /\ (isBold s = true -> length (removeBold s) < length s)
  /\ (isItalic s = true -> length (removeItalic s) < length s)
  /\ (isUnderline s = true -> length (removeUnderline s) < length s)
  /\ (isStrikethrough s = true -> length (removeStrikethrough s) < length s)
  /\ (getHeaderLevel s <> 0 -> length (removeHeader s) < length s)
  /\ (isBulletList s = true -> length (removeBulletList s) < length s).
Proof.
  pose proof (trim_length s) as Ht.
  assert (LB : length (removeBold s) <= length (trim s))
    by apply removeBoldLoop_length.
  assert (LI : length (removeItalic s) <= length (trim s))
    by apply removeItalicLoop_length.
  assert (LH : length (removeHeader s) <= length (trim s))
    by (rewrite removeHeader_spec; apply specStripHeaderPrefix_length).
  assert (LL : length (removeBulletList s) <= length (trim s))
    by (rewrite removeBulletList_spec; apply specStripBulletPrefix_length).
  assert (SU : isUnderline s = true -> length (removeUnderline s) < length s).
  { apply (single_remove_shorter isUnderline applyUnderline).
    - apply removeUnderline_detected.
    - apply applyUnderline_longer. }
  assert (SS : isStrikethrough s = true ->
               length (removeStrikethrough s) < length s).
  { apply (single_remove_shorter isStrikethrough applyStrikethrough).
    - apply removeStrikethrough_detected.
    - apply applyStrikethrough_longer. }
  repeat match goal with |- _ /\ _ => split end; try lia; try assumption.
  - destruct (isUnderline s) eqn:E.
    + specialize (SU eq_refl). lia.
    + rewrite removeUnderline_undetected by exact E. lia.
  - destruct (isStrikethrough s) eqn:E.
    + specialize (SS eq_refl). lia.
    + rewrite removeStrikethrough_undetected by exact E. lia.
  - intros H. unfold isBold in H. unfold removeBold.
    destruct (length (trim s)) as [|n] eqn:L.
    + destruct (trim s); [discriminate H | discriminate L].
    + cbn [removeBoldLoop]. rewrite H.
      pose proof (removeBoldLoop_length n (slice (trim s) 3 (-4))) as H1.
      apply boldWrapped_iff in H as [mid [_ Hm]]. rewrite Hm in *.
      rewrite slice_applyBold in *. unfold applyBold in L.
      rewrite !length_app in L. simpl in L. lia.
  - intros H. rewrite isItalic_italicWrapped in H. unfold removeItalic.
    destruct (length (trim s)) as [|n] eqn:L.
    + destruct (trim s); [discriminate H | discriminate L].
    + cbn [removeItalicLoop]. rewrite H.
      pose proof (removeItalicLoop_length n (slice (trim s) 3 (-4))) as H1.
      apply italicWrapped_iff in H as [mid [_ Hm]]. rewrite Hm in *.
      rewrite applyItalic_not_bold, slice_applyItalic in *.
      unfold applyItalic in L. rewrite !length_app in L. simpl in L. lia.
  - intros H.
    assert (T : regexTest reHeaderPrefix (trim s) = true).
    { destruct (regexTest reHeaderPrefix (trim s)) eqn:E; [reflexivity|].
      apply no_prefix_no_level in E. contradiction. }
    assert (N : removeHeader s <> trim s).
    { intros E. apply regexStrip_header_fixed_iff in E. congruence. }
    rewrite removeHeader_spec in *.
    unfold specStripHeaderPrefix in *. rewrite regexTest_header in T.
    rewrite T in *. apply andb_true_iff in T as [T1 T2].
    pose proof (dropWhile_length_lt is_hash (trim s) T1).
    pose proof (dropWhile_length is_ws (dropWhile is_hash (trim s))). lia.
  - intros H. rewrite isBulletList_strip, regexTest_bulletPrefix in H.
    rewrite removeBulletList_spec. unfold specStripBulletPrefix.
    destruct (trim s) as [|c r]; [discriminate|]. rewrite H.
    pose proof (dropWhile_length is_ws r). simpl in *. lia.
Qed.

(* ================================================================== *)
(** * More on the resolver *)
(* ================================================================== *)

Lemma docLines_bounds (d : Text) (i : nat) (l : Line) :
  nth_error (docLines d) i = Some l ->
  line_number l = S i /\ line_from l <= line_to l /\ line_to l <= length d.
Proof.
  intros H. apply linesFrom_bounds in H as (Hn & _ & Hft & Hto).
  rewrite joinLines_splitLines in Hto. repeat split; lia.
Qed.

(** A position inside a line of the document is in that line and no
    other. *)
Lemma lineAt_unique (d : Text) (i : nat) (l : Line) (pos : nat) :
  nth_error (docLines d) i = Some l ->
  line_from l <= pos -> pos <= line_to l ->
  lineAt d pos = Normal l.
Proof.
  intros Hi H1 H2. pose proof (docLines_bounds d i l Hi) as (_ & _ & Hto).
  destruct (lineAt_spec d pos) as (j & l' & HL & Hj & _ & H3 & H4); [lia|].
  rewrite HL. f_equal.
  destruct (Nat.lt_trichotomy i j) as [Hlt|[->|Hlt]].
  - pose proof (linesFrom_order _ _ _ _ _ _ _ Hlt Hi Hj). lia.
  - congruence.
  - pose proof (linesFrom_order _ _ _ _ _ _ _ Hlt Hj Hi). lia.
Qed.

Lemma line_of_number (d : Text) (i : nat) (l : Line) :
  nth_error (docLines d) i = Some l -> line d (line_number l) = Normal l.
Proof.
  intros H. pose proof (docLines_bounds d i l H) as (-> & _).
  cbn [line]. rewrite H. reflexivity.
Qed.

(** The touched lines, with the places of the first and the last one
    among the lines of the document. *)
Lemma getSelectedLines_range (st : EditorState) (from to : nat) :
  from <= to -> to <= length (doc st) ->
  exists a b la lb,
    a <= b
    /\ nth_error (docLines (doc st)) a = Some la
    /\ nth_error (docLines (doc st)) b = Some lb
    /\ lineAt (doc st) from = Normal la
    /\ lineAt (doc st) to = Normal lb
    /\ line_from la <= from /\ to <= line_to lb
    /\ getSelectedLines st from to
       = Normal (firstn (S b - a) (skipn a (docLines (doc st)))).
Proof.
  intros Hft Hto.
  destruct (lineAt_spec (doc st) from) as (a & la & HA & Ha & Hna & Ha1 & Ha2);
    [lia|].
  destruct (lineAt_spec (doc st) to) as (b & lb & HB & Hb & Hnb & Hb1 & Hb2);
    [lia|].
  assert (Hab : a <= b).
  { destruct (Nat.le_gt_cases a b) as [|Hlt]; [assumption|].
    pose proof (linesFrom_order _ _ _ _ _ _ _ Hlt Hb Ha). lia. }
  exists a, b, la, lb. repeat split; try assumption.
  unfold getSelectedLines. rewrite HA, HB. cbn [bind]. rewrite Hna, Hnb.
  rewrite selectedLinesLoop_spec.
  - replace (S a - 1) with a by lia. reflexivity.
  - assert (b < length (docLines (doc st)))
      by (apply nth_error_Some; rewrite Hb; discriminate).
    lia.
  - reflexivity.
  - lia.
Qed.

Lemma range_length {A : Type} (L : list A) (a b : nat) :
  a <= b -> b < length L -> length (firstn (S b - a) (skipn a L)) = S b - a.
Proof. intros Hab Hb. rewrite length_firstn, length_skipn. lia. Qed.

Lemma getSelectedLines_in_line (st : EditorState) (i : nat) (l : Line)
    (from to : nat) :
  nth_error (docLines (doc st)) i = Some l ->
  line_from l <= from -> from <= to -> to <= line_to l ->
  getSelectedLines st from to = Normal [l].
Proof.
  intros Hi H1 H2 H3. unfold getSelectedLines.
  rewrite (lineAt_unique (doc st) i l from Hi) by lia.
  rewrite (lineAt_unique (doc st) i l to Hi) by lia.
  cbn [bind]. replace (S (line_number l) - line_number l) with 1 by lia.
  cbn [selectedLinesLoop]. rewrite Nat.leb_refl.
  rewrite (line_of_number (doc st) i l Hi). reflexivity.
Qed.

Lemma detectAdvanced_single (st : EditorState) (from to : nat) (l : Line) :
  getSelectedLines st from to = Normal [l] ->
  sliceDoc st (line_from l) (line_to l) = line_text l ->
  detectAdvancedFormatState st from to
  = Normal (detectFormatState (line_text l)).
Proof.
  intros HL Hs. unfold detectAdvancedFormatState. rewrite HL.
  cbn [bind length Nat.eqb Nat.ltb Nat.leb].
  unfold hasInlineFormatInSelection, allLinesHaveHeaderLevel.
  cbn [existsb forallb length Nat.eqb]. cbv zeta. rewrite Hs.
  rewrite !orb_false_r, !andb_true_r. reflexivity.
Qed.

(** X12: a selection that lies within one line of the document, a caret
    included, resolves to what the plain detectors say of that line's full
    text. *)
Theorem resolver_within_one_line (st : EditorState) (l : Line) (from to : nat)
    (Hl : In l (docLines (doc st)))
    (Hfrom : line_from l <= from) (Hft : from <= to) (Hto : to <= line_to l) :
  getSelectedLines st from to = Normal [l]
  /\ detectAdvancedFormatState st from to
     = Normal (detectFormatState (line_text l)).
Proof.
  destruct (In_nth_error _ _ Hl) as [i Hi].
  pose proof (getSelectedLines_in_line st i l from to Hi Hfrom Hft Hto) as HL.
  split; [exact HL|].
  apply detectAdvanced_single; [exact HL | apply docLines_slice, Hl].
Qed.

Lemma resolver_within_one_line_witness :
  let st := stateOf ("intro" ++ nl ++ "## Title here" ++ nl ++ "end") 0 0 in
  let l := mkLine 6 19 2 (lit "## Title here") in
  In l (docLines (doc st)) /\ line_from l <= 9 /\ 9 <= 14 /\ 14 <= line_to l
  /\ getSelectedLines st 9 14 = Normal [l]
  /\ detectAdvancedFormatState st 9 14
     = Normal (mkFormatState false false false false false true false false).
Proof.
  intros st l.
  assert (H1 : In l (docLines (doc st))) by (vm_compute; tauto).
  assert (H2 : line_from l <= 9) by (vm_compute; lia).
  assert (H3 : 9 <= 14) by lia.
  assert (H4 : 14 <= line_to l) by (vm_compute; lia).
  repeat (split; [assumption|]).
  exact (resolver_within_one_line st l 9 14 H1 H2 H3 H4).
Defined.

Lemma bullet_excludes_others (x : jsstring) :
  isBulletList x = true ->
  isBold x = false /\ isItalic x = false /\ isUnderline x = false
  /\ isStrikethrough x = false /\ getHeaderLevel x = 0.
Proof.
  intros H. pose proof (isBulletList_prefix x H) as Hp.
  pose proof (isBold_prefix x) as Hb.
  pose proof (isItalic_prefix x) as Hi.
  pose proof (isUnderline_prefix x) as Hu.
  pose proof (isStrikethrough_prefix x) as Hs.
  pose proof (header_prefix x) as Hh.
  repeat split.
  - destruct (isBold x); [|reflexivity]. specialize (Hb eq_refl).
    apply firstn_1_of_2 in Hb. destruct Hp; norm_chars; congruence.
  - destruct (isItalic x); [|reflexivity]. specialize (Hi eq_refl).
    apply firstn_1_of_2 in Hi. destruct Hp; norm_chars; congruence.
  - destruct (isUnderline x); [|reflexivity]. specialize (Hu eq_refl).
    apply firstn_1_of_2 in Hu. destruct Hp; norm_chars; congruence.
  - destruct (isStrikethrough x); [|reflexivity]. specialize (Hs eq_refl).
    apply firstn_1_of_2 in Hs. destruct Hp; norm_chars; congruence.
  - destruct (Nat.eq_dec (getHeaderLevel x) 0) as [E|E]; [exact E|].
    specialize (Hh E). destruct Hp; norm_chars; congruence.
Qed.

Lemma header_excludes_inline (x : jsstring) :
  getHeaderLevel x <> 0 ->
  isBold x = false /\ isItalic x = false /\ isUnderline x = false
  /\ isStrikethrough x = false.
Proof.
  intros H. pose proof (header_prefix x H) as Hp.
  pose proof (isBold_prefix x) as Hb.
  pose proof (isItalic_prefix x) as Hi.
  pose proof (isUnderline_prefix x) as Hu.
  pose proof (isStrikethrough_prefix x) as Hs.
  repeat split.
  - destruct (isBold x); [|reflexivity]. specialize (Hb eq_refl).
    apply firstn_1_of_2 in Hb. norm_chars; congruence.
  - destruct (isItalic x); [|reflexivity]. specialize (Hi eq_refl).
    apply firstn_1_of_2 in Hi. norm_chars; congruence.
  - destruct (isUnderline x); [|reflexivity]. specialize (Hu eq_refl).
    apply firstn_1_of_2 in Hu. norm_chars; congruence.
  - destruct (isStrikethrough x); [|reflexivity]. specialize (Hs eq_refl).
    apply firstn_1_of_2 in Hs. norm_chars; congruence.
Qed.

Lemma inline_flag_off_when_all_bullets (st : EditorState) (lines : list Line)
    (checker : jsstring -> bool) :
  (forall l, In l lines -> sliceDoc st (line_from l) (line_to l) = line_text l) ->
  (forall l, In l lines -> isBulletList (line_text l) = true) ->
  (forall x, isBulletList x = true -> checker x = false) ->
  hasInlineFormatInSelection st lines checker = false.
Proof.
  intros Hs Hb Hx.
  destruct (hasInlineFormatInSelection st lines checker) eqn:E; [|reflexivity].
  apply (hasInlineFormat_iff st lines checker Hs) in E as (l & Hl & Hc).
  rewrite (Hx _ (Hb l Hl)) in Hc. discriminate.
Qed.

(** X13: in every state the resolver returns for a selection inside the
    document, at most one of the four block flags (h1, h2, h3, bullet) is
    set, and when one is set no inline flag is set.  (Several inline flags
    can be set together, by different lines.) *)
Theorem resolver_block_flags_exclusive (st : EditorState) (from to : nat)
    (Hft : from <= to) (Hto : to <= length (doc st)) :
  exists fs,
    detectAdvancedFormatState st from to = Normal fs
    /\ Nat.b2n (fs_h1 fs) + Nat.b2n (fs_h2 fs) + Nat.b2n (fs_h3 fs)
       + Nat.b2n (fs_bullet fs) <= 1
    /\ (fs_h1 fs || fs_h2 fs || fs_h3 fs || fs_bullet fs = true ->
        fs_bold fs = false /\ fs_italic fs = false
        /\ fs_underline fs = false /\ fs_strikethrough fs = false).
Proof.
  destruct (getSelectedLines_spec st from to Hft Hto) as (lines & HL & Hne & Hin).
  assert (Hs : forall l, In l lines ->
                         sliceDoc st (line_from l) (line_to l) = line_text l).
  { intros l Hl. apply docLines_slice. apply Hin in Hl. tauto. }
  destruct lines as [|l1 [|l2 r]]; [contradiction| |].
  - rewrite (detectAdvanced_single st from to l1 HL (Hs l1 (or_introl eq_refl))).
    eexists. split; [reflexivity|].
    unfold detectFormatState, isH1, isH2, isH3.
    cbn [fs_bold fs_italic fs_underline fs_strikethrough fs_h1 fs_h2 fs_h3
         fs_bullet].
    set (x := line_text l1).
    pose proof (bullet_excludes_others x) as HB.
    pose proof (header_excludes_inline x) as HH.
    destruct (isBulletList x).
    + destruct (HB eq_refl) as (-> & -> & -> & -> & ->). simpl. auto.
    + destruct (getHeaderLevel x) as [|[|[|[|n]]]]; simpl;
        try (split; [lia | discriminate]);
        (destruct HH as (-> & -> & -> & ->); [discriminate|]; auto).
  - unfold detectAdvancedFormatState. rewrite HL. cbn [bind].
    set (lines := l1 :: l2 :: r) in *.
    replace (length lines =? 0) with false by reflexivity.
    replace (length lines =? 1) with false by reflexivity.
    replace (0 <? length lines) with true by reflexivity.
    eexists. split; [reflexivity|].
    cbn [fs_bold fs_italic fs_underline fs_strikethrough fs_h1 fs_h2 fs_h3
         fs_bullet andb orb].
    split; [destruct (forallb _ lines); simpl; lia|].
    intros Hb0.
    pose proof (proj1 (allLines_iff st lines isBulletList Hs) Hb0) as Hb.
    repeat split; apply inline_flag_off_when_all_bullets; try assumption;
      intros x Hx; apply bullet_excludes_others in Hx; tauto.
Qed.

Lemma resolver_block_flags_exclusive_witness :
  let st := stateOf ("- <b>a</b>" ++ nl ++ "* two") 0 0 in
  1 <= 14 /\ 14 <= length (doc st)
  /\ exists fs,
      detectAdvancedFormatState st 1 14 = Normal fs
      /\ Nat.b2n (fs_h1 fs) + Nat.b2n (fs_h2 fs) + Nat.b2n (fs_h3 fs)
         + Nat.b2n (fs_bullet fs) <= 1
      /\ (fs_h1 fs || fs_h2 fs || fs_h3 fs || fs_bullet fs = true ->
          fs_bold fs = false /\ fs_italic fs = false
          /\ fs_underline fs = false /\ fs_strikethrough fs = false).
Proof.
  intros st.
  assert (H1 : 1 <= 14) by lia.
  assert (H2 : 14 <= length (doc st)) by (vm_compute; lia).
  split; [exact H1|]. split; [exact H2|].
  exact (resolver_block_flags_exclusive st 1 14 H1 H2).
Defined.

Example resolver_two_inline_flags :
  detectAdvancedFormatState
    (stateOf ("<b>one</b>" ++ nl ++ "<i>two</i>") 0 0) 0 21
  = Normal (mkFormatState true true false false false false false false).
Proof. reflexivity. Qed.

Lemma lineAt_out_of_bounds (d : Text) (pos : nat) :
  length d < pos -> lineAt d pos = Throw RangeError.
Proof.
  intros H. unfold lineAt.
  destruct (Nat.ltb_spec (length d) pos); [reflexivity | lia].
Qed.

Lemma lineAt_total (d : Text) (pos : nat) :
  (exists l, lineAt d pos = Normal l) \/ lineAt d pos = Throw RangeError.
Proof.
  destruct (lineAt d pos) as [l|[]]; eauto.
Qed.

(** X14: a range that reaches past the end of the document makes every
    function of the resolver throw the [RangeError] of [lineAt]; none of
    them returns a state for it. *)
Theorem resolver_out_of_bounds_throws (st : EditorState) (from to : nat)
    (Hout : length (doc st) < from \/ length (doc st) < to) :
  getSelectedLines st from to = Throw RangeError
  /\ detectAdvancedFormatState st from to = Throw RangeError
  /\ getSelectionContext st from to = Throw RangeError
  /\ isMultiLineSelection st from to = Throw RangeError.
Proof.
  assert (G : getSelectedLines st from to = Throw RangeError
              /\ isMultiLineSelection st from to = Throw RangeError).
  { unfold getSelectedLines, isMultiLineSelection.
    destruct Hout as [H|H].
    - rewrite (lineAt_out_of_bounds _ _ H). split; reflexivity.
    - rewrite (lineAt_out_of_bounds (doc st) to H).
      destruct (lineAt_total (doc st) from) as [[l ->]| ->];
        split; reflexivity. }
  destruct G as [G M].
  unfold detectAdvancedFormatState, getSelectionContext. rewrite G.
  repeat split; assumption.
Qed.

Lemma resolver_out_of_bounds_throws_witness :
  let st := stateOf "short" 0 0 in
  (length (doc st) < 2 \/ length (doc st) < 6)
  /\ detectAdvancedFormatState st 2 6 = Throw RangeError.
Proof.
  intros st.
  assert (H : length (doc st) < 2 \/ length (doc st) < 6)
    by (right; vm_compute; lia).
  split; [exact H|].
  apply (resolver_out_of_bounds_throws st 2 6 H).
Defined.

(** X15: a range given backwards, with its end on an earlier line than
    its start, touches no line: [getSelectedLines] returns the empty list,
    the resolver the state with every flag off, and [getSelectionContext]
    the range itself with an empty text. *)
Theorem resolver_reversed_range (st : EditorState) (from to : nat)
    (la lb : Line)
    (Hfrom : lineAt (doc st) from = Normal la)
    (Hto : lineAt (doc st) to = Normal lb)
    (Hrev : line_number lb < line_number la) :
  getSelectedLines st from to = Normal []
  /\ detectAdvancedFormatState st from to
     = Normal (mkFormatState false false false false false false false false)
  /\ getSelectionContext st from to = Normal (mkSelectionContext [] from to [])
  /\ isMultiLineSelection st from to = Normal true.
Proof.
  assert (G : getSelectedLines st from to = Normal []).
  { unfold getSelectedLines. rewrite Hfrom, Hto. cbn [bind].
    replace (S (line_number lb) - line_number la) with 0 by lia.
    reflexivity. }
  unfold detectAdvancedFormatState, getSelectionContext, isMultiLineSelection.
  rewrite G, Hfrom, Hto. cbn [bind].
  repeat split.
  destruct (Nat.eqb_spec (line_number la) (line_number lb)); [lia|reflexivity].
Qed.

Lemma resolver_reversed_range_witness :
  let st := stateOf ("# one" ++ nl ++ "# two") 0 0 in
  lineAt (doc st) 8 = Normal (mkLine 6 11 2 (lit "# two"))
  /\ lineAt (doc st) 2 = Normal (mkLine 0 5 1 (lit "# one"))
  /\ getSelectedLines st 8 2 = Normal []
  /\ detectAdvancedFormatState st 8 2
     = Normal (mkFormatState false false false false false false false false).
Proof.
  intros st.
  assert (H1 : lineAt (doc st) 8 = Normal (mkLine 6 11 2 (lit "# two")))
    by reflexivity.
  assert (H2 : lineAt (doc st) 2 = Normal (mkLine 0 5 1 (lit "# one")))
    by reflexivity.
  split; [exact H1|]. split; [exact H2|].
  assert (H3 : line_number (mkLine 0 5 1 (lit "# one"))
               < line_number (mkLine 6 11 2 (lit "# two"))) by (simpl; lia).
  destruct (resolver_reversed_range st 8 2 _ _ H1 H2 H3) as (A & B & _).
  split; assumption.
Defined.

(** X16: for a selection inside the document, [isMultiLineSelection]
    says whether [getSelectedLines] returns more than one line, and the
    number of lines returned is the distance of the two line numbers plus
    one. *)
Theorem isMultiLineSelection_counts_lines (st : EditorState) (from to : nat)
    (Hft : from <= to) (Hto : to <= length (doc st)) :
  exists lines la lb,
    getSelectedLines st from to = Normal lines
    /\ lineAt (doc st) from = Normal la
    /\ lineAt (doc st) to = Normal lb
    /\ length lines = S (line_number lb) - line_number la
    /\ 1 <= length lines
    /\ isMultiLineSelection st from to = Normal (1 <? length lines).
Proof.
  destruct (getSelectedLines_range st from to Hft Hto)
    as (a & b & la & lb & Hab & Ha & Hb & HA & HB & _ & _ & HL).
  pose proof (docLines_bounds _ _ _ Ha) as (Hna & _).
  pose proof (docLines_bounds _ _ _ Hb) as (Hnb & _).
  assert (Hlen : b < length (docLines (doc st)))
    by (apply nth_error_Some; rewrite Hb; discriminate).
  exists (firstn (S b - a) (skipn a (docLines (doc st)))), la, lb.
  rewrite (range_length _ a b Hab Hlen).
  repeat split; try assumption; try lia.
  unfold isMultiLineSelection. rewrite HA, HB. cbn [bind]. f_equal.
  rewrite Hna, Hnb.
  destruct (Nat.eqb_spec (S a) (S b)), (Nat.ltb_spec 1 (S b - a));
    simpl; try reflexivity; lia.
Qed.

Lemma isMultiLineSelection_counts_lines_witness :
  let st := stateOf ("a" ++ nl ++ "b" ++ nl ++ "c") 0 0 in
  1 <= 4 /\ 4 <= length (doc st)
  /\ exists lines la lb,
      getSelectedLines st 1 4 = Normal lines
      /\ lineAt (doc st) 1 = Normal la
      /\ lineAt (doc st) 4 = Normal lb
      /\ length lines = S (line_number lb) - line_number la
      /\ 1 <= length lines
      /\ isMultiLineSelection st 1 4 = Normal (1 <? length lines).
Proof.
  intros st.
  assert (H1 : 1 <= 4) by lia.
  assert (H2 : 4 <= length (doc st)) by (vm_compute; lia).
  split; [exact H1|]. split; [exact H2|].
  exact (isMultiLineSelection_counts_lines st 1 4 H1 H2).
Defined.

(** ** Header levels of lines *)

Lemma advanced_headerLevelLoop_eq (fuel : nat) (t : jsstring) (level : nat) :
  AdvancedFormatting.headerLevelLoop fuel t level
  = headerLevelLoop fuel t level.
Proof.
  revert level; induction fuel as [|fuel IH]; intros level; [reflexivity|].
  cbn [AdvancedFormatting.headerLevelLoop headerLevelLoop].
  destruct (_ && _); [apply IH | reflexivity].
Qed.

Lemma advanced_getHeaderLevel_eq (st : EditorState) (l : Line) :
  AdvancedFormatting.getHeaderLevel st l
  = getHeaderLevel (sliceDoc st (line_from l) (line_to l)).
Proof.
  unfold AdvancedFormatting.getHeaderLevel, getHeaderLevel, getLineContent.
  cbv zeta. rewrite advanced_headerLevelLoop_eq. reflexivity.
Qed.

Lemma advanced_allSame_forallb (st : EditorState) (first : Line)
    (rest : list Line) :
  AdvancedFormatting.allLinesHaveSameHeaderLevel st (first :: rest)
  = forallb (fun l => AdvancedFormatting.getHeaderLevel st l
                      =? AdvancedFormatting.getHeaderLevel st first)
      (first :: rest).
Proof.
  unfold AdvancedFormatting.allLinesHaveSameHeaderLevel. cbv zeta.
  destruct (Nat.eqb_spec (AdvancedFormatting.getHeaderLevel st first) 0)
    as [E|E]; [rewrite E|]; reflexivity.
Qed.

(** X17: on lines of the document, the [getHeaderLevel] of
    [lib/advanced-formatting] is the header level of the line's text as
    [lib/formatting-actions] computes it; [allLinesHaveSameHeaderLevel]
    holds exactly when there is a line and all lines have one level, and
    [getCommonHeaderLevel] is a level [k > 0] exactly when there is a line
    and every line has level [k]; it is never above three. *)
Theorem common_header_level_spec (st : EditorState) (lines : list Line)
    (Hdoc : forall l, In l lines -> In l (docLines (doc st))) :
  (forall l, In l lines ->
             AdvancedFormatting.getHeaderLevel st l
             = getHeaderLevel (line_text l))
  /\ (AdvancedFormatting.allLinesHaveSameHeaderLevel st lines = true
      <-> lines <> []
          /\ exists k, forall l, In l lines -> getHeaderLevel (line_text l) = k)
  /\ (forall k, k <> 0 ->
        (AdvancedFormatting.getCommonHeaderLevel st lines = k
         <-> lines <> []
             /\ forall l, In l lines -> getHeaderLevel (line_text l) = k))
  /\ AdvancedFormatting.getCommonHeaderLevel st lines <= 3.
Proof.
  assert (G : forall l, In l lines ->
                        AdvancedFormatting.getHeaderLevel st l
                        = getHeaderLevel (line_text l)).
  { intros l Hl. rewrite advanced_getHeaderLevel_eq.
    rewrite (docLines_slice st l (Hdoc l Hl)). reflexivity. }
  split; [exact G|].
  destruct lines as [|first rest].
  - split; [|split].
    + split; [discriminate | intros [H _]; contradiction].
    + intros k Hk. cbn. split; [intros E; congruence|].
      intros [H _]; contradiction.
    + cbn. lia.
  - set (lines := first :: rest) in *.
    assert (Hf : In first lines) by (left; reflexivity).
    assert (A : AdvancedFormatting.allLinesHaveSameHeaderLevel st lines = true
                <-> forall l, In l lines ->
                              getHeaderLevel (line_text l)
                              = getHeaderLevel (line_text first)).
    { unfold lines. rewrite advanced_allSame_forallb, forallb_forall.
      fold lines. split; intros H l Hl.
      - specialize (H l Hl). apply Nat.eqb_eq in H.
        rewrite <- (G l Hl), <- (G first Hf). exact H.
      - apply Nat.eqb_eq. rewrite (G l Hl), (G first Hf). auto. }
    split; [|split].
    + rewrite A. split.
      * intros H. split; [discriminate|]. eauto.
      * intros [_ [k H]] l Hl. rewrite (H l Hl), (H first Hf). reflexivity.
    + intros k Hk.
      change (AdvancedFormatting.getCommonHeaderLevel st lines)
        with (if AdvancedFormatting.allLinesHaveSameHeaderLevel st lines
              then AdvancedFormatting.getHeaderLevel st first else 0).
      rewrite (G first Hf). split.
      * intros E.
        destruct (AdvancedFormatting.allLinesHaveSameHeaderLevel st lines)
          eqn:S; [|congruence].
        split; [discriminate|]. intros l Hl.
        rewrite (proj1 A eq_refl l Hl). exact E.
      * intros [_ H].
        assert (S : AdvancedFormatting.allLinesHaveSameHeaderLevel st lines
                    = true).
        { apply A. intros l Hl. rewrite (H l Hl), (H first Hf). reflexivity. }
        rewrite S. apply H, Hf.
    + change (AdvancedFormatting.getCommonHeaderLevel st lines)
        with (if AdvancedFormatting.allLinesHaveSameHeaderLevel st lines
              then AdvancedFormatting.getHeaderLevel st first else 0).
      rewrite (G first Hf).
      destruct (AdvancedFormatting.allLinesHaveSameHeaderLevel st lines);
        [apply getHeaderLevel_le_3 | lia].
Qed.

Lemma common_header_level_spec_witness :
  let st := stateOf ("## one" ++ nl ++ "## two" ++ nl ++ "text") 0 0 in
  let lines := [mkLine 0 6 1 (lit "## one"); mkLine 7 13 2 (lit "## two")] in
  (forall l, In l lines -> In l (docLines (doc st)))
  /\ AdvancedFormatting.getCommonHeaderLevel st lines = 2
  /\ AdvancedFormatting.getCommonHeaderLevel st lines <= 3.
Proof.
  intros st lines.
  assert (H : forall l, In l lines -> In l (docLines (doc st))).
  { intros l [<-|[<-|[]]]; vm_compute; tauto. }
  split; [exact H|]. split; [reflexivity|].
  apply (common_header_level_spec st lines H).
Defined.

(** ** The selection context *)




Lemma sliceDoc_length (st : EditorState) (from to : nat) :
  to <= length (doc st) -> length (sliceDoc st from to) = to - from.
Proof.
  intros H. unfold sliceDoc. rewrite length_firstn, length_skipn. lia.
Qed.




(* ================================================================== *)
(** * More on the hook and the orchestrator *)
(* ================================================================== *)

Lemma detectAdvanced_whole_line (st : EditorState) (i : nat) (l : Line) :
  nth_error (docLines (doc st)) i = Some l ->
  detectAdvancedFormatState st (line_from l) (line_to l)
  = Normal (detectFormatState (line_text l)).
Proof.
  intros Hi. pose proof (docLines_bounds _ _ _ Hi) as (_ & Hft & _).
  apply detectAdvanced_single.
  - apply (getSelectedLines_in_line st i l); [exact Hi | lia | exact Hft | lia].
  - apply docLines_slice. apply (nth_error_In _ _ Hi).
Qed.

(** What the factory of the hook computes on a view whose selection is
    inside the document. *)
Lemma formattingInfoFactory_spec (view : EditorView) :
  sel_to (selection_main (state view)) <= length (doc (state view)) ->
  let st := state view in
  let from := sel_from (selection_main st) in
  let to := sel_to (selection_main st) in
  exists info,
    formattingInfoFactory (Some view) = Normal info
    /\ info_hasSelection info = negb (from =? to)
    /\ length (info_selectedText info) = to - from
    /\ (from = to ->
        exists l,
          lineAt (doc st) from = Normal l
          /\ info_formatState info
             = mkFormatState false false false false
                 (isH1 (line_text l)) (isH2 (line_text l))
                 (isH3 (line_text l)) (isBulletList (line_text l)))
    /\ (from <> to ->
        detectAdvancedFormatState st from to = Normal (info_formatState info)
        /\ info_selectedText info = sliceDoc st from to).
Proof.
  intros Hin. cbv zeta. unfold formattingInfoFactory.
  set (st := state view) in *. set (sel := selection_main st) in *.
  assert (Hle : sel_from sel <= sel_to sel)
    by (unfold sel_from, sel_to; lia).
  destruct (Nat.eqb_spec (sel_from sel) (sel_to sel)) as [E|E]; cbn [negb].
  - destruct (lineAt_spec (doc st) (sel_from sel)) as (i & l & HL & Hi & _);
      [lia|].
    rewrite HL. cbn [bind]. rewrite (detectAdvanced_whole_line st i l Hi).
    cbn [bind]. eexists. split; [reflexivity|].
    cbn [info_hasSelection info_selectedText info_formatState length].
    repeat match goal with |- _ /\ _ => split end;
      try reflexivity; try lia.
    intros _. exists l. split; reflexivity.
  - destruct (getSelectedLines_spec st (sel_from sel) (sel_to sel) Hle Hin)
      as (lines & HS & Hne & _).
    assert (D : exists fs, detectAdvancedFormatState st (sel_from sel)
                             (sel_to sel) = Normal fs).
    { unfold detectAdvancedFormatState. rewrite HS. cbn [bind].
      destruct (length lines =? 0); eauto. }
    destruct D as [fs D]. rewrite D. cbn [bind].
    eexists. split; [reflexivity|].
    cbn [info_hasSelection info_selectedText info_formatState].
    repeat match goal with |- _ /\ _ => split end; try reflexivity.
    + apply sliceDoc_length, Hin.
    + intros H. contradiction.
    + intros _. split; reflexivity.
Qed.

Lemma sameDep_refl (a : option nat) : sameDep a a = true.
Proof. destruct a as [x|]; simpl; [apply Nat.eqb_refl | reflexivity]. Qed.

(** A render that finds the value of the same view object returns it. *)
Lemma useTextFormatting_kept (id : nat) (info : FormattingInfo)
    (later : EditorView) :
  useTextFormatting (Some (mkMemoCell (Some id) info))
    (Some (mkViewObject id later))
  = Normal (info, mkMemoCell (Some id) info).
Proof.
  unfold useTextFormatting. cbn [option_map view_id memo_dep memo_value sameDep].
  rewrite Nat.eqb_refl. reflexivity.
Qed.

(** A render that finds no value, or the value of another view object,
    runs the factory on the state the view has now. *)
Lemma useTextFormatting_computed (cell : option MemoCell) (view : ViewObject)
    (info : FormattingInfo) :
  memoHit cell (Some (view_id view)) = false ->
  formattingInfoFactory (Some (view_now view)) = Normal info ->
  useTextFormatting cell (Some view)
  = Normal (info, mkMemoCell (Some (view_id view)) info).
Proof.
  intros Hmiss HF. unfold useTextFormatting. cbn [option_map].
  destruct cell as [c|]; cbn [memoHit] in Hmiss.
  - rewrite Hmiss, HF. reflexivity.
  - rewrite HF. reflexivity.
Qed.

(** X19: what the hook reports, for a view whose selection is inside the
    document.  At the first render with a view object the hook reports the
    state the view has then: with a caret no selection, an empty selected
    text, every inline flag off, and for h1, h2, h3 and bullet what the
    detectors say of the full text of the caret's line; with a real
    selection the resolver's state for the selection and the selected text.
    Because the value is memoised on the view object alone, every later
    render with the same object reports this same value, whatever the
    document and the selection have become.  Without a view every flag is
    off. *)
Theorem hook_reports_state_of_first_render
    (cell : option MemoCell) (view : ViewObject)
    (Hin : sel_to (selection_main (state (view_now view)))
           <= length (doc (state (view_now view)))) :
  let st := state (view_now view) in
  let from := sel_from (selection_main st) in
  let to := sel_to (selection_main st) in
  let kept := mkMemoCell (Some (view_id view)) in
  let off := mkFormattingInfo
               (mkFormatState false false false false false false false false)
               [] false in
  exists info,
    (memoHit cell (Some (view_id view)) = false ->
     useTextFormatting cell (Some view) = Normal (info, kept info))
    /\ info_hasSelection info = negb (from =? to)
    /\ length (info_selectedText info) = to - from
    /\ (from = to ->
        exists l,
          lineAt (doc st) from = Normal l
          /\ info_formatState info
             = mkFormatState false false false false
                 (isH1 (line_text l)) (isH2 (line_text l))
                 (isH3 (line_text l)) (isBulletList (line_text l)))
    /\ (from <> to ->
        detectAdvancedFormatState st from to = Normal (info_formatState info)
        /\ info_selectedText info = sliceDoc st from to)
    /\ (forall later : EditorView,
          useTextFormatting (Some (kept info))
            (Some (mkViewObject (view_id view) later))
          = Normal (info, kept info))
    /\ (forall c : MemoCell,
          cell = Some c -> memo_dep c = Some (view_id view) ->
          useTextFormatting cell (Some view) = Normal (memo_value c, c))
    /\ useTextFormatting None None = Normal (off, mkMemoCell None off)
    /\ useTextFormatting (Some (mkMemoCell None off)) (Some view)
       = Normal (info, kept info).
Proof.
  cbv zeta.
  destruct (formattingInfoFactory_spec (view_now view) Hin)
    as (info & HF & H1 & H2 & H3 & H4).
  exists info. repeat match goal with |- _ /\ _ => split end;
    try assumption.
  - intros Hmiss. apply useTextFormatting_computed; assumption.
  - intros later. apply useTextFormatting_kept.
  - intros c -> Hdep. unfold useTextFormatting. cbn [option_map].
    rewrite Hdep, sameDep_refl. reflexivity.
  - reflexivity.
  - apply useTextFormatting_computed; [reflexivity | exact HF].
Qed.

Lemma hook_reports_state_of_first_render_witness :
  let first := mkEditorView (stateOf ("<b>title</b>" ++ nl ++ "body") 3 3) in
  let later := mkEditorView (stateOf ("<b>title</b>" ++ nl ++ "body") 0 12) in
  let stale :=
    mkFormattingInfo
      (mkFormatState false false false false false false false false)
      [] false in
  sel_to (selection_main (state first)) <= length (doc (state first))
  /\ useTextFormatting None (Some (mkViewObject 0 first))
     = Normal (stale, mkMemoCell (Some 0) stale)
  /\ useTextFormatting (Some (mkMemoCell (Some 0) stale))
       (Some (mkViewObject 0 later))
     = Normal (stale, mkMemoCell (Some 0) stale)
  /\ formattingInfoFactory (Some later)
     = Normal (mkFormattingInfo
                 (mkFormatState true false false false false false false false)
                 (lit "<b>title</b>") true)
  /\ exists info,
      useTextFormatting None (Some (mkViewObject 0 first))
      = Normal (info, mkMemoCell (Some 0) info)
      /\ info_hasSelection info = false
      /\ useTextFormatting (Some (mkMemoCell (Some 0) info))
           (Some (mkViewObject 0 later))
         = Normal (info, mkMemoCell (Some 0) info).
Proof.
  intros first later stale.
  assert (H : sel_to (selection_main (state first))
              <= length (doc (state first))) by (vm_compute; lia).
  split; [exact H|]. split; [reflexivity|]. split; [reflexivity|].
  split; [reflexivity|].
  destruct (hook_reports_state_of_first_render None (mkViewObject 0 first) H)
    as (info & A & B & _ & _ & _ & C & _).
  exists info. split; [apply A; reflexivity|]. split; [exact B|].
  apply (C later).
Defined.




Lemma skipn_firstn_app {A : Type} (d x : list A) (n : nat) :
  n <= length d -> skipn n (firstn n d ++ x) = x.
Proof.
  intros H. rewrite skipn_app, length_firstn.
  replace (n - Nat.min n (length d)) with 0 by lia.
  rewrite skipn_all2 by (rewrite length_firstn; lia). reflexivity.
Qed.

Lemma firstn_firstn_app {A : Type} (d x : list A) (n : nat) :
  n <= length d -> firstn n (firstn n d ++ x) = firstn n d.
Proof.
  intros H. rewrite firstn_app, length_firstn.
  replace (n - Nat.min n (length d)) with 0 by lia.
  rewrite firstn_firstn, Nat.min_id. cbn [firstn]. apply app_nil_r.
Qed.

(** X21: with a real selection inside the document, an inline type, or
    any type when the selection lies in one line, replaces exactly the
    selected text by its toggle; for a heading or a bullet too it is the
    selected text that is toggled, not the line.  The new selection starts
    where the old one did and holds the replacement; the text before the
    selection and the text after it stay as they were. *)
Theorem applyFormatting_replaces_selection
    (view : EditorView) (formatType : FormatType)
    (Hsel : sel_from (selection_main (state view))
            <> sel_to (selection_main (state view)))
    (Hin : sel_to (selection_main (state view)) <= length (doc (state view)))
    (Hcase : (isHeaderType formatType = false
              /\ isBulletType formatType = false)
             \/ exists l,
                 getSelectedLines (state view)
                   (sel_from (selection_main (state view)))
                   (sel_to (selection_main (state view))) = Normal [l]) :
  let st := state view in
  let from := sel_from (selection_main st) in
  let to := sel_to (selection_main st) in
  let formatted := toggleFormat (sliceDoc st from to) formatType in
  let effects :=
    [Dispatch (mkTransaction [mkChange from to formatted]
                 (Some (mkSelection from (from + length formatted))));
     Focus] in
  applyFormatting (Some view) formatType = Normal effects
  /\ docAfter (doc st) effects
     = firstn from (doc st) ++ formatted ++ skipn to (doc st)
  /\ firstn (length formatted) (skipn from (docAfter (doc st) effects))
     = formatted
  /\ firstn from (docAfter (doc st) effects) = firstn from (doc st)
  /\ skipn (from + length formatted) (docAfter (doc st) effects)
     = skipn to (doc st)
  /\ length (docAfter (doc st) effects) + (to - from)
     = length (doc st) + length formatted.
Proof.
  cbv zeta. set (st := state view) in *. set (sel := selection_main st) in *.
  assert (Hle : sel_from sel <= sel_to sel)
    by (unfold sel_from, sel_to; lia).
  set (f := toggleFormat (sliceDoc st (sel_from sel) (sel_to sel)) formatType).
  assert (Hd : docAfter (doc st)
                 [Dispatch (mkTransaction [mkChange (sel_from sel) (sel_to sel) f]
                              (Some (mkSelection (sel_from sel)
                                       (sel_from sel + length f))));
                  Focus]
               = firstn (sel_from sel) (doc st) ++ f ++ skipn (sel_to sel) (doc st))
    by reflexivity.
  rewrite Hd.
  split; [|split; [reflexivity|split; [|split; [|split]]]].
  - unfold applyFormatting. fold st. fold sel.
    destruct (Nat.eqb_spec (sel_from sel) (sel_to sel)) as [E|_];
      [contradiction|].
    destruct Hcase as [[H1 H2]|[l HL]].
    + destruct (getSelectedLines_spec st (sel_from sel) (sel_to sel) Hle Hin)
        as (lines & HS & _).
      rewrite HS. cbn [bind]. rewrite H1, H2. reflexivity.
    + rewrite HL. cbn [bind length Nat.eqb negb].
      rewrite !andb_false_r. reflexivity.
  - rewrite skipn_firstn_app by lia.
    rewrite firstn_app, Nat.sub_diag, firstn_all. cbn [firstn].
    apply app_nil_r.
  - apply firstn_firstn_app. lia.
  - rewrite app_assoc, skipn_app.
    rewrite skipn_all2 by (rewrite length_app, length_firstn; lia).
    rewrite length_app, length_firstn.
    replace (sel_from sel + length f
             - (Nat.min (sel_from sel) (length (doc st)) + length f))
      with 0 by lia.
    reflexivity.
  - rewrite !length_app, length_firstn, length_skipn. lia.
Qed.

Lemma applyFormatting_replaces_selection_witness :
  let view := mkEditorView (stateOf "Hello world" 11 6) in
  sel_from (selection_main (state view)) <> sel_to (selection_main (state view))
  /\ sel_to (selection_main (state view)) <= length (doc (state view))
  /\ applyFormatting (Some view) h1
     = Normal [Dispatch (mkTransaction [mkChange 6 11 (lit "# world")]
                           (Some (mkSelection 6 13)));
               Focus]
  /\ docAfter (doc (state view))
       [Dispatch (mkTransaction [mkChange 6 11 (lit "# world")]
                    (Some (mkSelection 6 13)));
        Focus]
     = lit "Hello # world".
Proof.
  intros view.
  assert (H1 : sel_from (selection_main (state view))
               <> sel_to (selection_main (state view)))
    by (vm_compute; lia).
  assert (H2 : sel_to (selection_main (state view))
               <= length (doc (state view))) by (vm_compute; lia).
  assert (H3 : (isHeaderType h1 = false /\ isBulletType h1 = false)
               \/ exists l,
                   getSelectedLines (state view)
                     (sel_from (selection_main (state view)))
                     (sel_to (selection_main (state view))) = Normal [l]).
  { right. exists (mkLine 0 11 1 (lit "Hello world")). reflexivity. }
  split; [exact H1|]. split; [exact H2|].
  destruct (applyFormatting_replaces_selection view h1 H1 H2 H3) as (A & B & _).
  split; [exact A | exact B].
Defined.

(* ================================================================== *)
(** * Line breaks *)
(* ================================================================== *)

Lemma noNewline_app (a b : jsstring) :
  noNewline (a ++ b) = noNewline a && noNewline b.
Proof. apply forallb_app. Qed.

Lemma noNewline_sub (a b : jsstring) :
  (forall c, In c b -> In c a) -> noNewline a = true -> noNewline b = true.
Proof.
  unfold noNewline. rewrite !forallb_forall. intros H Ha c Hc. auto.
Qed.

Lemma In_dropWhile (f : char -> bool) (s : jsstring) (c : char) :
  In c (dropWhile f s) -> In c s.
Proof.
  induction s as [|x r IH]; cbn [dropWhile]; [auto|].
  destruct (f x); [intros H; right; auto | auto].
Qed.

Lemma In_trim (s : jsstring) (c : char) : In c (trim s) -> In c s.
Proof.
  unfold trim, trimEnd, trimStart. intros H.
  apply in_rev, In_dropWhile in H. apply in_rev in H.
  apply In_dropWhile in H. exact H.
Qed.

Lemma In_slice (s : jsstring) (b e : Z) (c : char) :
  In c (slice s b e) -> In c s.
Proof.
  unfold slice. intros H.
  match type of H with In c (firstn ?n (skipn ?m s)) =>
    rewrite <- (firstn_skipn m s); apply in_or_app; right;
    rewrite <- (firstn_skipn n (skipn m s)); apply in_or_app; left; exact H
  end.
Qed.

Lemma In_removeBoldLoop (n : nat) (t : jsstring) (c : char) :
  In c (removeBoldLoop n t) -> In c t.
Proof.
  revert t; induction n as [|n IH]; intros t; cbn [removeBoldLoop]; [auto|].
  destruct (boldWrapped t); [|auto].
  intros H. apply IH, In_slice in H. exact H.
Qed.

Lemma In_removeItalicLoop (n : nat) (t : jsstring) (c : char) :
  In c (removeItalicLoop n t) -> In c t.
Proof.
  revert t; induction n as [|n IH]; intros t; cbn [removeItalicLoop]; [auto|].
  destruct (italicWrapped t); [|auto]. destruct (_ || _); [auto|].
  intros H. apply IH, In_slice in H. exact H.
Qed.

Lemma In_specStripHeaderPrefix (t : jsstring) (c : char) :
  In c (specStripHeaderPrefix t) -> In c t.
Proof.
  unfold specStripHeaderPrefix. destruct (_ && _); [|auto].
  intros H. apply In_dropWhile, In_dropWhile in H. exact H.
Qed.

Lemma In_specStripBulletPrefix (t : jsstring) (c : char) :
  In c (specStripBulletPrefix t) -> In c t.
Proof.
  unfold specStripBulletPrefix. destruct t as [|x r]; [auto|].
  destruct (_ && _); [|auto].
  intros H. right. apply In_dropWhile in H. exact H.
Qed.

Lemma In_remove (s : jsstring) (c : char) :
  (In c (removeBold s) -> In c s)
  /\ (In c (removeItalic s) -> In c s)
  /\ (In c (removeUnderline s) -> In c s)
  /\ (In c (removeStrikethrough s) -> In c s)
  /\ (In c (removeHeader s) -> In c s)
  /\ (In c (removeBulletList s) -> In c s).
Proof.
  repeat split; intros H.
  - apply In_removeBoldLoop, In_trim in H. exact H.
  - apply In_removeItalicLoop, In_trim in H. exact H.
  - unfold removeUnderline in H.
    destruct (isUnderline (trim s)); [apply In_slice, In_trim in H|]; exact H.
  - unfold removeStrikethrough in H.
    destruct (isStrikethrough (trim s));
      [apply In_slice, In_trim in H|]; exact H.
  - rewrite removeHeader_spec in H.
    apply In_specStripHeaderPrefix, In_trim in H. exact H.
  - rewrite removeBulletList_spec in H.
    apply In_specStripBulletPrefix, In_trim in H. exact H.
Qed.

Lemma toggleFormat_keeps_line (formatType : FormatType) (t : jsstring) :
  noNewline t = true -> noNewline (toggleFormat t formatType) = true.
Proof.
  intros Ht.
  assert (R : forall r, (forall c, In c r -> In c t) -> noNewline r = true)
    by (intros r Hr; apply (noNewline_sub t r Hr Ht)).
  assert (RB := fun c => proj1 (In_remove t c)).
  assert (RI := fun c => proj1 (proj2 (In_remove t c))).
  assert (RU := fun c => proj1 (proj2 (proj2 (In_remove t c)))).
  assert (RS := fun c => proj1 (proj2 (proj2 (proj2 (In_remove t c))))).
  assert (RH := fun c => proj1 (proj2 (proj2 (proj2 (proj2 (In_remove t c)))))).
  assert (RL := fun c => proj2 (proj2 (proj2 (proj2 (proj2 (In_remove t c)))))).
  destruct formatType; cbn [toggleFormat];
    unfold toggleBold, toggleItalic, toggleUnderline, toggleStrikethrough,
      toggleH1, toggleH2, toggleH3, toggleBulletList;
    match goal with |- noNewline (if ?b then _ else _) = true => destruct b end;
    try (apply R; assumption);
    unfold applyBold, applyItalic, applyUnderline, applyStrikethrough;
    rewrite ?applyH1_removeHeader, ?applyH2_removeHeader,
      ?applyH3_removeHeader, ?applyBulletList_removeBulletList;
    rewrite !noNewline_app, ?Ht, ?(R _ RH), ?(R _ RL); reflexivity.
Qed.

(** X22: no toggle brings a line break into a text that has none, so a
    toggled line is still one line. *)
Theorem toggleFormat_adds_no_line_break
    (t : jsstring) (formatType : FormatType) (Ht : noNewline t = true) :
  noNewline (toggleFormat t formatType) = true.
Proof. apply toggleFormat_keeps_line, Ht. Qed.

Lemma toggleFormat_adds_no_line_break_witness :
  noNewline (lit "## Already H2") = true
  /\ noNewline (toggleFormat (lit "## Already H2") h1) = true.
Proof.
  assert (H : noNewline (lit "## Already H2") = true) by reflexivity.
  split; [exact H|].
  exact (toggleFormat_adds_no_line_break (lit "## Already H2") h1 H).
Defined.

(* ================================================================== *)
(** * Whole-line edits *)
(* ================================================================== *)

Lemma linesFrom_length (ls : list jsstring) (s n : nat) :
  length (linesFrom s n ls) = length ls.
Proof.
  revert s n; induction ls as [|t r IH]; intros s n; [reflexivity|].
  cbn [linesFrom length]. rewrite IH. reflexivity.
Qed.

Lemma linesFrom_app (x y : list jsstring) (s n : nat) :
  linesFrom s n (x ++ y)
  = linesFrom s n x ++ linesFrom (s + linesSpan x) (n + length x) y.
Proof.
  revert s n; induction x as [|t r IH]; intros s n.
  - cbn [app linesFrom linesSpan length]. rewrite !Nat.add_0_r. reflexivity.
  - cbn [app linesFrom linesSpan length]. rewrite IH.
    replace (s + length t + 1 + linesSpan r)
      with (s + (length t + 1 + linesSpan r)) by lia.
    replace (S n + length r) with (n + S (length r)) by lia.
    reflexivity.
Qed.

Lemma linesFrom_texts (ls : list jsstring) (s n : nat) :
  map line_text (linesFrom s n ls) = ls.
Proof.
  revert s n; induction ls as [|t r IH]; intros s n; [reflexivity|].
  cbn [linesFrom map line_text]. rewrite IH. reflexivity.
Qed.

Lemma joinLines_app (x y : list jsstring) :
  x <> [] -> y <> [] ->
  joinLines (x ++ y) = joinLines x ++ 10%N :: joinLines y.
Proof.
  intros Hx Hy. induction x as [|t r IH]; [contradiction|].
  destruct r as [|t2 r].
  - destruct y as [|u y]; [contradiction|]. reflexivity.
  - change ((t :: t2 :: r) ++ y) with (t :: (t2 :: r) ++ y).
    change ((t2 :: r) ++ y) with (t2 :: r ++ y) at 1.
    rewrite joinLines_cons.
    change (t2 :: r ++ y) with ((t2 :: r) ++ y).
    rewrite IH by discriminate. rewrite joinLines_cons, <- app_assoc.
    reflexivity.
Qed.

Lemma joinLines_span (x : list jsstring) :
  x <> [] -> length (joinLines x) + 1 = linesSpan x.
Proof.
  induction x as [|t r IH]; [contradiction|]. intros _.
  destruct r as [|t2 r].
  - cbn [joinLines linesSpan]. lia.
  - rewrite joinLines_length_cons by discriminate.
    cbn [linesSpan] in *. rewrite <- IH by discriminate. lia.
Qed.

(** The text of a document around a block of its lines: what comes before
    the block and what comes after it do not depend on the block. *)
Lemma joinLines_sandwich (x z : list jsstring) :
  exists pre post,
    length pre = linesSpan x
    /\ forall mid, mid <> [] ->
                   joinLines (x ++ mid ++ z) = pre ++ joinLines mid ++ post.
Proof.
  destruct x as [|x0 x]; destruct z as [|z0 z].
  - exists [], []. split; [reflexivity|]. intros mid _.
    cbn [app]. rewrite !app_nil_r. reflexivity.
  - exists [], (10%N :: joinLines (z0 :: z)). split; [reflexivity|].
    intros mid Hm. cbn [app]. apply joinLines_app; [exact Hm | discriminate].
  - exists (joinLines (x0 :: x) ++ [10%N]), []. split.
    + rewrite length_app. cbn [length]. apply joinLines_span. discriminate.
    + intros mid Hm. rewrite !app_nil_r.
      rewrite joinLines_app by (try discriminate; exact Hm).
      rewrite <- app_assoc. reflexivity.
  - exists (joinLines (x0 :: x) ++ [10%N]), (10%N :: joinLines (z0 :: z)).
    split.
    + rewrite length_app. cbn [length]. apply joinLines_span. discriminate.
    + intros mid Hm.
      rewrite joinLines_app;
        [| discriminate | destruct mid; [contradiction | discriminate]].
      rewrite joinLines_app by (try discriminate; exact Hm).
      rewrite <- !app_assoc. reflexivity.
Qed.

Lemma replaceRange_lineChange (g : jsstring -> jsstring)
    (pre t rest : jsstring) (num : nat) :
  replaceRange (pre ++ t ++ rest)
    (lineChange g (mkLine (length pre) (length pre + length t) num t))
  = pre ++ g t ++ rest.
Proof.
  unfold replaceRange, lineChange.
  cbn [change_from change_to change_insert line_from line_to line_text].
  rewrite firstn_app, Nat.sub_diag, firstn_all. cbn [firstn].
  rewrite app_nil_r. f_equal. f_equal.
  rewrite skipn_app, skipn_all2 by lia.
  replace (length pre + length t - length pre) with (length t) by lia.
  rewrite skipn_app, skipn_all, Nat.sub_diag. reflexivity.
Qed.

(** Whole-line changes, applied from the last to the first, rewrite each
    line of the block and nothing else. *)
Lemma applyChanges_block (g : jsstring -> jsstring) (mid : list jsstring) :
  forall (pre post : jsstring) (num : nat),
    mid <> [] ->
    applyChanges (pre ++ joinLines mid ++ post)
      (map (lineChange g) (linesFrom (length pre) num mid))
    = pre ++ joinLines (map g mid) ++ post.
Proof.
  induction mid as [|t r IH]; intros pre post num Hne; [contradiction|].
  destruct r as [|t2 r].
  - cbn [linesFrom map applyChanges fold_right joinLines].
    apply replaceRange_lineChange.
  - change (applyChanges (pre ++ joinLines (t :: t2 :: r) ++ post)
              (map (lineChange g) (linesFrom (length pre) num (t :: t2 :: r))))
      with (replaceRange
              (applyChanges (pre ++ joinLines (t :: t2 :: r) ++ post)
                 (map (lineChange g)
                    (linesFrom (length pre + length t + 1) (S num) (t2 :: r))))
              (lineChange g
                 (mkLine (length pre) (length pre + length t) num t))).
    assert (E : pre ++ joinLines (t :: t2 :: r) ++ post
                = (pre ++ t ++ [10%N]) ++ joinLines (t2 :: r) ++ post).
    { rewrite joinLines_cons, <- !app_assoc. reflexivity. }
    assert (L : length pre + length t + 1 = length (pre ++ t ++ [10%N]))
      by (rewrite !length_app; simpl; lia).
    rewrite E, L, IH by discriminate.
    rewrite <- !app_assoc. rewrite replaceRange_lineChange.
    change (map g (t :: t2 :: r)) with (g t :: map g (t2 :: r)).
    cbn [map]. rewrite joinLines_cons, <- !app_assoc. reflexivity.
Qed.

Lemma list_block_split {A : Type} (ls : list A) (a n : nat) :
  ls = firstn a ls ++ firstn n (skipn a ls) ++ skipn (a + n) ls.
Proof.
  rewrite <- (firstn_skipn a ls) at 1. f_equal.
  rewrite <- (firstn_skipn n (skipn a ls)) at 1. f_equal.
  rewrite skipn_skipn. f_equal. lia.
Qed.

Lemma linesFrom_block (ls : list jsstring) (a n : nat) :
  a + n <= length ls ->
  firstn n (skipn a (linesFrom 0 1 ls))
  = linesFrom (linesSpan (firstn a ls)) (1 + a) (firstn n (skipn a ls)).
Proof.
  intros H.
  rewrite (list_block_split ls a n) at 1.
  rewrite !linesFrom_app.
  assert (La : length (firstn a ls) = a) by (rewrite length_firstn; lia).
  assert (Ln : length (firstn n (skipn a ls)) = n)
    by (rewrite length_firstn, length_skipn; lia).
  rewrite skipn_app, skipn_all2 by (rewrite linesFrom_length; lia).
  rewrite linesFrom_length, La, Nat.sub_diag. cbn [app skipn].
  rewrite firstn_app, linesFrom_length, Ln, Nat.sub_diag.
  rewrite firstn_all2 by (rewrite linesFrom_length; lia).
  cbn [firstn]. rewrite app_nil_r. reflexivity.
Qed.

Lemma applyChanges_range (g : jsstring -> jsstring) (ls : list jsstring)
    (a n : nat) :
  1 <= n -> a + n <= length ls ->
  applyChanges (joinLines ls)
    (map (lineChange g) (firstn n (skipn a (linesFrom 0 1 ls))))
  = joinLines (firstn a ls ++ map g (firstn n (skipn a ls))
               ++ skipn (a + n) ls).
Proof.
  intros Hn H. rewrite (linesFrom_block ls a n H).
  destruct (joinLines_sandwich (firstn a ls) (skipn (a + n) ls))
    as (pre & post & Hpre & Hj).
  assert (Hmid : firstn n (skipn a ls) <> []).
  { intros E. apply (f_equal (@length jsstring)) in E.
    rewrite length_firstn, length_skipn in E. simpl in E. lia. }
  rewrite (list_block_split ls a n) at 1.
  rewrite (Hj _ Hmid), <- Hpre.
  rewrite applyChanges_block by exact Hmid.
  rewrite Hj; [reflexivity|].
  intros E. apply Hmid. apply map_eq_nil in E. exact E.
Qed.

Lemma splitLines_single (t : jsstring) :
  noNewline t = true -> splitLines t = [t].
Proof.
  induction t as [|c r IH]; [reflexivity|].
  cbn [noNewline forallb]. intros H. apply andb_true_iff in H as [Hc Hr].
  cbn [splitLines]. apply negb_true_iff in Hc. rewrite Hc.
  rewrite (IH Hr). reflexivity.
Qed.

Lemma splitLines_app_newline (t J : jsstring) :
  noNewline t = true -> splitLines (t ++ 10%N :: J) = t :: splitLines J.
Proof.
  induction t as [|c r IH]; [reflexivity|].
  cbn [noNewline forallb]. intros H. apply andb_true_iff in H as [Hc Hr].
  cbn [app splitLines]. apply negb_true_iff in Hc. rewrite Hc.
  rewrite (IH Hr). reflexivity.
Qed.

Lemma splitLines_joinLines (ls : list jsstring) :
  ls <> [] -> Forall (fun t => noNewline t = true) ls ->
  splitLines (joinLines ls) = ls.
Proof.
  induction ls as [|t r IH]; [contradiction|]. intros _ H.
  inversion H as [|? ? Ht Hr]; subst.
  destruct r as [|t2 r].
  - apply splitLines_single, Ht.
  - rewrite joinLines_cons, splitLines_app_newline by exact Ht.
    rewrite IH by (try discriminate; exact Hr). reflexivity.
Qed.

Lemma splitLines_noNewline (d : jsstring) :
  Forall (fun t => noNewline t = true) (splitLines d).
Proof.
  induction d as [|c r IH]; [repeat constructor|].
  cbn [splitLines]. destruct (is_newline c) eqn:E.
  - constructor; [reflexivity | exact IH].
  - destruct (splitLines r) as [|l ls]; [repeat constructor; cbn; rewrite E; reflexivity|].
    inversion IH as [|? ? Hl Hls]; subst. constructor; [|exact Hls].
    cbn [noNewline forallb]. rewrite E. exact Hl.
Qed.

Lemma Forall_block {A : Type} (P : A -> Prop) (ls : list A) (a n : nat)
    (mid : list A) :
  Forall P ls -> Forall P mid ->
  Forall P (firstn a ls ++ mid ++ skipn (a + n) ls).
Proof.
  intros H Hm. rewrite Forall_forall in *. intros x Hx.
  apply in_app_or in Hx as [Hx|Hx].
  - apply H. rewrite <- (firstn_skipn a ls). apply in_or_app. auto.
  - apply in_app_or in Hx as [Hx|Hx]; [auto|].
    apply H. rewrite <- (firstn_skipn (a + n) ls). apply in_or_app. auto.
Qed.

(** The lines of the document after a block of its lines has been
    rewritten line by line. *)
Lemma splitLines_after_changes (g : jsstring -> jsstring) (d : Text)
    (a n : nat) :
  (forall t, noNewline t = true -> noNewline (g t) = true) ->
  1 <= n -> a + n <= length (splitLines d) ->
  splitLines (applyChanges d
                (map (lineChange g) (firstn n (skipn a (docLines d)))))
  = firstn a (splitLines d) ++ map g (firstn n (skipn a (splitLines d)))
    ++ skipn (a + n) (splitLines d).
Proof.
  intros Hg Hn H. unfold docLines.
  rewrite <- (joinLines_splitLines d) at 1.
  rewrite applyChanges_range by assumption.
  apply splitLines_joinLines.
  - intros E. apply (f_equal (@length jsstring)) in E.
    rewrite !length_app, length_map, !length_firstn, !length_skipn in E.
    simpl in E. lia.
  - apply Forall_block; [apply splitLines_noNewline|].
    rewrite Forall_forall. intros x Hx. apply in_map_iff in Hx as (t & <- & Ht).
    apply Hg. pose proof (splitLines_noNewline d) as F.
    rewrite Forall_forall in F. apply F.
    rewrite <- (firstn_skipn a (splitLines d)). apply in_or_app. right.
    rewrite <- (firstn_skipn n (skipn a (splitLines d))). apply in_or_app. auto.
Qed.

Lemma replaceNth_split {A : Type} (ls : list A) (i : nat) (t x : A) :
  nth_error ls i = Some t ->
  replaceNth i x ls = firstn i ls ++ x :: skipn (S i) ls.
Proof.
  revert i; induction ls as [|c r IH]; intros [|i] H; try discriminate.
  - reflexivity.
  - cbn [nth_error] in H. cbn [replaceNth firstn skipn app].
    f_equal. apply IH, H.
Qed.

Lemma replaceNth_length {A : Type} (ls : list A) (i : nat) (x : A) :
  length (replaceNth i x ls) = length ls.
Proof.
  revert i; induction ls as [|c r IH]; intros [|i]; try reflexivity.
  cbn [replaceNth length]. rewrite IH. reflexivity.
Qed.

Lemma replaceNth_other {A : Type} (ls : list A) (i j : nat) (x : A) :
  j <> i -> nth_error (replaceNth i x ls) j = nth_error ls j.
Proof.
  revert i j; induction ls as [|c r IH]; intros [|i] [|j] H;
    try reflexivity; try contradiction.
  cbn [replaceNth nth_error]. apply IH. lia.
Qed.

Lemma replaceNth_twice {A : Type} (ls : list A) (i : nat) (x y : A) :
  replaceNth i y (replaceNth i x ls) = replaceNth i y ls.
Proof.
  revert i; induction ls as [|c r IH]; intros [|i]; try reflexivity.
  cbn [replaceNth]. rewrite IH. reflexivity.
Qed.

Lemma replaceNth_same {A : Type} (ls : list A) (i : nat) (t : A) :
  nth_error ls i = Some t -> replaceNth i t ls = ls.
Proof.
  revert i; induction ls as [|c r IH]; intros [|i] H; try discriminate.
  - injection H as ->. reflexivity.
  - cbn [nth_error] in H. cbn [replaceNth]. rewrite IH by exact H. reflexivity.
Qed.

Lemma docLines_text_nth (d : Text) (i : nat) (l : Line) :
  nth_error (docLines d) i = Some l ->
  nth_error (splitLines d) i = Some (line_text l).
Proof.
  intros H. rewrite <- (linesFrom_texts (splitLines d) 0 1).
  rewrite nth_error_map. fold (docLines d). rewrite H. reflexivity.
Qed.

(** What [applyFormatting] does for a heading or bullet type with a caret
    in the line [l]. *)
Lemma caret_block_toggle (view : EditorView) (formatType : FormatType)
    (i : nat) (l : Line) :
  let st := state view in
  let sel := selection_main st in
  sel_from sel = sel_to sel ->
  nth_error (docLines (doc st)) i = Some l ->
  line_from l <= sel_from sel -> sel_from sel <= line_to l ->
  isHeaderType formatType = true \/ isBulletType formatType = true ->
  applyFormatting (Some view) formatType
  = Normal [Dispatch
              (mkTransaction
                 [lineChange (fun t => toggleFormat t formatType) l] None);
            Focus]
  /\ splitLines
       (docAfter (doc st)
          [Dispatch
             (mkTransaction
                [lineChange (fun t => toggleFormat t formatType) l] None);
           Focus])
     = replaceNth i (toggleFormat (line_text l) formatType)
         (splitLines (doc st)).
Proof.
  cbv zeta. set (st := state view). set (sel := selection_main st).
  intros Hcaret Hi H1 H2 Hblock. split.
  - unfold applyFormatting. fold st. fold sel.
    rewrite Hcaret, Nat.eqb_refl. rewrite <- Hcaret.
    rewrite (lineAt_unique (doc st) i l (sel_from sel) Hi H1 H2). cbn [bind].
    rewrite (docLines_slice st l (nth_error_In _ _ Hi)).
    unfold lineChange.
    destruct formatType; cbn [isHeaderType isBulletType] in Hblock;
      try (destruct Hblock; discriminate); reflexivity.
  - change (docAfter (doc st)
              [Dispatch
                 (mkTransaction
                    [lineChange (fun t => toggleFormat t formatType) l] None);
               Focus])
      with (applyChanges (doc st)
              (map (lineChange (fun t => toggleFormat t formatType)) [l])).
    assert (E : [l] = firstn 1 (skipn i (docLines (doc st))))
      by (rewrite (skipn_cons_nth_error _ _ _ Hi); reflexivity).
    pose proof (docLines_text_nth _ _ _ Hi) as Ht.
    assert (Hlen : i < length (splitLines (doc st)))
      by (apply nth_error_Some; rewrite Ht; discriminate).
    rewrite E, splitLines_after_changes;
      [| intros t; apply toggleFormat_keeps_line | lia | lia].
    rewrite (skipn_cons_nth_error _ _ _ Ht). cbn [firstn map app].
    rewrite (replaceNth_split _ _ _ _ Ht).
    replace (i + 1) with (S i) by lia. reflexivity.
Qed.

(** X23: with a caret inside the document, a heading or bullet type
    rewrites the caret's line and nothing else: one change covers the line
    from its start to its end and puts the toggled full text there; the
    lines of the document afterwards are the lines before with that one
    line replaced, so the number of lines and every other line stay as they
    were. *)
Theorem caret_toggle_rewrites_one_line
    (view : EditorView) (formatType : FormatType)
    (Hcaret : sel_from (selection_main (state view))
              = sel_to (selection_main (state view)))
    (Hin : sel_to (selection_main (state view)) <= length (doc (state view)))
    (Hblock : isHeaderType formatType = true \/ isBulletType formatType = true) :
  let st := state view in
  exists i l effects,
    lineAt (doc st) (sel_from (selection_main st)) = Normal l
    /\ nth_error (docLines (doc st)) i = Some l
    /\ applyFormatting (Some view) formatType = Normal effects
    /\ effects
       = [Dispatch
            (mkTransaction
               [mkChange (line_from l) (line_to l)
                  (toggleFormat (line_text l) formatType)] None);
          Focus]
    /\ splitLines (docAfter (doc st) effects)
       = replaceNth i (toggleFormat (line_text l) formatType)
           (splitLines (doc st))
    /\ length (splitLines (docAfter (doc st) effects))
       = length (splitLines (doc st))
    /\ (forall j, j <> i ->
                  nth_error (splitLines (docAfter (doc st) effects)) j
                  = nth_error (splitLines (doc st)) j).
Proof.
  cbv zeta.
  destruct (lineAt_spec (doc (state view))
              (sel_from (selection_main (state view))))
    as (i & l & HL & Hi & _ & H1 & H2); [lia|].
  destruct (caret_block_toggle view formatType i l Hcaret Hi H1 H2 Hblock)
    as [A S].
  exists i, l. eexists. split; [exact HL|]. split; [exact Hi|].
  split; [exact A|]. split; [reflexivity|].
  rewrite S.
  split; [reflexivity|]. split.
  - apply replaceNth_length.
  - intros j Hj. apply replaceNth_other, Hj.
Qed.

Lemma caret_toggle_rewrites_one_line_witness :
  let view :=
    mkEditorView (stateOf ("intro" ++ nl ++ "item" ++ nl ++ "end") 8 8) in
  sel_from (selection_main (state view)) = sel_to (selection_main (state view))
  /\ sel_to (selection_main (state view)) <= length (doc (state view))
  /\ exists effects,
      applyFormatting (Some view) bullet = Normal effects
      /\ splitLines (docAfter (doc (state view)) effects)
         = [lit "intro"; lit "- item"; lit "end"].
Proof.
  intros view.
  assert (H1 : sel_from (selection_main (state view))
               = sel_to (selection_main (state view))) by reflexivity.
  assert (H2 : sel_to (selection_main (state view))
               <= length (doc (state view))) by (vm_compute; lia).
  split; [exact H1|]. split; [exact H2|].
  destruct (caret_toggle_rewrites_one_line view bullet H1 H2
              (or_intror eq_refl))
    as (i & l & effects & A & B & C & D & _).
  exists effects. split; [exact C|].
  assert (E : lineAt (doc (state view)) (sel_from (selection_main (state view)))
              = Normal (mkLine 6 10 2 (lit "item"))) by reflexivity.
  rewrite E in A. injection A as <-. rewrite D. reflexivity.
Defined.



Example multiline_bullet_each_line_own_toggle :
  exists effects,
    applyFormatting
      (viewOf ("top" ++ nl ++ "- one" ++ nl ++ "two" ++ nl ++ "end") 6 12)
      bullet = Normal effects
    /\ docAfter (lit ("top" ++ nl ++ "- one" ++ nl ++ "two" ++ nl ++ "end"))
         effects
       = lit ("top" ++ nl ++ "one" ++ nl ++ "- two" ++ nl ++ "end").
Proof. eexists; split; reflexivity. Qed.

Lemma linesFrom_replaceNth (ls : list jsstring) (x : jsstring) :
  forall s n i l,
    nth_error (linesFrom s n ls) i = Some l ->
    nth_error (linesFrom s n (replaceNth i x ls)) i
    = Some (mkLine (line_from l) (line_from l + length x) (line_number l) x).
Proof.
  induction ls as [|t r IH]; intros s n [|i] l H; try discriminate.
  - cbn [linesFrom nth_error] in H. injection H as <-. reflexivity.
  - cbn [linesFrom nth_error replaceNth] in *. apply IH, H.
Qed.

Lemma block_toggle_twice_plain (t : jsstring) (formatType : FormatType) :
  trim t = t -> t <> [] ->
  (isHeaderType formatType = true /\ regexTest reHeaderPrefix t = false)
  \/ (isBulletType formatType = true /\ isBulletList t = false) ->
  toggleFormat (toggleFormat t formatType) formatType = t.
Proof.
  intros Ht Hne Hplain.
  assert (Hs : trim t <> []) by (rewrite Ht; exact Hne).
  destruct Hplain as [[Hf Hp]|[Hf Hb]].
  - rewrite <- Ht in Hp.
    pose proof (no_prefix_no_level t Hp) as L.
    assert (E : removeHeader t = t).
    { transitivity (trim t); [|exact Ht].
      apply regexStrip_header_fixed_iff. exact Hp. }
    destruct (removeHeader_applied t Hs) as (R1 & R2 & R3).
    destruct (isH_applied t Hs) as (D1 & D2 & D3).
    destruct formatType; try discriminate; cbn [toggleFormat];
      unfold toggleH1, toggleH2, toggleH3, isH1, isH2, isH3;
      rewrite L; cbn [Nat.eqb];
      fold (isH1 (applyH1 t)); fold (isH2 (applyH2 t));
      fold (isH3 (applyH3 t)); rewrite ?D1, ?D2, ?D3; congruence.
  - destruct formatType; try discriminate. cbn [toggleFormat].
    pose proof (removeBulletList_nonempty t Hs) as Hc.
    pose proof (removeBulletList_trimmed t) as Hct.
    destruct (removeBulletList_after_marker (ch "-") (lit " ")
                (removeBulletList t)) as (_ & R & D);
      try solve [reflexivity | discriminate | assumption].
    change (ch "-" :: lit " " ++ removeBulletList t)
      with (applyBulletList t) in R, D.
    unfold toggleBulletList. rewrite Hb, D, R.
    transitivity (trim t); [|exact Ht].
    apply regexStrip_bullet_fixed_iff. rewrite <- isBulletList_strip. exact Hb.
Qed.

(** X25: toggling a heading or the bullet with the caret in a line and
    toggling it again, with the caret anywhere in the rewritten line, gives
    the document back, when the line's text is trimmed, not empty and
    without the marker of the style. *)
Theorem caret_toggle_twice_restores_document
    (d : Text) (formatType : FormatType) (i : nat) (l : Line) (pos pos' : nat)
    (Hi : nth_error (docLines d) i = Some l)
    (Hpos1 : line_from l <= pos) (Hpos2 : pos <= line_to l)
    (Htrim : trim (line_text l) = line_text l)
    (Hne : line_text l <> [])
    (Hplain :
       (isHeaderType formatType = true
        /\ regexTest reHeaderPrefix (line_text l) = false)
       \/ (isBulletType formatType = true
           /\ isBulletList (line_text l) = false))
    (Hpos1' : line_from l <= pos')
    (Hpos2' : pos' <= line_from l
                      + length (toggleFormat (line_text l) formatType)) :
  exists e1 e2,
    applyFormatting
      (Some (mkEditorView (mkEditorState d (mkSelection pos pos))))
      formatType = Normal e1
    /\ splitLines (docAfter d e1)
       = replaceNth i (toggleFormat (line_text l) formatType) (splitLines d)
    /\ applyFormatting
         (Some (mkEditorView
                  (mkEditorState (docAfter d e1) (mkSelection pos' pos'))))
         formatType = Normal e2
    /\ docAfter (docAfter d e1) e2 = d.
Proof.
  assert (Hblock : isHeaderType formatType = true
                   \/ isBulletType formatType = true)
    by (destruct Hplain as [[H _]|[H _]]; auto).
  set (t1 := toggleFormat (line_text l) formatType) in *.
  set (v1 := mkEditorView (mkEditorState d (mkSelection pos pos))).
  assert (M : forall p, sel_from (mkSelection p p) = p
                        /\ sel_to (mkSelection p p) = p).
  { intros p. unfold sel_from, sel_to. cbn. lia. }
  destruct (caret_block_toggle v1 formatType i l) as [A1 S1];
    try assumption;
    try (cbn [state doc selection_main v1]; destruct (M pos); lia).
  cbn [state doc v1] in S1. fold t1 in S1.
  eexists. eexists. split; [exact A1|]. split; [exact S1|].
  set (d1 := docAfter d _) in *.
  set (l1 := mkLine (line_from l) (line_from l + length t1) (line_number l) t1).
  assert (Hi1 : nth_error (docLines d1) i = Some l1).
  { unfold docLines. rewrite S1. apply linesFrom_replaceNth. exact Hi. }
  set (v2 := mkEditorView (mkEditorState d1 (mkSelection pos' pos'))).
  destruct (caret_block_toggle v2 formatType i l1) as [A2 S2];
    try assumption;
    try (cbn [state doc selection_main v2 l1 line_from line_to];
         destruct (M pos'); lia).
  cbn [state doc v2 l1 line_text] in S2.
  split; [exact A2|].
  transitivity (joinLines (splitLines d)); [|apply joinLines_splitLines].
  rewrite <- (joinLines_splitLines (docAfter d1 _)). f_equal.
  subst l1. rewrite S2, S1, replaceNth_twice. unfold t1.
  rewrite (block_toggle_twice_plain _ _ Htrim Hne Hplain).
  apply replaceNth_same, docLines_text_nth, Hi.
Qed.

Lemma caret_toggle_twice_restores_document_witness :
  let d := lit ("intro" ++ nl ++ "Hello world" ++ nl ++ "end") in
  let l := mkLine 6 17 2 (lit "Hello world") in
  nth_error (docLines d) 1 = Some l
  /\ exists e1 e2,
      applyFormatting
        (Some (mkEditorView (mkEditorState d (mkSelection 9 9)))) h1
      = Normal e1
      /\ splitLines (docAfter d e1)
         = [lit "intro"; lit "# Hello world"; lit "end"]
      /\ applyFormatting
           (Some (mkEditorView
                    (mkEditorState (docAfter d e1) (mkSelection 6 6)))) h1
         = Normal e2
      /\ docAfter (docAfter d e1) e2 = d.
Proof.
  intros d l.
  assert (Hi : nth_error (docLines d) 1 = Some l) by reflexivity.
  split; [exact Hi|].
  destruct (caret_toggle_twice_restores_document d h1 1 l 9 6 Hi)
    as (e1 & e2 & A & B & C & D);
    try solve [ simpl; lia | reflexivity | discriminate
              | left; split; reflexivity ].
  exists e1, e2. split; [exact A|]. split; [exact B|]. split; assumption.
Defined.

(* ================================================================== *)
(** * The toolbar and the orchestrator *)
(* ================================================================== *)

(** What [applyFormatting] does with each format type, and what the
    effect of [useCursorStability] computes, on one state of the view. *)
Lemma applyFormatting_refusal (view : EditorView) :
  sel_to (selection_main (state view)) <= length (doc (state view)) ->
  let st := state view in
  let from := sel_from (selection_main st) in
  let to := sel_to (selection_main st) in
  exists lines cs,
    getSelectedLines st from to = Normal lines
    /\ 1 <= length lines
    /\ (from = to -> length lines = 1)
    /\ cursorSelection view = Normal cs
    /\ cs_hasSelection cs = negb (from =? to)
    /\ cs_selectionLineCount cs = Z.of_nat (length lines)
    /\ forall formatType, exists effects,
         applyFormatting (Some view) formatType = Normal effects
         /\ issuesNoEdit effects
            = if from =? to
              then negb (isHeaderType formatType)
                   && negb (isBulletType formatType)
              else isHeaderType formatType && negb (length lines =? 1).
Proof.
  intros Hin. cbv zeta.
  set (st := state view) in *. set (sel := selection_main st) in *.
  assert (Hle : sel_from sel <= sel_to sel)
    by (unfold sel_from, sel_to; lia).
  destruct (getSelectedLines_range st (sel_from sel) (sel_to sel) Hle Hin)
    as (a & b & la & lb & Hab & Ha & Hb & HA & HB & _ & _ & HR).
  pose proof (docLines_bounds _ _ _ Ha) as (Hna & _).
  pose proof (docLines_bounds _ _ _ Hb) as (Hnb & _).
  assert (Hb' : b < length (docLines (doc st)))
    by (apply nth_error_Some; rewrite Hb; discriminate).
  set (lines := firstn (S b - a) (skipn a (docLines (doc st)))) in *.
  assert (Hlen : length lines = S b - a) by (apply range_length; assumption).
  exists lines.
  unfold cursorSelection, applyFormatting. fold st. fold sel.
  destruct (Nat.eqb_spec (sel_from sel) (sel_to sel)) as [E|E]; cbn [negb].
  - assert (L1 : length lines = 1).
    { apply (getSelectedLines_caret st (sel_from sel)). rewrite E at 2.
      exact HR. }
    rewrite HA. cbn [bind]. eexists.
    repeat match goal with |- _ /\ _ => split end;
      try reflexivity; try assumption; try lia;
      try (cbn [cs_selectionLineCount]; rewrite L1; reflexivity).
    intros formatType.
    destruct formatType; cbn [isHeaderType isBulletType negb andb];
      eexists; split; reflexivity.
  - rewrite HA, HB, HR. cbn [bind]. rewrite Hna, Hnb. eexists.
    repeat match goal with |- _ /\ _ => split end;
      try reflexivity; try assumption; try lia;
      try (cbn [cs_selectionLineCount]; lia).
    intros formatType.
    destruct (Nat.eqb_spec (length lines) 1) as [L|L];
      destruct formatType; cbn [isHeaderType isBulletType negb andb];
      eexists; split; reflexivity.
Qed.

Lemma isDisabled_by_type (formatType : FormatType)
    (hasSelection : bool) (selectionLineCount : Z) :
  isDisabled formatType hasSelection
    (isSingleLineSelection hasSelection selectionLineCount)
  = if isHeaderType formatType
    then hasSelection && negb (selectionLineCount =? 1)%Z
    else if isBulletType formatType then false else negb hasSelection.
Proof.
  unfold isDisabled, isSingleLineSelection.
  destruct formatType, hasSelection, (selectionLineCount =? 1)%Z; reflexivity.
Qed.

(** X26: for a view whose selection is inside the document, the toolbar
    and [applyFormatting] agree on every button (the button is disabled
    exactly when [applyFormatting] would refuse the type: the inline
    buttons with a caret, the heading buttons on a selection of more than
    one line, the bullet button never) if and only if the values the
    toolbar is given are those of the state [applyFormatting] runs on:
    [hasSelection] says whether that state has a selection and, when it
    has one, the line count is 1 exactly when the selection is within one
    line.  The values the hook's factory and the effect of
    [useCursorStability] compute on that state are such values, the line
    count being the number of lines [getSelectedLines] returns. *)
Theorem toolbar_agrees_iff_inputs_current (view : EditorView)
    (Hin : sel_to (selection_main (state view)) <= length (doc (state view))) :
  let st := state view in
  let from := sel_from (selection_main st) in
  let to := sel_to (selection_main st) in
  exists lines cs info,
    getSelectedLines st from to = Normal lines
    /\ cursorSelection view = Normal cs
    /\ formattingInfoFactory (Some view) = Normal info
    /\ info_hasSelection info = negb (from =? to)
    /\ cs_hasSelection cs = negb (from =? to)
    /\ cs_selectionLineCount cs = Z.of_nat (length lines)
    /\ (forall (hasSelection : bool) (selectionLineCount : Z),
          (forall formatType, exists effects,
              applyFormatting (Some view) formatType = Normal effects
              /\ isDisabled formatType hasSelection
                   (isSingleLineSelection hasSelection selectionLineCount)
                 = issuesNoEdit effects)
          <-> hasSelection = negb (from =? to)
              /\ (hasSelection = true ->
                  (selectionLineCount =? 1)%Z = (length lines =? 1)))
    /\ (forall formatType, exists effects,
          applyFormatting (Some view) formatType = Normal effects
          /\ isDisabled formatType (info_hasSelection info)
               (isSingleLineSelection (info_hasSelection info)
                  (cs_selectionLineCount cs))
             = issuesNoEdit effects).
Proof.
  cbv zeta.
  destruct (applyFormatting_refusal view Hin)
    as (lines & cs & HL & Hlen & Hc & HC & Hcs & Hn & HA).
  destruct (formattingInfoFactory_spec view Hin) as (info & HF & Hhas & _).
  cbv zeta in *.
  set (st := state view) in *. set (sel := selection_main st) in *.
  assert (Hiff : forall (hasSelection : bool) (selectionLineCount : Z),
            (forall formatType, exists effects,
                applyFormatting (Some view) formatType = Normal effects
                /\ isDisabled formatType hasSelection
                     (isSingleLineSelection hasSelection selectionLineCount)
                   = issuesNoEdit effects)
            <-> hasSelection = negb (sel_from sel =? sel_to sel)
                /\ (hasSelection = true ->
                    (selectionLineCount =? 1)%Z = (length lines =? 1))).
  { intros hasSelection selectionLineCount. split.
    - intros H.
      destruct (H bold) as (e1 & A1 & D1).
      destruct (H h1) as (e2 & A2 & D2).
      destruct (HA bold) as (e1' & A1' & I1).
      destruct (HA h1) as (e2' & A2' & I2).
      rewrite A1 in A1'. injection A1' as <-.
      rewrite A2 in A2'. injection A2' as <-.
      rewrite isDisabled_by_type in D1, D2.
      cbn [isHeaderType isBulletType negb andb] in D1, D2, I1, I2.
      rewrite I1 in D1. rewrite I2 in D2.
      destruct (Nat.eqb_spec (sel_from sel) (sel_to sel)) as [E|E];
        destruct hasSelection; cbn [negb andb] in *; try discriminate;
        split; try reflexivity; try (intros; discriminate).
      intros _. destruct (selectionLineCount =? 1)%Z, (length lines =? 1);
        cbn [negb] in D2; first [reflexivity | discriminate].
    - intros [Hh Hl] formatType.
      destruct (HA formatType) as (e & A & I).
      exists e. split; [exact A|]. rewrite I, isDisabled_by_type.
      destruct (Nat.eqb_spec (sel_from sel) (sel_to sel)) as [E|E];
        cbn [negb] in Hh; subst hasSelection.
      + destruct formatType; reflexivity.
      + rewrite (Hl eq_refl). destruct formatType; reflexivity. }
  exists lines, cs, info.
  repeat match goal with |- _ /\ _ => split end; try assumption.
  apply Hiff. rewrite Hhas. split; [reflexivity|].
  intros _. rewrite Hn.
  destruct (Nat.eqb_spec (length lines) 1) as [L|L];
    destruct (Z.eqb_spec (Z.of_nat (length lines)) 1) as [L'|L'];
    first [reflexivity | lia].
Qed.

Lemma toolbar_agrees_iff_inputs_current_witness :
  let view := mkEditorView (stateOf ("# one" ++ nl ++ "# two") 2 9) in
  sel_to (selection_main (state view)) <= length (doc (state view))
  /\ isDisabled h1 true (isSingleLineSelection true 2) = true
  /\ applyFormatting (Some view) h1
     = Normal [ConsoleWarn
                 (lit "Header formatting not allowed on multi-line selections")]
  /\ exists lines cs info,
      getSelectedLines (state view) 2 9 = Normal lines
      /\ cursorSelection view = Normal cs
      /\ formattingInfoFactory (Some view) = Normal info
      /\ forall formatType, exists effects,
           applyFormatting (Some view) formatType = Normal effects
           /\ isDisabled formatType (info_hasSelection info)
                (isSingleLineSelection (info_hasSelection info)
                   (cs_selectionLineCount cs))
              = issuesNoEdit effects.
Proof.
  intros view.
  assert (H : sel_to (selection_main (state view))
              <= length (doc (state view))) by (vm_compute; lia).
  split; [exact H|]. split; [reflexivity|]. split; [reflexivity|].
  destruct (toolbar_agrees_iff_inputs_current view H)
    as (lines & cs & info & A & B & C & _ & _ & _ & _ & D).
  exists lines, cs, info.
  split; [exact A|]. split; [exact B|]. split; [exact C | exact D].
Defined.

(** X27: the values the toolbar is given can be out of date.  When the
    view object is first rendered with a caret and later holds a real
    selection, every later render still reports no selection, for the value
    is memoised on the view object.  Whatever line count the toolbar has,
    it then keeps the four inline buttons disabled although
    [applyFormatting] would make the edit, and it keeps the heading buttons
    enabled although [applyFormatting] refuses them when the selection is
    on more than one line. *)
Theorem stale_memo_misleads_toolbar
    (cell : option MemoCell) (id : nat) (first later : EditorView)
    (Hmiss : memoHit cell (Some id) = false)
    (Hin1 : sel_to (selection_main (state first))
            <= length (doc (state first)))
    (Hcaret : sel_from (selection_main (state first))
              = sel_to (selection_main (state first)))
    (Hin2 : sel_to (selection_main (state later))
            <= length (doc (state later)))
    (Hsel : sel_from (selection_main (state later))
            <> sel_to (selection_main (state later))) :
  let st := state later in
  let from := sel_from (selection_main st) in
  let to := sel_to (selection_main st) in
  exists info kept lines,
    useTextFormatting cell (Some (mkViewObject id first)) = Normal (info, kept)
    /\ useTextFormatting (Some kept) (Some (mkViewObject id later))
       = Normal (info, kept)
    /\ info_hasSelection info = false
    /\ getSelectedLines st from to = Normal lines
    /\ forall (formatType : FormatType) (selectionLineCount : Z),
         exists effects,
           applyFormatting (Some later) formatType = Normal effects
           /\ isDisabled formatType (info_hasSelection info)
                (isSingleLineSelection (info_hasSelection info)
                   selectionLineCount)
              = negb (isHeaderType formatType)
                && negb (isBulletType formatType)
           /\ issuesNoEdit effects
              = isHeaderType formatType && negb (length lines =? 1).
Proof.
  cbv zeta.
  destruct (formattingInfoFactory_spec first Hin1) as (info & HF & Hhas & _).
  cbv zeta in Hhas. rewrite Hcaret, Nat.eqb_refl in Hhas. cbn [negb] in Hhas.
  destruct (applyFormatting_refusal later Hin2)
    as (lines & cs & HL & _ & _ & _ & _ & _ & HA).
  cbv zeta in HL, HA.
  exists info, (mkMemoCell (Some id) info), lines.
  split; [apply (useTextFormatting_computed cell (mkViewObject id first));
          assumption|].
  split; [apply useTextFormatting_kept|].
  split; [exact Hhas|]. split; [exact HL|].
  intros formatType selectionLineCount.
  destruct (HA formatType) as (effects & A & I).
  exists effects. split; [exact A|]. split.
  - rewrite isDisabled_by_type, Hhas. destruct formatType; reflexivity.
  - rewrite I.
    destruct (Nat.eqb_spec (sel_from (selection_main (state later)))
                (sel_to (selection_main (state later)))) as [E|_];
      [contradiction | reflexivity].
Qed.

Lemma stale_memo_misleads_toolbar_witness :
  let first := mkEditorView (stateOf ("# one" ++ nl ++ "# two") 0 0) in
  let later := mkEditorView (stateOf ("# one" ++ nl ++ "# two") 2 9) in
  memoHit None (Some 0) = false
  /\ sel_to (selection_main (state first)) <= length (doc (state first))
  /\ sel_from (selection_main (state first))
     = sel_to (selection_main (state first))
  /\ sel_to (selection_main (state later)) <= length (doc (state later))
  /\ sel_from (selection_main (state later))
     <> sel_to (selection_main (state later))
  /\ applyFormatting (Some later) h1
     = Normal [ConsoleWarn
                 (lit "Header formatting not allowed on multi-line selections")]
  /\ exists info kept,
      useTextFormatting None (Some (mkViewObject 0 first))
      = Normal (info, kept)
      /\ useTextFormatting (Some kept) (Some (mkViewObject 0 later))
         = Normal (info, kept)
      /\ forall selectionLineCount,
           isDisabled h1 (info_hasSelection info)
             (isSingleLineSelection (info_hasSelection info)
                selectionLineCount) = false
           /\ isDisabled bold (info_hasSelection info)
                (isSingleLineSelection (info_hasSelection info)
                   selectionLineCount) = true.
Proof.
  intros first later.
  assert (H0 : memoHit None (Some 0) = false) by reflexivity.
  assert (H1 : sel_to (selection_main (state first))
               <= length (doc (state first))) by (vm_compute; lia).
  assert (H2 : sel_from (selection_main (state first))
               = sel_to (selection_main (state first))) by reflexivity.
  assert (H3 : sel_to (selection_main (state later))
               <= length (doc (state later))) by (vm_compute; lia).
  assert (H4 : sel_from (selection_main (state later))
               <> sel_to (selection_main (state later)))
    by (vm_compute; discriminate).
  repeat match goal with |- _ /\ _ => split end;
    try assumption; try reflexivity.
  destruct (stale_memo_misleads_toolbar None 0 first later H0 H1 H2 H3 H4)
    as (info & kept & lines & A & B & _ & _ & D).
  exists info, kept. split; [exact A|]. split; [exact B|].
  intros n. split.
  - destruct (D h1 n) as (e & _ & E & _). exact E.
  - destruct (D bold n) as (e & _ & E & _). exact E.
Defined.
